(** * delayedgram: the upload scheduler of [main.py]

    A shallow embedding of [main.py] and the properties of its scheduling,
    queue and dispatch logic.

    Conventions of the embedding.
    - A [datetime.datetime] is a calendar day, kept as its proleptic ordinal
      ([date.toordinal()]), together with a time of day;
      [datetime.timedelta] is a whole number of microseconds.  Adding a
      timedelta raises [OverflowError] when the day leaves the years 1..9999
      (ordinals 1..3652059).  The readings of [datetime.now()] are naive;
      a timestamp read from a metadata blob is naive or carries a time zone
      ([dt.timestamp]), and comparing or subtracting the two kinds raises
      [TypeError].
    - [float] is IEEE 754 binary64, as [spec_float].
    - The file system is the pair of the two queue roots of the
      configuration, taken as two distinct existing directories (this is what
      [startup] establishes).  A directory is the list of its entries in the
      order [os.listdir] enumerates them.
    - [int(name)] and [str(id)] on directory names are the two fields of the
      class [PyInt]; the development is generic in them and instantiated with
      the decimal codec of the standard library for concrete runs.
    - The wall clock, the process environment and the instagrapi client are
      an oracle [Env]; what the program does to them is recorded in a trace
      of events. *)

From Stdlib Require Import ZArith List String Ascii Bool Lia.
From Stdlib Require Import Sorting.Sorted Sorting.Permutation.
From Stdlib Require Import Floats.SpecFloat.
From Stdlib Require Import DecimalString DecimalPos DecimalZ.
Import ListNotations.
Open Scope string_scope.
Open Scope list_scope.
Open Scope Z_scope.

(** ** [datetime] *)

Module dt.

(** [dt.timedelta], as its total number of microseconds. *)
Definition timedelta := Z.

(** [dt.time]. *)
Record time := mk_time
  { hour : Z; minute : Z; second : Z; microsecond : Z }.

(** [dt.datetime]: the day (ordinal) and the time of day. *)
Record datetime := mk_datetime
  { date : Z; timetz : time }.

Definition us_per_second : Z := 1000000.
Definition us_per_minute : Z := 60 * us_per_second.
Definition us_per_hour : Z := 60 * us_per_minute.
Definition us_per_day : Z := 24 * us_per_hour.

(** The fields of a [dt.time] are in range. *)
Definition time_wf (t : time) : Prop :=
  0 <= hour t < 24 /\ 0 <= minute t < 60 /\ 0 <= second t < 60 /\
  0 <= microsecond t < us_per_second.

Definition wf (d : datetime) : Prop := time_wf (timetz d).

(** Microseconds since midnight. *)
Definition time_to_us (t : time) : Z :=
  hour t * us_per_hour + minute t * us_per_minute
  + second t * us_per_second + microsecond t.

Definition time_of_us (r : Z) : time :=
  {| hour := r / us_per_hour;
     minute := (r / us_per_minute) mod 60;
     second := (r / us_per_second) mod 60;
     microsecond := r mod us_per_second |}.

(** Microseconds since the start of day 0. *)
Definition to_us (d : datetime) : Z :=
  date d * us_per_day + time_to_us (timetz d).

Definition of_us (x : Z) : datetime :=
  {| date := x / us_per_day; timetz := time_of_us (x mod us_per_day) |}.

(** [timedelta(seconds=n)]. *)
Definition seconds (n : Z) : timedelta := n * us_per_second.

(** The ordinals of 0001-01-01 and of 9999-12-31. *)
Definition min_ordinal : Z := 1.
Definition max_ordinal : Z := 3652059.

(** The day of [d] is one a [datetime] can hold. *)
Definition in_range (d : datetime) : bool :=
  (min_ordinal <=? date d) && (date d <=? max_ordinal).

(** The instant [delta] after [d], whatever its year. *)
Definition shift (d : datetime) (delta : timedelta) : datetime :=
  of_us (to_us d + delta).

(** [d + delta]; [None] is its [OverflowError]. *)
Definition add (d : datetime) (delta : timedelta) : option datetime :=
  let r := shift d delta in
  if in_range r then Some r else None.

(** [a - b] on two datetimes. *)
Definition sub (a b : datetime) : timedelta := to_us a - to_us b.

(** [a > b] on two datetimes. *)
Definition gt (a b : datetime) : bool := to_us a >? to_us b.

(** [d.replace(hour=h, minute=m, second=s, microsecond=us)]. *)
Definition replace (d : datetime) (h m s us : Z) : datetime :=
  {| date := date d;
     timetz := {| hour := h; minute := m; second := s; microsecond := us |} |}.

(** [datetime.combine(day, t)]: the day [day] at the time of day [t]. *)
Definition combine (day : Z) (t : time) : datetime :=
  {| date := day; timetz := t |}.

(** A [dt.datetime] as a metadata blob can hold it: naive, or aware, with
    its local date and time and its offset from UTC. *)
Inductive timestamp : Type :=
  | Naive (d : datetime)
  | Aware (local : datetime) (utcoffset : timedelta).

(** [t + delta]: the local date and time move, the time zone stays. *)
Definition timestamp_add (t : timestamp) (delta : timedelta)
  : option timestamp :=
  match t with
  | Naive d => option_map Naive (add d delta)
  | Aware local utcoffset =>
      option_map (fun r => Aware r utcoffset) (add local delta)
  end.

(** The longest sleep [time.sleep] accepts, about 292 years: it keeps the
    duration as a signed 64-bit count of nanoseconds. *)
Definition sleep_max : timedelta := 9223372036854775.

End dt.

(** A naive datetime is a timestamp; [Some d] is read at the expected type
    first, so that [Some d] is an optional timestamp where one is expected. *)
Coercion dt.Naive : dt.datetime >-> dt.timestamp.
Arguments Some {A} & a.

(** ** [float] *)

Definition float := spec_float.

(** [0.] *)
Definition float_zero : float := S754_zero false.

(** [1.0] *)
Definition float_one : float := S754_finite false 4503599627370496 (-52).

(** [x != 0.] where [x] is an [Optional[float]]: [None] differs from every
    float, and a float differs from [0.] unless it compares equal to it. *)
Definition ne_zero (x : option float) : bool :=
  match x with
  | None => true
  | Some f => negb (SFeqb f float_zero)
  end.

(** ** Exceptions *)

Inductive exn : Type :=
  | ValueError          (* [int] on a name that is not an integer literal *)
  | TypeError           (* an operator applied to [None], or to a naive and
                           an aware datetime *)
  | OverflowError       (* a datetime out of range, a sleep too long *)
  | IndexError          (* [[0]] on an empty list *)
  | FileNotFoundError
  | FileExistsError
  | OSError
  | ValidationError     (* pydantic: a metadata blob that does not validate *)
  | ExternalError (code : Z).  (* raised by the environment or the client *)

Inductive result (A : Type) : Type :=
  | Ok (a : A)
  | Raise (e : exn).

Arguments Ok {A} a.
Arguments Raise {A} e.

(** ** The scheduler *)

(** [next_upload_time], with the reading of [dt.datetime.now()] as [now]. *)
Definition next_upload_time (now : dt.datetime)
    (last_upload_time : option dt.timestamp) (upload_time : dt.time)
    (upload_delay : dt.timedelta) : result dt.datetime :=
  match dt.add (dt.replace now (dt.hour upload_time) (dt.minute upload_time)
                           (dt.second upload_time) 0)
               upload_delay with
  | None => Raise OverflowError
  | Some next_upload =>
      match last_upload_time with
      | Some last =>
          match dt.timestamp_add last upload_delay with
          | None => Raise OverflowError
          | Some (dt.Naive potential_next_upload) =>
              if dt.gt potential_next_upload next_upload
              then Ok potential_next_upload
              else Ok next_upload
          | Some (dt.Aware _ _) => Raise TypeError
          end
      | None => Ok next_upload
      end
  end.

(** ** The records *)

Record Config := mk_Config
  { default_upload_delta : dt.timedelta;
    default_upload_time : dt.time;
    check_interval : dt.timedelta;
    unprocessed_dir_fp : string;
    processed_dir_fp : string }.

Record InstaUploadMeta := mk_InstaUploadMeta
  { caption : string;
    loc_lat : option float;
    loc_long : option float;
    upload_at : option dt.timestamp }.

Record InstaUpload := mk_InstaUpload
  { id : Z;
    meta : InstaUploadMeta;
    images : list string }.

Definition META_FP : string := "meta.json".
Definition IM_DIR : string := "ims".
Definition NEW_OFFSET : Z := 1.

(** [len(l)]. *)
Definition len {A : Type} (l : list A) : Z := Z.of_nat (List.length l).

(** [InstaUpload.validate_post]. *)
Definition validate_post (self : InstaUpload) : bool :=
  (len (images self) >? 0)
  && ne_zero (loc_lat (meta self))
  && ne_zero (loc_long (meta self)).

(** ** Directory names *)

(** [int(name)] on a directory name ([None] is its [ValueError]) and
    [str(id)] on an id. *)
Class PyInt := mk_PyInt
  { py_int : string -> option Z;
    py_str : Z -> string }.

(** The decimal codec of the standard library: an instance for concrete runs.
    It reads an optional [-] followed by decimal digits.  Python's [int]
    reads more (a [+] sign, white space around the literal, underscores
    between digits); the two agree on the names of the concrete runs below,
    which are canonical decimal numerals or have no digit at all. *)
Definition dec_int (s : string) : option Z :=
  option_map Z.of_int (NilZero.int_of_string s).

Definition dec_str (z : Z) : string :=
  NilZero.string_of_int (Z.to_int z).

Definition dec_PyInt : PyInt := {| py_int := dec_int; py_str := dec_str |}.

(** ** The file system *)

(** The contents of [meta.json] in an upload directory. *)
Inductive MetaFile : Type :=
  | NoMeta                          (* no such file *)
  | BadMeta                         (* a file that does not validate *)
  | MetaJson (m : InstaUploadMeta). (* the JSON dump of [m] *)

(** An upload directory: its [meta.json] and the listing of its [ims]
    subdirectory ([None]: no such subdirectory). *)
Record UploadDir := mk_UploadDir
  { meta_json : MetaFile;
    ims : option (list string) }.

(** A queue root: its entries in [os.listdir] order.  Every entry is an
    upload directory, with or without its [meta.json] and its [ims]; a
    plain file directly under a root is not represented. *)
Definition Dir := list (string * UploadDir).

Record FS := mk_FS
  { unprocessed : Dir;    (* the directory [cfg.unprocessed_dir_fp] *)
    processed : Dir }.    (* the directory [cfg.processed_dir_fp] *)

Inductive Root := Unprocessed | Processed.

Definition root (r : Root) (f : FS) : Dir :=
  match r with Unprocessed => unprocessed f | Processed => processed f end.

Definition set_root (r : Root) (d : Dir) (f : FS) : FS :=
  match r with
  | Unprocessed => {| unprocessed := d; processed := processed f |}
  | Processed => {| unprocessed := unprocessed f; processed := d |}
  end.

Definition names (d : Dir) : list string := map fst d.

Fixpoint lookup (name : string) (d : Dir) : option UploadDir :=
  match d with
  | [] => None
  | (n, u) :: rest => if String.eqb n name then Some u else lookup name rest
  end.

Fixpoint update (name : string) (f : UploadDir -> UploadDir) (d : Dir) : Dir :=
  match d with
  | [] => []
  | (n, u) :: rest =>
      if String.eqb n name then (n, f u) :: rest
      else (n, u) :: update name f rest
  end.

Fixpoint remove (name : string) (d : Dir) : Dir :=
  match d with
  | [] => []
  | (n, u) :: rest =>
      if String.eqb n name then rest else (n, u) :: remove name rest
  end.

Definition is_empty_dir (u : UploadDir) : bool :=
  match meta_json u, ims u with
  | NoMeta, None => true
  | _, _ => false
  end.

(** ** The outside world *)

(** A location handle of the client. *)
Definition Location := Z.

(** A path, as the components given to [os.path.join]. *)
Definition Path := list string.

(** The status lines the program prints. *)
Inductive Line : Type :=
  | NoUploads                       (* "No uploads to process" *)
  | NotReady                        (* "Upload not ready" *)
  | InvalidPost                     (* "Invalid post. Ensure ..." *)
  | ErrorUploading (e : exn)        (* "Error uploading: {e}" *)
  | SleepingFor (d : dt.timedelta). (* "Sleeping for {sleep_for}" *)

Inductive event : Type :=
  | Print (l : Line)
  | Login (username : option string) (password : string)
  | LocationSearch (lat lng : float)
  | LocationComplete (loc : Location)
  | PhotoUpload (path : Path) (caption : string) (location : option Location)
  | AlbumUpload (paths : list Path) (caption : string)
                (location : option Location)
  | Rename (name : string)          (* a completed [os.rename] *)
  | Sleep (d : dt.timedelta).

(** What the environment answers. *)
Record Env := mk_Env
  { now_at : nat -> dt.datetime;    (* the n-th reading of [datetime.now()] *)
    env_uname_pwd : result (option string * string);
    login : option string -> string -> result unit;
    location_search : float -> float -> result (list Location);
    location_complete : Location -> result Location;
    photo_upload : Path -> string -> option Location -> result unit;
    album_upload : list Path -> string -> option Location -> result unit;
    rename_fault : option exn }.    (* an error of the operating system *)

Record World := mk_World
  { fs : FS;
    ticks : nat;                    (* readings of the clock so far *)
    trace : list event }.

(** ** Computations: an environment, a world, exceptions that keep the world *)

Definition IO (A : Type) : Type := Env -> World -> result A * World.

Definition ret {A : Type} (a : A) : IO A := fun _ w => (Ok a, w).

Definition bind {A B : Type} (m : IO A) (f : A -> IO B) : IO B :=
  fun env w =>
    match m env w with
    | (Ok a, w') => f a env w'
    | (Raise e, w') => (Raise e, w')
    end.

Definition raise {A : Type} (e : exn) : IO A := fun _ w => (Raise e, w).

(** [try: body except Exception as e: handler e]. *)
Definition try_except {A : Type} (body : IO A) (handler : exn -> IO A) : IO A :=
  fun env w =>
    match body env w with
    | (Ok a, w') => (Ok a, w')
    | (Raise e, w') => handler e env w'
    end.

Definition lift {A : Type} (r : result A) : IO A := fun _ w => (r, w).

Notation "x <- m ;; k" := (bind m (fun x => k))
  (at level 61, m at next level, right associativity).
Notation "m ;; k" := (bind m (fun _ => k))
  (at level 61, right associativity).

Definition emit (ev : event) : IO unit :=
  fun _ w => (Ok tt, {| fs := fs w; ticks := ticks w; trace := trace w ++ [ev] |}).

(** A call to the outside: recorded, then answered by the environment. *)
Definition call {A : Type} (ev : event) (answer : Env -> result A) : IO A :=
  fun env w =>
    (answer env, {| fs := fs w; ticks := ticks w; trace := trace w ++ [ev] |}).

Definition print (l : Line) : IO unit := emit (Print l).

(** [dt.datetime.now()]. *)
Definition datetime_now : IO dt.datetime :=
  fun env w =>
    (Ok (now_at env (ticks w)),
     {| fs := fs w; ticks := S (ticks w); trace := trace w |}).

Definition read_root (r : Root) : IO Dir := fun _ w => (Ok (root r (fs w)), w).

Definition write_root (r : Root) (d : Dir) : IO unit :=
  fun _ w =>
    (Ok tt, {| fs := set_root r d (fs w); ticks := ticks w; trace := trace w |}).

(** ** The post repository *)

Section Repository.

Context {codec : PyInt}.

(** [InstaUploadMeta.from_fp] on the [meta.json] of the directory [name] of
    a root with contents [parent]. *)
Definition from_fp (name : string) (parent : Dir) : result InstaUploadMeta :=
  match lookup name parent with
  | None => Raise FileNotFoundError
  | Some u =>
      match meta_json u with
      | NoMeta => Raise FileNotFoundError
      | BadMeta => Raise ValidationError
      | MetaJson m => Ok m
      end
  end.

(** [os.listdir] on the [ims] subdirectory of the directory [name]. *)
Definition listdir_ims (name : string) (parent : Dir) : result (list string) :=
  match lookup name parent with
  | None => Raise FileNotFoundError
  | Some u =>
      match ims u with
      | None => Raise FileNotFoundError
      | Some l => Ok l
      end
  end.

(** [InstaUpload.load_from_dir]. *)
Definition load_from_dir (id : Z) (parent_dir : Dir) : result InstaUpload :=
  let dir := py_str id in
  match from_fp dir parent_dir with
  | Raise e => Raise e
  | Ok meta =>
      match listdir_ims dir parent_dir with
      | Raise e => Raise e
      | Ok ims => Ok {| id := id; meta := meta; images := ims |}
      end
  end.

(** The loop of [load_all_from_parent_dir] over the listing [fps]. *)
Fixpoint load_each (parent_dir : Dir) (fps : list string)
  : result (list InstaUpload) :=
  match fps with
  | [] => Ok []
  | upload_fp :: rest =>
      match py_int upload_fp with
      | None => Raise ValueError
      | Some id =>
          match load_from_dir id parent_dir with
          | Raise e => Raise e
          | Ok u =>
              match load_each parent_dir rest with
              | Raise e => Raise e
              | Ok us => Ok (u :: us)
              end
          end
      end
  end.

(** [uploads.sort(key=lambda x: x.id)]: a stable sort on the ids. *)
Fixpoint insert_by_id (x : InstaUpload) (l : list InstaUpload)
  : list InstaUpload :=
  match l with
  | [] => [x]
  | y :: l' => if id x <=? id y then x :: l else y :: insert_by_id x l'
  end.

Definition sort_by_id (l : list InstaUpload) : list InstaUpload :=
  fold_right insert_by_id [] l.

(** [InstaUpload.load_all_from_parent_dir] on a root with contents [dir]. *)
Definition load_all_from_parent_dir (dir : Dir) : result (list InstaUpload) :=
  match load_each dir (names dir) with
  | Raise e => Raise e
  | Ok uploads => Ok (sort_by_id uploads)
  end.

(** [os.makedirs(os.path.join(dir_fp, name, IM_DIR))]. *)
Definition makedirs_ims (name : string) (d : Dir) : result Dir :=
  match lookup name d with
  | None => Ok (d ++ [(name, {| meta_json := NoMeta; ims := Some [] |})])
  | Some u =>
      match ims u with
      | Some _ => Raise FileExistsError
      | None =>
          Ok (update name
                (fun u => {| meta_json := meta_json u; ims := Some [] |}) d)
      end
  end.

(** Writing the dump of [m] to the [meta.json] of the directory [name]. *)
Definition write_meta (name : string) (m : InstaUploadMeta) (d : Dir) : Dir :=
  update name (fun u => {| meta_json := MetaJson m; ims := ims u |}) d.

(** The id that [write_empty_upload] gives to the new upload. *)
Definition new_id (newest_upload : option InstaUpload) : Z :=
  match newest_upload with
  | Some newest => id newest + NEW_OFFSET
  | None => 0
  end.

(** [InstaUpload.write_empty_upload]. *)
Definition write_empty_upload (dir_fp : Root)
    (newest_upload : option InstaUpload) (cfg : Config) : IO unit :=
  now <- datetime_now ;;
  upload_at <-
    lift (next_upload_time now
            (match newest_upload with
             | Some newest => upload_at (meta newest)
             | None => None
             end)
            (default_upload_time cfg) (default_upload_delta cfg)) ;;
  let new_id := new_id newest_upload in
  let meta :=
    {| caption := ""; loc_lat := Some float_zero; loc_long := Some float_zero;
       upload_at := Some (dt.Naive upload_at) |} in
  d <- read_root dir_fp ;;
  d' <- lift (makedirs_ims (py_str new_id) d) ;;
  write_root dir_fp (write_meta (py_str new_id) meta d').

(** [all_posts[-1] if len(all_posts) > 0 else None]. *)
Definition newest (all_posts : list InstaUpload) : option InstaUpload :=
  match all_posts with
  | [] => None
  | u :: rest => Some (last rest u)
  end.

(** The [--new] action. *)
Definition run_new (cfg : Config) : IO unit :=
  p <- read_root Processed ;;
  processed <- lift (load_all_from_parent_dir p) ;;
  u <- read_root Unprocessed ;;
  unprocessed <- lift (load_all_from_parent_dir u) ;;
  let all_posts := processed ++ unprocessed in
  let newest_upload := newest all_posts in
  write_empty_upload Unprocessed newest_upload cfg.

(** ** The client *)

(** [InstaClient]: the configuration it keeps; the instagrapi client itself
    lives in the environment. *)
Record InstaClient := mk_InstaClient { client_cfg : Config }.

(** [InstaClient.get_env_uname_pwd]. *)
Definition get_env_uname_pwd : IO (option string * string) :=
  fun env w => (env_uname_pwd env, w).

(** [InstaClient.__init__]. *)
Definition InstaClient_init (cfg : Config) (username : option string)
    (password : string) : IO InstaClient :=
  call (Login username password) (fun env => login env username password) ;;
  ret {| client_cfg := cfg |}.

(** [l[0]]. *)
Definition index0 {A : Type} (l : list A) : result A :=
  match l with
  | [] => Raise IndexError
  | x :: _ => Ok x
  end.

(** [InstaClient.upload_post]. *)
Definition upload_post (self : InstaClient) (upload : InstaUpload) : IO unit :=
  loc <-
    match loc_lat (meta upload), loc_long (meta upload) with
    | Some lat, Some lng =>
        found <- call (LocationSearch lat lng)
                      (fun env => location_search env lat lng) ;;
        loc <- lift (index0 found) ;;
        loc <- call (LocationComplete loc)
                    (fun env => location_complete env loc) ;;
        ret (Some loc)
    | _, _ => ret None
    end ;;
  let paths :=
    map (fun im => [unprocessed_dir_fp (client_cfg self); py_str (id upload);
                    IM_DIR; im])
        (images upload) in
  match paths with
  | [path] =>
      call (PhotoUpload path (caption (meta upload)) loc)
           (fun env => photo_upload env path (caption (meta upload)) loc)
  | _ =>
      call (AlbumUpload paths (caption (meta upload)) loc)
           (fun env => album_upload env paths (caption (meta upload)) loc)
  end.

(** [os.rename] of the directory [name] from the unprocessed root to the
    processed root: all or nothing. *)
Definition os_rename (name : string) : IO unit :=
  fun env w =>
    match rename_fault env with
    | Some e => (Raise e, w)
    | None =>
        match lookup name (unprocessed (fs w)) with
        | None => (Raise FileNotFoundError, w)
        | Some u =>
            let moved (dst : Dir) :=
              (Ok tt,
               {| fs := {| unprocessed := remove name (unprocessed (fs w));
                           processed := dst |};
                  ticks := ticks w;
                  trace := trace w ++ [Rename name] |}) in
            match lookup name (processed (fs w)) with
            | None => moved (processed (fs w) ++ [(name, u)])
            | Some old =>
                if is_empty_dir old
                then moved (update name (fun _ => u) (processed (fs w)))
                else (Raise OSError, w)
            end
        end
    end.

(** ** The dispatch loop *)

(** [a > b] where [a] is an [Optional[datetime]] and [b] is naive. *)
Definition opt_gt (a : option dt.timestamp) (b : dt.datetime) : result bool :=
  match a with
  | None => Raise TypeError
  | Some (dt.Naive a) => Ok (dt.gt a b)
  | Some (dt.Aware _ _) => Raise TypeError
  end.

(** [a - b] where [a] is an [Optional[datetime]] and [b] is naive. *)
Definition opt_sub (a : option dt.timestamp) (b : dt.datetime)
  : result dt.timedelta :=
  match a with
  | None => Raise TypeError
  | Some (dt.Naive a) => Ok (dt.sub a b)
  | Some (dt.Aware _ _) => Raise TypeError
  end.

(** [try_upload]. *)
Definition try_upload (cfg : Config) : IO (option dt.timedelta) :=
  d <- read_root Unprocessed ;;
  unprocessed <- lift (load_all_from_parent_dir d) ;;
  match unprocessed with
  | [] => print NoUploads ;; ret None
  | upload :: _ =>
      now <- datetime_now ;;
      not_ready <- lift (opt_gt (upload_at (meta upload)) now) ;;
      if not_ready then
        print NotReady ;;
        now <- datetime_now ;;
        remaining <- lift (opt_sub (upload_at (meta upload)) now) ;;
        ret (Some (remaining + dt.seconds 1))
      else if negb (validate_post upload) then
        print InvalidPost ;; ret None
      else
        cred <- get_env_uname_pwd ;;
        cli <- InstaClient_init cfg (fst cred) (snd cred) ;;
        try_except
          (upload_post cli upload ;;
           os_rename (py_str (id upload)) ;;
           ret None)
          (fun e => print (ErrorUploading e) ;; ret None)
  end.

(** [time.sleep(d.total_seconds())]. *)
Definition time_sleep (d : dt.timedelta) : IO unit :=
  if d <? 0 then raise ValueError
  else if dt.sleep_max <? d then raise OverflowError
  else emit (Sleep d).

(** The duration [sleep_for] that one turn of the [--cron] loop computes. *)
Definition cron_sleep_for (cfg : Config) : IO dt.timedelta :=
  sleep_for <- try_upload cfg ;;
  match sleep_for with
  | None => ret (check_interval cfg)
  | Some sleep_for => ret (Z.min sleep_for (check_interval cfg))
  end.

(** One turn of the [--cron] loop. *)
Definition cron_turn (cfg : Config) : IO unit :=
  sleep_for <- cron_sleep_for cfg ;;
  print (SleepingFor sleep_for) ;;
  time_sleep sleep_for.

(** The [--cron] action, cut after [turns] turns of its [while True];
    the [k]-th turn runs in the environment [envs k]. *)
Fixpoint run_cron (turns : nat) (envs : nat -> Env) (k : nat) (cfg : Config)
    (w : World) : result unit * World :=
  match turns with
  | O => (Ok tt, w)
  | S turns' =>
      match cron_turn cfg (envs k) w with
      | (Ok _, w') => run_cron turns' envs (S k) cfg w'
      | (Raise e, w') => (Raise e, w')
      end
  end.

(** The [--upload] action. *)
Definition run_upload (cfg : Config) : IO unit :=
  try_upload cfg ;; ret tt.

End Repository.

(** ** Vocabulary of the properties *)

(** The instant [x], in microseconds since the start of day 0, falls in the
    years 1..9999. *)
Definition representable (x : Z) : bool :=
  (dt.min_ordinal * dt.us_per_day <=? x)
  && (x <? (dt.max_ordinal + 1) * dt.us_per_day).

(** The time of day [t] cut to whole seconds. *)
Definition whole_seconds (t : dt.time) : dt.time :=
  {| dt.hour := dt.hour t; dt.minute := dt.minute t;
     dt.second := dt.second t; dt.microsecond := 0 |}.

(** A coordinate that is set to zero ([0.0] or [-0.0]). *)
Definition coord_is_zero (x : option float) : Prop :=
  exists s, x = Some (S754_zero s).

(** A float that is not a zero. *)
Definition float_nonzero (x : float) : bool :=
  match x with
  | S754_zero _ => false
  | _ => true
  end.

(** ** Sample data for concrete runs *)

(** Day 739000 at 15:30:00.250000. *)
Definition sample_now : dt.datetime :=
  {| dt.date := 739000;
     dt.timetz := {| dt.hour := 15; dt.minute := 30; dt.second := 0;
                     dt.microsecond := 250000 |} |}.

(** 10:00:00.500000 *)
Definition ten_and_a_half : dt.time :=
  {| dt.hour := 10; dt.minute := 0; dt.second := 0; dt.microsecond := 500000 |}.

(** 10:00:00 *)
Definition ten_o_clock : dt.time :=
  {| dt.hour := 10; dt.minute := 0; dt.second := 0; dt.microsecond := 0 |}.

(** 9999-12-31 at 12:00:00, the last day of [datetime]. *)
Definition last_day_noon : dt.datetime :=
  {| dt.date := dt.max_ordinal;
     dt.timetz := {| dt.hour := 12; dt.minute := 0; dt.second := 0;
                     dt.microsecond := 0 |} |}.

(** [timedelta(days=1)] *)
Definition one_day : dt.timedelta := dt.us_per_day.

(** [timedelta(hours=1)] *)
Definition one_hour : dt.timedelta := dt.us_per_hour.

(** [timedelta(days=k)]. *)
Definition days (k : Z) : dt.timedelta := k * dt.us_per_day.

(** A record with the given images and coordinates. *)
Definition post (ims : list string) (lat lng : option float) : InstaUpload :=
  {| id := 0;
     meta := {| caption := ""; loc_lat := lat; loc_long := lng;
                upload_at := Some sample_now |};
     images := ims |}.

(** Ascending order of ids. *)
Definition le_id (a b : InstaUpload) : Prop := id a <= id b.

Section Vocabulary.

Context {codec : PyInt}.

(** The entry named [fp] of a root with contents [dir] loads: its name is an
    integer literal and the directory of that id has a metadata blob that
    validates and an image folder. *)
Definition entry_loads (dir : Dir) (fp : string) : bool :=
  match py_int fp with
  | None => false
  | Some i =>
      match load_from_dir i dir with
      | Ok _ => true
      | Raise _ => false
      end
  end.

(** The entry named [fp] has a name that is not an integer literal, or the
    metadata blob of its record is missing or malformed. *)
Definition bad_entry (dir : Dir) (fp : string) : Prop :=
  py_int fp = None
  \/ exists i, py_int fp = Some i
               /\ (from_fp (py_str i) dir = Raise FileNotFoundError
                   \/ from_fp (py_str i) dir = Raise ValidationError).

End Vocabulary.

(** The world after one more reading of the clock. *)
Definition tick (w : World) : World :=
  {| fs := fs w; ticks := S (ticks w); trace := trace w |}.

(** The world after the events [evs]. *)
Definition logged (evs : list event) (w : World) : World :=
  {| fs := fs w; ticks := ticks w; trace := trace w ++ evs |}.

(** A computation that does not touch the files or the clock. *)
Definition quiet {A : Type} (m : IO A) : Prop :=
  forall env w r w',
    m env w = (r, w') ->
    fs w' = fs w /\ ticks w' = ticks w /\ exists evs, trace w' = trace w ++ evs.

Section DispatchVocabulary.

Context {codec : PyInt}.

(** The branch of [try_upload] for a head record that is due and valid. *)
Definition publish (cfg : Config) (upload : InstaUpload)
  : IO (option dt.timedelta) :=
  cred <- get_env_uname_pwd ;;
  cli <- InstaClient_init cfg (fst cred) (snd cred) ;;
  try_except
    (upload_post cli upload ;;
     os_rename (py_str (id upload)) ;;
     ret None)
    (fun e => print (ErrorUploading e) ;; ret None).

End DispatchVocabulary.

(** The largest id of a list of records, if it has any. *)
Fixpoint max_id (l : list InstaUpload) : option Z :=
  match l with
  | [] => None
  | u :: t =>
      match max_id t with
      | None => Some (id u)
      | Some m => Some (Z.max (id u) m)
      end
  end.

(** The largest id plus one, or 0 when there is no record. *)
Definition next_free_id (l : list InstaUpload) : Z :=
  match max_id l with
  | None => 0
  | Some m => m + 1
  end.

(** The ids [0; 1; ...; n-1]. *)
Definition first_ids (n : nat) : list Z := map Z.of_nat (seq 0 n).

(** Both queue roots empty. *)
Definition empty_fs : FS := {| unprocessed := []; processed := [] |}.

(** The directory that [write_empty_upload] creates, scheduled at [at_]. *)
Definition empty_upload (at_ : dt.datetime) : UploadDir :=
  {| meta_json :=
       MetaJson {| caption := ""; loc_lat := Some float_zero;
                   loc_long := Some float_zero; upload_at := Some at_ |};
     ims := Some [] |}.

Section NewVocabulary.

Context {codec : PyInt}.

(** [int] reads back what [str] prints. *)
Definition int_str_roundtrip : Prop :=
  forall z : Z, py_int (py_str z) = Some z.

(** [n] runs of the [--new] action in a row, the [k]-th in the environment
    [envs k]. *)
Fixpoint run_new_n (n : nat) (envs : nat -> Env) (k : nat) (cfg : Config)
    (w : World) : result unit * World :=
  match n with
  | O => (Ok tt, w)
  | S n' =>
      match run_new cfg (envs k) w with
      | (Ok _, w') => run_new_n n' envs (S k) cfg w'
      | (Raise e, w') => (Raise e, w')
      end
  end.

End NewVocabulary.

(** Day 739000 at 16:30:00, one hour less a quarter second after
    [sample_now]. *)
Definition sample_later : dt.datetime :=
  {| dt.date := 739000;
     dt.timetz := {| dt.hour := 16; dt.minute := 30; dt.second := 0;
                     dt.microsecond := 0 |} |}.

(** Day 739000 at 09:00:00, before [sample_now]. *)
Definition sample_earlier : dt.datetime :=
  {| dt.date := 739000;
     dt.timetz := {| dt.hour := 9; dt.minute := 0; dt.second := 0;
                     dt.microsecond := 0 |} |}.

Definition sample_cfg : Config :=
  {| default_upload_delta := one_day;
     default_upload_time := ten_o_clock;
     check_interval := dt.seconds 600;
     unprocessed_dir_fp := "unprocessed";
     processed_dir_fp := "processed" |}.

(** An environment in which the clock stands at [sample_now] and every
    call succeeds. *)
Definition sample_env : Env :=
  {| now_at := fun _ => sample_now;
     env_uname_pwd := Ok (Some "user", "secret");
     login := fun _ _ => Ok tt;
     location_search := fun _ _ => Ok [7];
     location_complete := fun loc => Ok loc;
     photo_upload := fun _ _ _ => Ok tt;
     album_upload := fun _ _ _ => Ok tt;
     rename_fault := None |}.

(** The same environment, but the login is refused. *)
Definition login_refused_env : Env :=
  {| now_at := fun _ => sample_now;
     env_uname_pwd := Ok (Some "user", "secret");
     login := fun _ _ => Raise (ExternalError 401);
     location_search := fun _ _ => Ok [7];
     location_complete := fun loc => Ok loc;
     photo_upload := fun _ _ _ => Ok tt;
     album_upload := fun _ _ _ => Ok tt;
     rename_fault := None |}.

(** The same environment, but the photo upload fails. *)
Definition upload_fails_env : Env :=
  {| now_at := fun _ => sample_now;
     env_uname_pwd := Ok (Some "user", "secret");
     login := fun _ _ => Ok tt;
     location_search := fun _ _ => Ok [7];
     location_complete := fun loc => Ok loc;
     photo_upload := fun _ _ _ => Raise (ExternalError 500);
     album_upload := fun _ _ _ => Ok tt;
     rename_fault := None |}.

(** An upload directory with one image, no location, scheduled at [at_]. *)
Definition ready_upload (at_ : option dt.timestamp) : UploadDir :=
  {| meta_json :=
       MetaJson {| caption := "hello"; loc_lat := None; loc_long := None;
                   upload_at := at_ |};
     ims := Some ["a.jpg"] |}.

Definition world_of (pending published : Dir) : World :=
  {| fs := {| unprocessed := pending; processed := published |};
     ticks := 0; trace := [] |}.

(** Pending: upload 0, scheduled after the clock. *)
Definition not_due_world : World :=
  world_of [("0", ready_upload (Some sample_later))] [].

(** Pending: upload 0, scheduled before the clock. *)
Definition due_world : World :=
  world_of [("0", ready_upload (Some sample_earlier))] [].

(** Pending: upload 0, with a null schedule. *)
Definition null_schedule_world : World :=
  world_of [("0", ready_upload None)] [].

(** Pending: upload 0 and a directory named "drafts". *)
Definition stray_dir_world : World :=
  world_of [("0", ready_upload (Some sample_earlier));
            ("drafts", ready_upload (Some sample_earlier))] [].

(** Pending: uploads 1 and 0, enumerated in that order. *)
Definition two_pending : Dir :=
  [("1", ready_upload (Some sample_later));
   ("0", ready_upload (Some sample_earlier))].

(** Pending: upload 2; published: upload 5. *)
Definition out_of_order_world : World :=
  world_of [("2", ready_upload (Some sample_later))]
           [("5", ready_upload (Some sample_earlier))].

(** Pending: upload 2; published: uploads 0 and 1. *)
Definition in_order_world : World :=
  world_of [("2", ready_upload (Some sample_later))]
           [("0", ready_upload (Some sample_earlier));
            ("1", ready_upload (Some sample_earlier))].

(** Pending: upload 0, scheduled on the last day of [datetime]. *)
Definition last_day_world : World :=
  world_of [("0", ready_upload (Some last_day_noon))] [].

(** Pending: upload 0, scheduled at 09:00:00 UTC of day 739000. *)
Definition aware_world : World :=
  world_of [("0", ready_upload (Some (dt.Aware sample_earlier 0)))] [].

(** Day 739001 at 16:30:00, one day after [sample_later]. *)
Definition sample_next_day : dt.datetime :=
  {| dt.date := 739001;
     dt.timetz := {| dt.hour := 16; dt.minute := 30; dt.second := 0;
                     dt.microsecond := 0 |} |}.

(** The configuration [sample_cfg] with a check interval of -1 s. *)
Definition negative_interval_cfg : Config :=
  {| default_upload_delta := one_day;
     default_upload_time := ten_o_clock;
     check_interval := dt.seconds (-1);
     unprocessed_dir_fp := "unprocessed";
     processed_dir_fp := "processed" |}.

(** The configuration [sample_cfg] with a check interval of 200000 days. *)
Definition long_interval_cfg : Config :=
  {| default_upload_delta := one_day;
     default_upload_time := ten_o_clock;
     check_interval := days 200000;
     unprocessed_dir_fp := "unprocessed";
     processed_dir_fp := "processed" |}.

(** An environment whose clock stands at [sample_now] at the first reading
    and at [sample_next_day] from the second on. *)
Definition jumping_clock_env : Env :=
  {| now_at := fun k => match k with O => sample_now | S _ => sample_next_day end;
     env_uname_pwd := Ok (Some "user", "secret");
     login := fun _ _ => Ok tt;
     location_search := fun _ _ => Ok [7];
     location_complete := fun loc => Ok loc;
     photo_upload := fun _ _ _ => Ok tt;
     album_upload := fun _ _ _ => Ok tt;
     rename_fault := None |}.

(** The record that loads from [ready_upload at_] under the id [i]. *)
Definition loaded (i : Z) (at_ : option dt.timestamp) : InstaUpload :=
  {| id := i;
     meta := {| caption := "hello"; loc_lat := None; loc_long := None;
                upload_at := at_ |};
     images := ["a.jpg"] |}.

(** The record that loads from [empty_upload at_] under the id [i]. *)
Definition empty_record (i : Z) (at_ : dt.datetime) : InstaUpload :=
  {| id := i;
     meta := {| caption := ""; loc_lat := Some float_zero;
                loc_long := Some float_zero; upload_at := Some at_ |};
     images := [] |}.

(** The records of ids [k], [k+1], ... scheduled at the times [ats]. *)
Fixpoint records_from (k : nat) (ats : list dt.datetime) : list InstaUpload :=
  match ats with
  | [] => []
  | a :: rest => empty_record (Z.of_nat k) a :: records_from (S k) rest
  end.

(** The last of the times [ats], if there is any. *)
Definition latest (ats : list dt.datetime) : option dt.datetime :=
  match ats with
  | [] => None
  | a :: rest => Some (last rest a)
  end.

(** Consecutive times are at least [delay] apart. *)
Fixpoint spaced (delay : dt.timedelta) (ats : list dt.datetime) : Prop :=
  match ats with
  | [] => True
  | a :: rest =>
      match rest with
      | [] => True
      | b :: _ => dt.to_us a + delay <= dt.to_us b
      end
      /\ spaced delay rest
  end.

Section ScheduleVocabulary.

Context {codec : PyInt}.

(** The pending root that holds the empty uploads of ids [k], [k+1], ...
    scheduled at the times [ats]. *)
Fixpoint queue_from (k : nat) (ats : list dt.datetime) : Dir :=
  match ats with
  | [] => []
  | a :: rest => (py_str (Z.of_nat k), empty_upload a) :: queue_from (S k) rest
  end.

End ScheduleVocabulary.

(** A computation that only appends events satisfying [P] to the trace. *)
Definition emits {A : Type} (P : event -> Prop) (m : IO A) : Prop :=
  forall env w r w',
    m env w = (r, w') -> exists evs, trace w' = trace w ++ evs /\ Forall P evs.

(** A call that publishes: [photo_upload] or [album_upload]. *)
Definition is_upload (ev : event) : bool :=
  match ev with
  | PhotoUpload _ _ _ | AlbumUpload _ _ _ => true
  | _ => false
  end.

(** A call to the instagrapi client. *)
Definition is_client_call (ev : event) : bool :=
  match ev with
  | Login _ _ | LocationSearch _ _ | LocationComplete _
  | PhotoUpload _ _ _ | AlbumUpload _ _ _ => true
  | _ => false
  end.

(** The durations of the sleeps among the events [evs]. *)
Fixpoint sleeps (evs : list event) : list dt.timedelta :=
  match evs with
  | [] => []
  | Sleep d :: rest => d :: sleeps rest
  | _ :: rest => sleeps rest
  end.

(** The publishing calls among the events [evs]. *)
Definition uploads (evs : list event) : list event := filter is_upload evs.

Section UploadVocabulary.

Context {codec : PyInt}.

(** The image paths that [upload_post] builds. *)
Definition paths_of (cfg : Config) (upload : InstaUpload) : list Path :=
  map (fun im => [unprocessed_dir_fp cfg; py_str (id upload); IM_DIR; im])
      (images upload).

(** The publishing call that [upload_post] makes with the location [loc]. *)
Definition upload_call (cfg : Config) (upload : InstaUpload)
    (loc : option Location) : event :=
  match paths_of cfg upload with
  | [path] => PhotoUpload path (caption (meta upload)) loc
  | paths => AlbumUpload paths (caption (meta upload)) loc
  end.

(** What the client answers to that call. *)
Definition upload_answer (cfg : Config) (upload : InstaUpload)
    (loc : option Location) (env : Env) : result unit :=
  match paths_of cfg upload with
  | [path] => photo_upload env path (caption (meta upload)) loc
  | paths => album_upload env paths (caption (meta upload)) loc
  end.

End UploadVocabulary.

(** An event other than a sleep. *)
Definition not_sleep (ev : event) : Prop :=
  match ev with
  | Sleep _ => False
  | _ => True
  end.

(** The events of [n] turns of the loop on an invalid head record. *)
Fixpoint rejected_turns (n : nat) (interval : dt.timedelta) : list event :=
  match n with
  | O => []
  | S n' =>
      [Print InvalidPost; Print (SleepingFor interval); Sleep interval]
      ++ rejected_turns n' interval
  end.

(** ** The command line *)

(** The three flags of the parser. *)
Record Args := mk_Args
  { arg_new : bool; arg_upload : bool; arg_cron : bool }.

(** How a run of the script ends: a failed [assert], or the action run. *)
Inductive Exit : Type :=
  | AssertionError (msg : string)
  | Finished (r : result unit).

(** [sum(flags)]. *)
Fixpoint bool_sum (flags : list bool) : Z :=
  match flags with
  | [] => 0
  | b :: rest => (if b then 1 else 0) + bool_sum rest
  end.

Section MainVocabulary.

Context {codec : PyInt}.

(** The body of [if __name__ == "__main__"] after [startup] and the
    parsing of the arguments; the loop of [--cron] is cut after [turns]
    turns. *)
Definition main (turns : nat) (envs : nat -> Env) (args : Args)
    (cfg : Config) (w : World) : Exit * World :=
  if negb (arg_new args || arg_upload args || arg_cron args) then
    (AssertionError "No action specified", w)
  else if negb (bool_sum [arg_new args; arg_upload args; arg_cron args] =? 1)
  then (AssertionError "Only one action can be specified", w)
  else if arg_new args then
    let (r, w') := run_new cfg (envs 0%nat) w in (Finished r, w')
  else if arg_upload args then
    let (r, w') := run_upload cfg (envs 0%nat) w in (Finished r, w')
  else if arg_cron args then
    let (r, w') := run_cron turns envs 0 cfg w in (Finished r, w')
  else (Finished (Ok tt), w).

(** The exception with which the entry [fp] of a root fails to load. *)
Definition entry_error (dir : Dir) (fp : string) : exn :=
  match py_int fp with
  | None => ValueError
  | Some i =>
      match load_from_dir i dir with
      | Raise e => e
      | Ok _ => ValueError
      end
  end.

End MainVocabulary.

(** The sample environment, but the location search finds nothing. *)
Definition no_location_env : Env :=
  {| now_at := fun _ => sample_now;
     env_uname_pwd := Ok (Some "user", "secret");
     login := fun _ _ => Ok tt;
     location_search := fun _ _ => Ok [];
     location_complete := fun loc => Ok loc;
     photo_upload := fun _ _ _ => Ok tt;
     album_upload := fun _ _ _ => Ok tt;
     rename_fault := None |}.

(** An upload directory with one image and the given coordinates, scheduled
    before the clock. *)
Definition located_upload (lat lng : option float) : UploadDir :=
  {| meta_json :=
       MetaJson {| caption := "hello"; loc_lat := lat; loc_long := lng;
                   upload_at := Some sample_earlier |};
     ims := Some ["a.jpg"] |}.

(** The record that loads from [located_upload lat lng] under the id [i]. *)
Definition located (i : Z) (lat lng : option float) : InstaUpload :=
  {| id := i;
     meta := {| caption := "hello"; loc_lat := lat; loc_long := lng;
                upload_at := Some sample_earlier |};
     images := ["a.jpg"] |}.

(** Pending: upload 0, due, with a longitude and no latitude. *)
Definition half_set_world : World :=
  world_of [("0", located_upload None (Some float_one))] [].

(** Pending: upload 0 as [--new] creates it, due, and upload 1, due and
    valid. *)
Definition invalid_head_world : World :=
  world_of [("0", empty_upload sample_earlier);
            ("1", ready_upload (Some sample_earlier))] [].

(** Pending: upload 0, due and valid; published: another upload 0. *)
Definition collision_world : World :=
  world_of [("0", ready_upload (Some sample_earlier))]
           [("0", ready_upload (Some sample_earlier))].

(** * Properties *)

(** ** Datetime arithmetic *)

Lemma time_to_of_us (r : Z) :
  0 <= r < dt.us_per_day -> dt.time_to_us (dt.time_of_us r) = r.
Proof.
  intros Hr. unfold dt.time_to_us, dt.time_of_us; simpl.
  unfold dt.us_per_day, dt.us_per_hour, dt.us_per_minute, dt.us_per_second in *.
  pose proof (Z.div_mod r 1000000 ltac:(lia)) as H1.
  pose proof (Z.mod_pos_bound r 1000000 ltac:(lia)) as B1.
  pose proof (Z.div_mod (r / 1000000) 60 ltac:(lia)) as H2.
  pose proof (Z.mod_pos_bound (r / 1000000) 60 ltac:(lia)) as B2.
  pose proof (Z.div_mod (r / 1000000 / 60) 60 ltac:(lia)) as H3.
  pose proof (Z.mod_pos_bound (r / 1000000 / 60) 60 ltac:(lia)) as B3.
  replace (60 * (60 * 1000000)) with (1000000 * 60 * 60) by lia.
  replace (60 * 1000000) with (1000000 * 60) by lia.
  rewrite <- !Z.div_div by lia.
  lia.
Qed.

Lemma time_of_us_wf (r : Z) :
  0 <= r < dt.us_per_day -> dt.time_wf (dt.time_of_us r).
Proof.
  intros Hr. unfold dt.time_wf, dt.time_of_us; simpl.
  unfold dt.us_per_day, dt.us_per_hour, dt.us_per_minute, dt.us_per_second in *.
  repeat split;
    try (apply Z.mod_pos_bound; lia);
    try (apply Z.div_pos; lia).
  apply Z.div_lt_upper_bound; lia.
Qed.

Lemma to_us_of_us (x : Z) : dt.to_us (dt.of_us x) = x.
Proof.
  unfold dt.to_us, dt.of_us; simpl.
  assert (Hd : 0 < dt.us_per_day) by (vm_compute; reflexivity).
  rewrite time_to_of_us by (apply Z.mod_pos_bound; exact Hd).
  pose proof (Z.div_mod x dt.us_per_day ltac:(lia)). lia.
Qed.

Lemma of_us_wf (x : Z) : dt.wf (dt.of_us x).
Proof.
  unfold dt.wf, dt.of_us; simpl. apply time_of_us_wf.
  apply Z.mod_pos_bound. vm_compute; reflexivity.
Qed.

Lemma time_to_us_bound (t : dt.time) :
  dt.time_wf t -> 0 <= dt.time_to_us t < dt.us_per_day.
Proof.
  unfold dt.time_wf, dt.time_to_us.
  unfold dt.us_per_day, dt.us_per_hour, dt.us_per_minute, dt.us_per_second.
  lia.
Qed.

Lemma time_of_to_us (t : dt.time) :
  dt.time_wf t -> dt.time_of_us (dt.time_to_us t) = t.
Proof.
  intros Hwf. destruct t as [h m s u].
  unfold dt.time_wf, dt.time_to_us, dt.time_of_us in *; simpl in *.
  unfold dt.us_per_hour, dt.us_per_minute, dt.us_per_second in *.
  assert (Eh : (h * (60 * (60 * 1000000)) + m * (60 * 1000000) + s * 1000000 + u)
               / (60 * (60 * 1000000)) = h).
  { symmetry. apply Z.div_unique with (r := m * (60 * 1000000) + s * 1000000 + u); lia. }
  assert (Em : (h * (60 * (60 * 1000000)) + m * (60 * 1000000) + s * 1000000 + u)
               / (60 * 1000000) = h * 60 + m).
  { symmetry. apply Z.div_unique with (r := s * 1000000 + u); lia. }
  assert (Es : (h * (60 * (60 * 1000000)) + m * (60 * 1000000) + s * 1000000 + u)
               / 1000000 = (h * 60 + m) * 60 + s).
  { symmetry. apply Z.div_unique with (r := u); lia. }
  assert (Eu : (h * (60 * (60 * 1000000)) + m * (60 * 1000000) + s * 1000000 + u)
               mod 1000000 = u).
  { symmetry. apply Z.mod_unique with (q := (h * 60 + m) * 60 + s); lia. }
  rewrite Eh, Em, Es, Eu. f_equal.
  - symmetry. apply Z.mod_unique with (q := h); lia.
  - symmetry. apply Z.mod_unique with (q := h * 60 + m); lia.
Qed.

Lemma of_us_to_us (d : dt.datetime) : dt.wf d -> dt.of_us (dt.to_us d) = d.
Proof.
  intros Hwf. destruct d as [day t]. unfold dt.wf in Hwf; simpl in Hwf.
  pose proof (time_to_us_bound t Hwf) as Hb.
  unfold dt.of_us, dt.to_us; simpl.
  assert (Hd : 0 < dt.us_per_day) by (vm_compute; reflexivity).
  assert (Eq1 : (day * dt.us_per_day + dt.time_to_us t) / dt.us_per_day = day).
  { symmetry. apply Z.div_unique with (r := dt.time_to_us t); lia. }
  assert (Eq2 : (day * dt.us_per_day + dt.time_to_us t) mod dt.us_per_day
                = dt.time_to_us t).
  { symmetry. apply Z.mod_unique with (q := day); lia. }
  rewrite Eq1, Eq2, time_of_to_us by exact Hwf. reflexivity.
Qed.

Lemma to_us_shift (d : dt.datetime) (delta : dt.timedelta) :
  dt.to_us (dt.shift d delta) = dt.to_us d + delta.
Proof. unfold dt.shift. apply to_us_of_us. Qed.

Lemma in_range_of_us (x : Z) : dt.in_range (dt.of_us x) = representable x.
Proof.
  unfold dt.in_range, dt.of_us, representable; simpl.
  change dt.us_per_day with 86400000000.
  change dt.min_ordinal with 1. change dt.max_ordinal with 3652059.
  pose proof (Z.div_mod x 86400000000 ltac:(lia)) as E.
  pose proof (Z.mod_pos_bound x 86400000000 ltac:(lia)) as B.
  f_equal.
  - destruct (Z.leb_spec 1 (x / 86400000000));
      destruct (Z.leb_spec (1 * 86400000000) x); try reflexivity; lia.
  - destruct (Z.leb_spec (x / 86400000000) 3652059);
      destruct (Z.ltb_spec x ((3652059 + 1) * 86400000000));
      try reflexivity; lia.
Qed.

(** [d + delta] returns exactly when the instant is representable. *)
Lemma add_cases (d : dt.datetime) (delta : dt.timedelta) :
  dt.add d delta
  = if representable (dt.to_us d + delta) then Some (dt.shift d delta)
    else None.
Proof.
  unfold dt.add. cbv zeta. unfold dt.shift at 1.
  rewrite in_range_of_us. reflexivity.
Qed.

Lemma add_some (d r : dt.datetime) (delta : dt.timedelta) :
  dt.add d delta = Some r ->
  r = dt.shift d delta /\ dt.in_range r = true /\ dt.wf r
  /\ dt.to_us r = dt.to_us d + delta.
Proof.
  unfold dt.add. cbv zeta.
  destruct (dt.in_range (dt.shift d delta)) eqn:R; [|discriminate].
  intros [= <-].
  split; [reflexivity|]. split; [exact R|].
  split; [apply of_us_wf | apply to_us_shift].
Qed.

(** ** The scheduler *)

Lemma to_us_replace (now : dt.datetime) (h m s us : Z) :
  dt.to_us (dt.replace now h m s us)
  = dt.date now * dt.us_per_day
    + (h * dt.us_per_hour + m * dt.us_per_minute + s * dt.us_per_second + us).
Proof. reflexivity. Qed.

Lemma replace_whole_seconds (now : dt.datetime) (t : dt.time) :
  dt.replace now (dt.hour t) (dt.minute t) (dt.second t) 0
  = dt.combine (dt.date now) (whole_seconds t).
Proof. reflexivity. Qed.

(** [next_upload_time], case by case, in instants. *)
Lemma next_upload_time_cases (now : dt.datetime) (last : option dt.timestamp)
    (t : dt.time) (delay : dt.timedelta) :
  next_upload_time now last t delay
  = let slot := dt.combine (dt.date now) (whole_seconds t) in
    let candidate := dt.to_us slot + delay in
    if representable candidate then
      match last with
      | None => Ok (dt.shift slot delay)
      | Some (dt.Naive l) =>
          if representable (dt.to_us l + delay) then
            Ok (if dt.to_us l + delay >? candidate
                then dt.shift l delay else dt.shift slot delay)
          else Raise OverflowError
      | Some (dt.Aware l _) =>
          if representable (dt.to_us l + delay) then Raise TypeError
          else Raise OverflowError
      end
    else Raise OverflowError.
Proof.
  unfold next_upload_time. rewrite replace_whole_seconds. cbv zeta.
  rewrite add_cases.
  destruct (representable _); [|reflexivity].
  destruct last as [[l|l off]|]; try reflexivity; simpl dt.timestamp_add;
    rewrite add_cases; destruct (representable (dt.to_us l + delay));
    try reflexivity.
  simpl option_map. cbv iota beta. unfold dt.gt. rewrite !to_us_shift.
  destruct (_ >? _); reflexivity.
Qed.

(** C1 (as amended).  The slot of [next_upload_time] is today's date at the
    target time of day cut to whole seconds (its microseconds are set to 0),
    plus the delay.  When that instant falls in the years 1..9999 and the
    last upload time is absent, the result is the slot, whatever the time of
    the clock, also when the slot is already past.  When the last upload
    time is naive and last + delay also falls in those years, the result is
    the slot unless last + delay is strictly later, in which case it is
    last + delay: as instants, the later of the two.  When the slot or
    last + delay leaves the years 1..9999 the function raises
    [OverflowError], and when the last upload time carries a time zone it
    raises [TypeError] (after the two sums).  A result is always a
    well-formed datetime of those years. *)
Theorem next_upload_time_spec :
  forall (now : dt.datetime) (last : option dt.timestamp) (t : dt.time)
         (delay : dt.timedelta),
    let slot := dt.combine (dt.date now) (whole_seconds t) in
    let candidate := dt.to_us slot + delay in
    next_upload_time now last t delay
    = (if representable candidate then
         match last with
         | None => Ok (dt.shift slot delay)
         | Some (dt.Naive l) =>
             if representable (dt.to_us l + delay) then
               Ok (if dt.to_us l + delay >? candidate
                   then dt.shift l delay else dt.shift slot delay)
             else Raise OverflowError
         | Some (dt.Aware l _) =>
             if representable (dt.to_us l + delay) then Raise TypeError
             else Raise OverflowError
         end
       else Raise OverflowError)
    /\ match next_upload_time now last t delay with
       | Ok r =>
           dt.wf r /\ dt.in_range r = true
           /\ dt.to_us r
              = match last with
                | Some (dt.Naive l) => Z.max candidate (dt.to_us l + delay)
                | _ => candidate
                end
       | Raise e => e = OverflowError \/ e = TypeError
       end
    /\ exists r,
         next_upload_time sample_now None ten_o_clock one_hour = Ok r
         /\ dt.to_us r < dt.to_us sample_now.
Proof.
  intros now last t delay slot candidate.
  split; [apply next_upload_time_cases|]. split.
  - rewrite next_upload_time_cases. cbv zeta. fold slot. fold candidate.
    destruct (representable candidate) eqn:Rc; [|left; reflexivity].
    assert (Slot : dt.wf (dt.shift slot delay)
                   /\ dt.in_range (dt.shift slot delay) = true
                   /\ dt.to_us (dt.shift slot delay) = candidate).
    { split; [apply of_us_wf|]. split; [|apply to_us_shift].
      unfold dt.shift. rewrite in_range_of_us. exact Rc. }
    destruct last as [[l|l off]|]; [| |exact Slot].
    + destruct (representable (dt.to_us l + delay)) eqn:Rl;
        [|left; reflexivity].
      destruct (Z.gtb_spec (dt.to_us l + delay) candidate).
      * split; [apply of_us_wf|]. split.
        -- unfold dt.shift. rewrite in_range_of_us. exact Rl.
        -- rewrite to_us_shift. lia.
      * destruct Slot as (W & R & E).
        split; [exact W|]. split; [exact R|]. rewrite E. lia.
    + destruct (representable (dt.to_us l + delay));
        [right | left]; reflexivity.
  - eexists. split; [vm_compute; reflexivity | vm_compute; reflexivity].
Qed.

(** C1, as stated, fails in three ways.  With the target time of day
    10:00:00.500000 and no last upload, the result is not today's date
    combined with that time of day plus the delay (the half second is
    dropped).  With a last upload at noon of 9999-12-31 and a delay of one
    day nothing is returned: [OverflowError].  With a last upload time that
    carries a time zone nothing is returned: [TypeError]. *)
Lemma next_upload_time_drops_microseconds :
  (dt.time_wf ten_and_a_half /\ dt.wf sample_now
   /\ exists r r',
        next_upload_time sample_now None ten_and_a_half one_day = Ok r
        /\ dt.add (dt.combine (dt.date sample_now) ten_and_a_half) one_day
           = Some r'
        /\ r <> r')
  /\ next_upload_time sample_now (Some (dt.Naive last_day_noon)) ten_o_clock
       one_day = Raise OverflowError
  /\ next_upload_time sample_now (Some (dt.Aware sample_earlier 0)) ten_o_clock
       one_day = Raise TypeError.
Proof.
  split; [|split].
  - split; [|split].
    + vm_compute. intuition discriminate.
    + vm_compute. intuition discriminate.
    + eexists. eexists. split; [vm_compute; reflexivity|].
      split; [vm_compute; reflexivity | discriminate].
  - vm_compute. reflexivity.
  - vm_compute. reflexivity.
Qed.

(** ** Validation *)

Lemma ne_zero_float (f : float) : ne_zero (Some f) = float_nonzero f.
Proof. destruct f as [s|s| |s m e]; try destruct s; reflexivity. Qed.

Lemma ne_zero_true (x : option float) :
  ne_zero x = true <-> ~ coord_is_zero x.
Proof.
  unfold coord_is_zero. destruct x as [f|].
  - rewrite ne_zero_float. destruct f as [s|s| |s m e]; simpl; split;
      try discriminate; try reflexivity;
      try (intros _ [s' H]; discriminate H).
    intros H. exfalso. apply H. exists s. reflexivity.
  - simpl. split; [intros _ [s H]; discriminate H | reflexivity].
Qed.

Lemma len_pos {A : Type} (l : list A) : (len l >? 0) = true <-> l <> [].
Proof.
  unfold len. destruct l as [|a l]; simpl.
  - split; [discriminate | intros H; contradiction H; reflexivity].
  - split; [intros _; discriminate | intros _].
    apply Z.gtb_lt. lia.
Qed.

(** C2.  [validate_post] accepts a record exactly when it has at least one
    image and neither coordinate is a zero.  A record without images is
    rejected whatever its location; one image with both coordinates 0.0 is
    rejected; one image with (1.0, 0.0) is rejected; one image with both
    coordinates null is accepted. *)
Theorem validate_post_iff :
  (forall r : InstaUpload,
      validate_post r = true
      <-> (images r <> [] /\ ~ coord_is_zero (loc_lat (meta r))
           /\ ~ coord_is_zero (loc_long (meta r))))
  /\ (forall (i : Z) (m : InstaUploadMeta),
         validate_post {| id := i; meta := m; images := [] |} = false)
  /\ validate_post (post ["a.jpg"] (Some float_zero) (Some float_zero)) = false
  /\ validate_post (post ["a.jpg"] (Some float_one) (Some float_zero)) = false
  /\ validate_post (post ["a.jpg"] None None) = true.
Proof.
  split; [|split; [|repeat split]].
  - intros r. unfold validate_post.
    rewrite !andb_true_iff, len_pos, !ne_zero_true. tauto.
  - intros i m. reflexivity.
Qed.

(** C3 (as amended).  A record with at least one image and exactly one
    coordinate null is accepted exactly when the coordinate that is set is
    not a zero: the null side never makes it invalid. *)
Theorem validate_post_half_set :
  forall (i : Z) (c : string) (at_ : option dt.timestamp) (im : string)
         (ims : list string) (x : float),
    validate_post
      {| id := i;
         meta := {| caption := c; loc_lat := None; loc_long := Some x;
                    upload_at := at_ |};
         images := im :: ims |} = float_nonzero x
    /\ validate_post
         {| id := i;
            meta := {| caption := c; loc_lat := Some x; loc_long := None;
                       upload_at := at_ |};
            images := im :: ims |} = float_nonzero x.
Proof.
  intros i c at_ im ims x.
  assert (L : (len (im :: ims) >? 0) = true) by (apply len_pos; discriminate).
  unfold validate_post; simpl images; simpl meta; simpl loc_lat; simpl loc_long.
  rewrite L, ne_zero_float. simpl.
  split; [reflexivity | apply andb_true_r].
Qed.

(** C3, as stated, fails: one image, a null latitude and the longitude 1.0
    is accepted, and so is the mirror record. *)
Lemma half_set_location_accepted :
  validate_post (post ["a.jpg"] None (Some float_one)) = true
  /\ validate_post (post ["a.jpg"] (Some float_one) None) = true.
Proof. split; reflexivity. Qed.

(** ** Sorting by id *)

Lemma insert_by_id_perm (x : InstaUpload) (l : list InstaUpload) :
  Permutation (x :: l) (insert_by_id x l).
Proof.
  induction l as [|y l IH]; simpl.
  - apply Permutation_refl.
  - destruct (id x <=? id y).
    + apply Permutation_refl.
    + eapply perm_trans; [apply perm_swap|]. apply perm_skip, IH.
Qed.

Lemma sort_by_id_perm (l : list InstaUpload) : Permutation l (sort_by_id l).
Proof.
  induction l as [|x l IH]; simpl.
  - constructor.
  - eapply perm_trans; [apply perm_skip, IH | apply insert_by_id_perm].
Qed.

Lemma insert_by_id_sorted (x : InstaUpload) (l : list InstaUpload) :
  StronglySorted le_id l -> StronglySorted le_id (insert_by_id x l).
Proof.
  induction l as [|y l IH]; intros Hs; simpl.
  - repeat constructor.
  - inversion Hs as [|y' l' Hl Hy]; subst.
    destruct (Z.leb_spec (id x) (id y)) as [Hxy|Hxy].
    + constructor; [exact Hs|]. constructor; [exact Hxy|].
      eapply Forall_impl; [|exact Hy]. unfold le_id. intros a Ha. lia.
    + constructor; [apply IH; exact Hl|].
      apply (Permutation_Forall (insert_by_id_perm x l)).
      constructor; [unfold le_id; lia | exact Hy].
Qed.

Lemma sort_by_id_sorted (l : list InstaUpload) :
  StronglySorted le_id (sort_by_id l).
Proof.
  induction l as [|x l IH]; simpl.
  - constructor.
  - apply insert_by_id_sorted, IH.
Qed.

(** Two sorted arrangements of the same records coincide when records of
    the same id are the same record. *)
Lemma sorted_perm_unique (l1 : list InstaUpload) :
  forall l2,
    StronglySorted le_id l1 -> StronglySorted le_id l2 ->
    Permutation l1 l2 ->
    (forall a b, In a l1 -> In b l1 -> id a = id b -> a = b) ->
    l1 = l2.
Proof.
  induction l1 as [|a t1 IH]; intros l2 S1 S2 P U.
  - apply Permutation_nil in P. subst. reflexivity.
  - destruct l2 as [|b t2].
    + apply Permutation_sym, Permutation_nil in P. discriminate.
    + inversion S1 as [|? ? St1 Ha]; subst.
      inversion S2 as [|? ? St2 Hb]; subst.
      assert (Ina : In a (b :: t2))
        by (apply (Permutation_in _ P); left; reflexivity).
      assert (Inb : In b (a :: t1))
        by (apply (Permutation_in _ (Permutation_sym P)); left; reflexivity).
      assert (Eab : a = b).
      { rewrite Forall_forall in Ha, Hb.
        destruct Ina as [Ea|Ina]; [symmetry; exact Ea|].
        destruct Inb as [Eb|Inb]; [exact Eb|].
        apply U; [left; reflexivity | right; exact Inb|].
        specialize (Ha _ Inb). specialize (Hb _ Ina). unfold le_id in *. lia. }
      subst b. f_equal.
      apply IH; [exact St1 | exact St2 | eapply Permutation_cons_inv; exact P|].
      intros x y Hx Hy. apply U; right; assumption.
Qed.

(** ** Loading a queue *)

Section Loading.

Context {codec : PyInt}.

Lemma load_from_dir_id (i : Z) (d : Dir) (u : InstaUpload) :
  load_from_dir i d = Ok u -> id u = i.
Proof.
  unfold load_from_dir.
  destruct (from_fp (py_str i) d); [|discriminate].
  destruct (listdir_ims (py_str i) d); [|discriminate].
  intros [= <-]. reflexivity.
Qed.

Lemma load_each_cons (d : Dir) (fp : string) (fps : list string)
    (us : list InstaUpload) :
  load_each d (fp :: fps) = Ok us ->
  exists i u us',
    py_int fp = Some i /\ load_from_dir i d = Ok u
    /\ load_each d fps = Ok us' /\ us = u :: us'.
Proof.
  simpl. destruct (py_int fp) as [i|] eqn:Ei; [|discriminate].
  destruct (load_from_dir i d) as [u|] eqn:Eu; [|discriminate].
  destruct (load_each d fps) as [us'|]; [|discriminate].
  intros [= <-]. exists i, u, us'. repeat split; assumption || reflexivity.
Qed.

Lemma load_each_length (d : Dir) (fps : list string) :
  forall us, load_each d fps = Ok us -> List.length us = List.length fps.
Proof.
  induction fps as [|fp fps IH]; intros us H.
  - simpl in H. injection H as <-. reflexivity.
  - apply load_each_cons in H as (i & u & us' & _ & _ & H & ->).
    simpl. f_equal. apply IH, H.
Qed.

(** Every record of a loaded queue is the record its own id loads. *)
Lemma load_each_self (d : Dir) (fps : list string) :
  forall us, load_each d fps = Ok us ->
             Forall (fun u => load_from_dir (id u) d = Ok u) us.
Proof.
  induction fps as [|fp fps IH]; intros us H.
  - simpl in H. injection H as <-. constructor.
  - apply load_each_cons in H as (i & u & us' & _ & Hu & H & ->).
    constructor; [|apply IH, H].
    rewrite (load_from_dir_id _ _ _ Hu). exact Hu.
Qed.


Lemma load_each_fails (d : Dir) (fps : list string) (fp : string) :
  In fp fps -> entry_loads d fp = false -> exists e, load_each d fps = Raise e.
Proof.
  induction fps as [|fp' fps IH]; intros Hin Hbad; [contradiction Hin|].
  simpl. destruct (py_int fp') as [i|] eqn:Ei; [|exists ValueError; reflexivity].
  destruct (load_from_dir i d) as [u|e] eqn:Eu; [|exists e; reflexivity].
  destruct Hin as [->|Hin].
  - unfold entry_loads in Hbad. rewrite Ei, Eu in Hbad. discriminate.
  - destruct (IH Hin Hbad) as [e He]. rewrite He. exists e. reflexivity.
Qed.

Lemma bad_entry_does_not_load (d : Dir) (fp : string) :
  bad_entry d fp -> entry_loads d fp = false.
Proof.
  unfold bad_entry, entry_loads, load_from_dir.
  intros [->|(i & -> & [->| ->])]; reflexivity.
Qed.




Lemma load_each_perm (d : Dir) (fps fps' : list string) :
  Permutation fps fps' ->
  forall us, load_each d fps = Ok us ->
             exists us', load_each d fps' = Ok us' /\ Permutation us us'.
Proof.
  intros P. induction P as [|fp l l' P IH|fp1 fp2 l|l l' l'' P1 IH1 P2 IH2];
    intros us H.
  - exists us. split; [exact H | apply Permutation_refl].
  - apply load_each_cons in H as (i & u & us1 & Ei & Eu & H & ->).
    destruct (IH _ H) as (us2 & H2 & P2).
    exists (u :: us2). simpl. rewrite Ei, Eu, H2.
    split; [reflexivity | apply perm_skip, P2].
  - apply load_each_cons in H as (i2 & u2 & us1 & Ei2 & Eu2 & H & ->).
    apply load_each_cons in H as (i1 & u1 & us0 & Ei1 & Eu1 & H & ->).
    exists (u1 :: u2 :: us0). simpl. rewrite Ei1, Eu1, Ei2, Eu2, H.
    split; [reflexivity | apply perm_swap].
  - destruct (IH1 _ H) as (us1 & H1 & Q1).
    destruct (IH2 _ H1) as (us2 & H2 & Q2).
    exists us2. split; [exact H2 | eapply perm_trans; eassumption].
Qed.

Lemma load_all_inv (d : Dir) (rs : list InstaUpload) :
  load_all_from_parent_dir d = Ok rs ->
  exists us, load_each d (names d) = Ok us /\ rs = sort_by_id us.
Proof.
  unfold load_all_from_parent_dir.
  destruct (load_each d (names d)) as [us|]; [|discriminate].
  intros [= <-]. exists us. split; reflexivity.
Qed.


End Loading.

(** ** One dispatch cycle *)

Section Dispatch.

Context {codec : PyInt}.

Lemma logged_logged (a b : list event) (w : World) :
  logged b (logged a w) = logged (a ++ b) w.
Proof. unfold logged; simpl. rewrite app_assoc. reflexivity. Qed.

(** [try_upload], case by case. *)
Lemma try_upload_cases (cfg : Config) (env : Env) (w : World) :
  try_upload cfg env w
  = match load_all_from_parent_dir (unprocessed (fs w)) with
    | Raise e => (Raise e, w)
    | Ok [] => (Ok None, logged [Print NoUploads] w)
    | Ok (upload :: _) =>
        match upload_at (meta upload) with
        | None => (Raise TypeError, tick w)
        | Some (dt.Aware _ _) => (Raise TypeError, tick w)
        | Some (dt.Naive s) =>
            if dt.gt s (now_at env (ticks w)) then
              (Ok (Some (dt.sub s (now_at env (S (ticks w))) + dt.seconds 1)),
               tick (logged [Print NotReady] (tick w)))
            else if negb (validate_post upload) then
              (Ok None, logged [Print InvalidPost] (tick w))
            else publish cfg upload env (tick w)
        end
    end.
Proof.
  unfold try_upload, bind, read_root, lift; simpl.
  destruct (load_all_from_parent_dir (unprocessed (fs w))) as [[|upload rest]|e];
    try reflexivity.
  unfold datetime_now, opt_gt; simpl.
  destruct (upload_at (meta upload)) as [[s|local off]|]; try reflexivity.
  destruct (dt.gt s (now_at env (ticks w))); [reflexivity|].
  destruct (negb (validate_post upload)); reflexivity.
Qed.

Lemma cron_sleep_for_cases (cfg : Config) (env : Env) (w : World) :
  cron_sleep_for cfg env w
  = match try_upload cfg env w with
    | (Ok None, w') => (Ok (check_interval cfg), w')
    | (Ok (Some d), w') => (Ok (Z.min d (check_interval cfg)), w')
    | (Raise e, w') => (Raise e, w')
    end.
Proof.
  unfold cron_sleep_for, bind.
  destruct (try_upload cfg env w) as [[[d|]|e] w']; reflexivity.
Qed.

Lemma cron_turn_cases (cfg : Config) (env : Env) (w : World) :
  cron_turn cfg env w
  = match cron_sleep_for cfg env w with
    | (Ok d, w') =>
        if d <? 0 then (Raise ValueError, logged [Print (SleepingFor d)] w')
        else if dt.sleep_max <? d then
          (Raise OverflowError, logged [Print (SleepingFor d)] w')
        else (Ok tt, logged [Print (SleepingFor d); Sleep d] w')
    | (Raise e, w') => (Raise e, w')
    end.
Proof.
  unfold cron_turn, bind.
  destruct (cron_sleep_for cfg env w) as [[d|e] w']; [|reflexivity].
  unfold print, emit, time_sleep; simpl.
  destruct (d <? 0); [reflexivity|].
  destruct (dt.sleep_max <? d); [reflexivity|].
  unfold emit, logged; simpl. rewrite <- app_assoc. reflexivity.
Qed.

Lemma load_all_head_lowest (d : Dir) (h : InstaUpload) (t : list InstaUpload) :
  load_all_from_parent_dir d = Ok (h :: t) -> Forall (fun r => id h <= id r) t.
Proof.
  intros H. apply load_all_inv in H as (us & _ & E).
  pose proof (sort_by_id_sorted us) as S. rewrite <- E in S.
  inversion S; subst. assumption.
Qed.

(** C5 (as amended).  When the head record of the pending queue (a record
    of lowest id) is scheduled strictly after the reading of the clock, the
    cycle makes no call to the client and leaves the file system as it was;
    it prints "Upload not ready" and returns scheduledAt minus a second
    reading of the clock plus one second.  The loop then takes the smaller
    of that wait and the check interval: it sleeps for it when it is between
    0 and the longest sleep [time.sleep] accepts, and otherwise ends with
    [ValueError] (negative) or [OverflowError] (too long) without
    sleeping. *)
Theorem not_due_waits :
  forall (cfg : Config) (env : Env) (w : World) (h : InstaUpload)
         (t : list InstaUpload) (s : dt.datetime),
    load_all_from_parent_dir (unprocessed (fs w)) = Ok (h :: t) ->
    upload_at (meta h) = Some s ->
    dt.gt s (now_at env (ticks w)) = true ->
    let wait := dt.sub s (now_at env (S (ticks w))) + dt.seconds 1 in
    let w' := tick (logged [Print NotReady] (tick w)) in
    Forall (fun r => id h <= id r) t
    /\ try_upload cfg env w = (Ok (Some wait), w')
    /\ fs w' = fs w
    /\ trace w' = trace w ++ [Print NotReady]
    /\ cron_sleep_for cfg env w = (Ok (Z.min wait (check_interval cfg)), w')
    /\ cron_turn cfg env w
       = let d := Z.min wait (check_interval cfg) in
         if d <? 0 then (Raise ValueError, logged [Print (SleepingFor d)] w')
         else if dt.sleep_max <? d then
           (Raise OverflowError, logged [Print (SleepingFor d)] w')
         else (Ok tt, logged [Print (SleepingFor d); Sleep d] w').
Proof.
  intros cfg env w h t s Hload Hat Hgt wait w'.
  assert (T : try_upload cfg env w = (Ok (Some wait), w'))
    by (rewrite try_upload_cases, Hload, Hat, Hgt; reflexivity).
  assert (C : cron_sleep_for cfg env w
              = (Ok (Z.min wait (check_interval cfg)), w'))
    by (rewrite cron_sleep_for_cases, T; reflexivity).
  split; [eapply load_all_head_lowest; exact Hload|].
  split; [exact T|]. split; [reflexivity|]. split; [reflexivity|].
  split; [exact C|]. rewrite cron_turn_cases, C. reflexivity.
Qed.

(** C9.  When the head record of the pending queue has a null scheduledAt,
    the comparison with the clock raises [TypeError], which nothing catches:
    the cycle aborts after reading the clock, with no call to the client,
    nothing printed and the file system as it was, and so do the loop and
    the single-shot action. *)
Theorem null_schedule_aborts :
  forall (cfg : Config) (env : Env) (w : World) (h : InstaUpload)
         (t : list InstaUpload),
    load_all_from_parent_dir (unprocessed (fs w)) = Ok (h :: t) ->
    upload_at (meta h) = None ->
    try_upload cfg env w = (Raise TypeError, tick w)
    /\ fs (tick w) = fs w
    /\ trace (tick w) = trace w
    /\ run_upload cfg env w = (Raise TypeError, tick w)
    /\ cron_turn cfg env w = (Raise TypeError, tick w)
    /\ (forall turns envs k,
           envs k = env ->
           run_cron (S turns) envs k cfg w = (Raise TypeError, tick w)).
Proof.
  intros cfg env w h t Hload Hat.
  assert (T : try_upload cfg env w = (Raise TypeError, tick w))
    by (rewrite try_upload_cases, Hload, Hat; reflexivity).
  assert (C : cron_turn cfg env w = (Raise TypeError, tick w))
    by (rewrite cron_turn_cases, cron_sleep_for_cases, T; reflexivity).
  split; [exact T|]. split; [reflexivity|]. split; [reflexivity|].
  split; [unfold run_upload, bind; rewrite T; reflexivity|].
  split; [exact C|].
  intros turns envs k E. simpl. rewrite E, C. reflexivity.
Qed.

(** C8.  When an entry of the pending root has a name that is not an integer
    literal, or the metadata blob of its record is missing or malformed,
    the enumeration raises; [try_upload] does not catch it, and neither does
    the loop: the cycle, the single-shot action and the loop all end with
    that exception, with nothing printed, no call to the client and the file
    system as it was.  No list of records is returned, so no entry is
    skipped. *)
Theorem enumeration_error_aborts :
  forall (cfg : Config) (env : Env) (w : World) (fp : string),
    In fp (names (unprocessed (fs w))) ->
    bad_entry (unprocessed (fs w)) fp ->
    exists e,
      load_all_from_parent_dir (unprocessed (fs w)) = Raise e
      /\ (forall rs, load_all_from_parent_dir (unprocessed (fs w)) <> Ok rs)
      /\ try_upload cfg env w = (Raise e, w)
      /\ run_upload cfg env w = (Raise e, w)
      /\ cron_turn cfg env w = (Raise e, w)
      /\ (forall turns envs k,
             envs k = env -> run_cron (S turns) envs k cfg w = (Raise e, w)).
Proof.
  intros cfg env w fp Hin Hbad.
  apply bad_entry_does_not_load in Hbad.
  destruct (load_each_fails _ _ _ Hin Hbad) as [e He].
  assert (L : load_all_from_parent_dir (unprocessed (fs w)) = Raise e)
    by (unfold load_all_from_parent_dir; rewrite He; reflexivity).
  assert (T : try_upload cfg env w = (Raise e, w))
    by (rewrite try_upload_cases, L; reflexivity).
  assert (C : cron_turn cfg env w = (Raise e, w))
    by (rewrite cron_turn_cases, cron_sleep_for_cases, T; reflexivity).
  exists e. split; [exact L|].
  split; [intros rs; rewrite L; discriminate|].
  split; [exact T|].
  split; [unfold run_upload, bind; rewrite T; reflexivity|].
  split; [exact C|].
  intros turns envs k E. simpl. rewrite E, C. reflexivity.
Qed.

End Dispatch.

(** ** Publishing the head record *)

Section Publishing.

Context {codec : PyInt}.

Lemma quiet_ret {A : Type} (a : A) : quiet (ret a).
Proof.
  intros env w r w' [= <- <-]. repeat split. exists []. symmetry. apply app_nil_r.
Qed.

Lemma quiet_lift {A : Type} (x : result A) : quiet (lift x).
Proof.
  intros env w r w' [= <- <-]. repeat split. exists []. symmetry. apply app_nil_r.
Qed.

Lemma quiet_call {A : Type} (ev : event) (answer : Env -> result A) :
  quiet (call ev answer).
Proof.
  intros env w r w' [= <- <-]. repeat split. exists [ev]. reflexivity.
Qed.

Lemma quiet_bind {A B : Type} (m : IO A) (f : A -> IO B) :
  quiet m -> (forall a, quiet (f a)) -> quiet (bind m f).
Proof.
  intros Hm Hf env w r w' H. unfold bind in H.
  destruct (m env w) as [[a|e] w1] eqn:E1.
  - destruct (Hm _ _ _ _ E1) as (F1 & T1 & evs1 & Tr1).
    destruct (Hf a _ _ _ _ H) as (F2 & T2 & evs2 & Tr2).
    split; [congruence|]. split; [congruence|].
    exists (evs1 ++ evs2). rewrite Tr2, Tr1, app_assoc. reflexivity.
  - injection H as <- <-. exact (Hm _ _ _ _ E1).
Qed.

Lemma upload_post_quiet (cli : InstaClient) (upload : InstaUpload) :
  quiet (upload_post cli upload).
Proof.
  unfold upload_post. apply quiet_bind.
  - destruct (loc_lat (meta upload)) as [lat|];
      [destruct (loc_long (meta upload)) as [lng|]|]; try apply quiet_ret.
    apply quiet_bind; [apply quiet_call|]. intros found.
    apply quiet_bind; [apply quiet_lift|]. intros loc.
    apply quiet_bind; [apply quiet_call|]. intros loc'. apply quiet_ret.
  - intros loc.
    destruct (map _ (images upload)) as [|p [|q ps]]; apply quiet_call.
Qed.

Lemma os_rename_raises (name : string) (env : Env) (w w' : World) (e : exn) :
  os_rename name env w = (Raise e, w') -> w' = w.
Proof.
  unfold os_rename.
  destruct (rename_fault env); [intros [= _ <-]; reflexivity|].
  destruct (lookup name (unprocessed (fs w))); [|intros [= _ <-]; reflexivity].
  destruct (lookup name (processed (fs w))) as [old|]; [|discriminate].
  destruct (is_empty_dir old); [discriminate | intros [= _ <-]; reflexivity].
Qed.

Lemma lookup_app_new (name : string) (u : UploadDir) (d : Dir) :
  lookup name d = None -> lookup name (d ++ [(name, u)]) = Some u.
Proof.
  induction d as [|[n v] d IH]; simpl.
  - rewrite String.eqb_refl. reflexivity.
  - destruct (String.eqb n name); [discriminate | exact IH].
Qed.

Lemma lookup_update_same (name : string) (f : UploadDir -> UploadDir) (d : Dir)
    (old : UploadDir) :
  lookup name d = Some old -> lookup name (update name f d) = Some (f old).
Proof.
  induction d as [|[n v] d IH]; simpl; [discriminate|].
  destruct (String.eqb n name) eqn:E; simpl; rewrite E.
  - intros [= ->]. reflexivity.
  - exact IH.
Qed.

(** A completed [os.rename] has moved the whole directory. *)
Lemma os_rename_moves (name : string) (env : Env) (w w' : World) (x : unit) :
  os_rename name env w = (Ok x, w') ->
  exists u,
    lookup name (unprocessed (fs w)) = Some u
    /\ unprocessed (fs w') = remove name (unprocessed (fs w))
    /\ lookup name (processed (fs w')) = Some u
    /\ trace w' = trace w ++ [Rename name].
Proof.
  unfold os_rename.
  destruct (rename_fault env); [discriminate|].
  destruct (lookup name (unprocessed (fs w))) as [u|] eqn:Eu; [|discriminate].
  destruct (lookup name (processed (fs w))) as [old|] eqn:Eo.
  - destruct (is_empty_dir old); [|discriminate].
    intros [= _ <-]. exists u. simpl. repeat split.
    apply (lookup_update_same name (fun _ => u) _ old Eo).
  - intros [= _ <-]. exists u. simpl. repeat split.
    apply lookup_app_new, Eo.
Qed.

(** [publish], case by case. *)
Lemma publish_cases (cfg : Config) (upload : InstaUpload) (env : Env)
    (w : World) :
  publish cfg upload env w
  = match env_uname_pwd env with
    | Raise e => (Raise e, w)
    | Ok cred =>
        let w1 := logged [Login (fst cred) (snd cred)] w in
        match login env (fst cred) (snd cred) with
        | Raise e => (Raise e, w1)
        | Ok _ =>
            match upload_post {| client_cfg := cfg |} upload env w1 with
            | (Raise e, w2) => (Ok None, logged [Print (ErrorUploading e)] w2)
            | (Ok _, w2) =>
                match os_rename (py_str (id upload)) env w2 with
                | (Raise e, w3) =>
                    (Ok None, logged [Print (ErrorUploading e)] w3)
                | (Ok _, w3) => (Ok None, w3)
                end
            end
        end
    end.
Proof.
  unfold publish, bind, get_env_uname_pwd, InstaClient_init, bind, call, ret,
    try_except; simpl.
  destruct (env_uname_pwd env) as [cred|e]; [|reflexivity].
  fold (logged [Login (fst cred) (snd cred)] w).
  destruct (login env (fst cred) (snd cred)) as [x|e]; [|reflexivity].
  destruct (upload_post _ upload env _) as [[y|e] w2]; [|reflexivity].
  destruct (os_rename _ env w2) as [[z|e] w3]; reflexivity.
Qed.

Ltac world_eq :=
  unfold logged, tick; simpl; rewrite <- ?app_assoc; reflexivity.

Lemma publish_fs (cfg : Config) (upload : InstaUpload) (env : Env)
    (w : World) (r : result (option dt.timedelta)) (w' : World) :
  publish cfg upload env w = (r, w') ->
  fs w' = fs w
  \/ exists u,
       lookup (py_str (id upload)) (unprocessed (fs w)) = Some u
       /\ unprocessed (fs w')
          = remove (py_str (id upload)) (unprocessed (fs w))
       /\ lookup (py_str (id upload)) (processed (fs w')) = Some u
       /\ r = Ok None.
Proof.
  rewrite publish_cases.
  destruct (env_uname_pwd env) as [cred|e]; [|intros [= <- <-]; left; reflexivity].
  cbv zeta.
  destruct (login env (fst cred) (snd cred)) as [x|e];
    [|intros [= <- <-]; left; reflexivity].
  destruct (upload_post _ upload env _) as [[y|e] w2] eqn:Eu;
    apply upload_post_quiet in Eu as (F2 & _ & _); simpl in F2.
  - destruct (os_rename _ env w2) as [[z|e] w3] eqn:Er.
    + intros [= <- <-]. right.
      apply os_rename_moves in Er as (u & Lu & Un & Pr & _).
      exists u. rewrite <- F2. repeat split; assumption.
    + apply os_rename_raises in Er. subst w3.
      intros [= <- <-]. left. exact F2.
  - intros [= <- <-]. left. exact F2.
Qed.

(** C6 (as amended).  For a head record that is due and valid:
    an exception raised by [upload_post] (location resolution or the publish
    call) or by the rename is caught, "Error uploading" is printed with it,
    the cycle returns no wait, and the file system is as it was, so the
    record is still in the pending root for the next cycle; an exception
    raised while the credentials are read or by the login is not caught and
    ends the cycle, again with the file system as it was.  Whatever
    happens, the file system after the cycle is either unchanged or has the
    whole directory under the processed root and no longer under the
    pending root. *)
Theorem publish_failure_keeps_pending :
  forall (cfg : Config) (env : Env) (w : World) (h : InstaUpload)
         (t : list InstaUpload) (s : dt.datetime),
    load_all_from_parent_dir (unprocessed (fs w)) = Ok (h :: t) ->
    upload_at (meta h) = Some s ->
    dt.gt s (now_at env (ticks w)) = false ->
    validate_post h = true ->
    let name := py_str (id h) in
    (forall cred,
        env_uname_pwd env = Ok cred ->
        login env (fst cred) (snd cred) = Ok tt ->
        let w1 := logged [Login (fst cred) (snd cred)] (tick w) in
        (forall e w2,
            upload_post {| client_cfg := cfg |} h env w1 = (Raise e, w2) ->
            try_upload cfg env w
            = (Ok None, logged [Print (ErrorUploading e)] w2)
            /\ fs w2 = fs w)
        /\ (forall x w2 e w3,
               upload_post {| client_cfg := cfg |} h env w1 = (Ok x, w2) ->
               os_rename name env w2 = (Raise e, w3) ->
               try_upload cfg env w
               = (Ok None, logged [Print (ErrorUploading e)] w3)
               /\ fs w3 = fs w)
        /\ (forall la lo e,
               loc_lat (meta h) = Some la -> loc_long (meta h) = Some lo ->
               location_search env la lo = Raise e ->
               try_upload cfg env w
               = (Ok None,
                  logged [LocationSearch la lo; Print (ErrorUploading e)] w1))
        /\ (forall im e,
               loc_lat (meta h) = None -> images h = [im] ->
               let path := [unprocessed_dir_fp cfg; name; IM_DIR; im] in
               photo_upload env path (caption (meta h)) None = Raise e ->
               try_upload cfg env w
               = (Ok None,
                  logged [PhotoUpload path (caption (meta h)) None;
                          Print (ErrorUploading e)] w1)))
    /\ (forall e,
           env_uname_pwd env = Raise e ->
           try_upload cfg env w = (Raise e, tick w))
    /\ (forall cred e,
           env_uname_pwd env = Ok cred ->
           login env (fst cred) (snd cred) = Raise e ->
           try_upload cfg env w
           = (Raise e, logged [Login (fst cred) (snd cred)] (tick w)))
    /\ (forall r w',
           try_upload cfg env w = (r, w') ->
           fs w' = fs w
           \/ exists u,
                lookup name (unprocessed (fs w)) = Some u
                /\ unprocessed (fs w') = remove name (unprocessed (fs w))
                /\ lookup name (processed (fs w')) = Some u
                /\ r = Ok None).
Proof.
  intros cfg env w h t s Hload Hat Hgt Hval name.
  assert (T : try_upload cfg env w = publish cfg h env (tick w))
    by (rewrite try_upload_cases, Hload, Hat, Hgt, Hval; reflexivity).
  split; [|split; [|split]].
  - intros cred Hcred Hlogin w1.
    assert (P : publish cfg h env (tick w)
                = match upload_post {| client_cfg := cfg |} h env w1 with
                  | (Raise e, w2) =>
                      (Ok None, logged [Print (ErrorUploading e)] w2)
                  | (Ok _, w2) =>
                      match os_rename name env w2 with
                      | (Raise e, w3) =>
                          (Ok None, logged [Print (ErrorUploading e)] w3)
                      | (Ok _, w3) => (Ok None, w3)
                      end
                  end)
      by (rewrite publish_cases, Hcred; cbv zeta; rewrite Hlogin; reflexivity).
    split; [|split; [|split]].
    + intros e w2 Hu. rewrite T, P, Hu. split; [reflexivity|].
      apply upload_post_quiet in Hu as (F & _). exact F.
    + intros x w2 e w3 Hu Hr. rewrite T, P, Hu, Hr. split; [reflexivity|].
      apply os_rename_raises in Hr. subst w3.
      apply upload_post_quiet in Hu as (F & _). exact F.
    + intros la lo e Hla Hlo Hs. rewrite T, P.
      unfold upload_post, bind, call. rewrite Hla, Hlo, Hs.
      subst w1. world_eq.
    + intros im e Hla Him path Hp. rewrite T, P.
      unfold upload_post, bind, call, ret. rewrite Hla, Him. simpl.
      fold name. fold path. rewrite Hp.
      subst w1. world_eq.
  - intros e He. rewrite T, publish_cases, He. reflexivity.
  - intros cred e Hcred Hlogin.
    rewrite T, publish_cases, Hcred. cbv zeta. rewrite Hlogin. reflexivity.
  - intros r w'. rewrite T. intros H.
    apply publish_fs in H. exact H.
Qed.

(** Only the not-due branch returns a wait. *)
Lemma try_upload_wait_inv (cfg : Config) (env : Env) (w w' : World)
    (d : dt.timedelta) :
  try_upload cfg env w = (Ok (Some d), w') ->
  exists h t (s : dt.datetime),
    load_all_from_parent_dir (unprocessed (fs w)) = Ok (h :: t)
    /\ upload_at (meta h) = Some s
    /\ dt.gt s (now_at env (ticks w)) = true
    /\ d = dt.sub s (now_at env (S (ticks w))) + dt.seconds 1.
Proof.
  rewrite try_upload_cases.
  destruct (load_all_from_parent_dir (unprocessed (fs w))) as [[|h t]|e] eqn:L;
    try discriminate.
  destruct (upload_at (meta h)) as [[s|local off]|] eqn:A; try discriminate.
  destruct (dt.gt s (now_at env (ticks w))) eqn:G.
  - intros [= <- _]. exists h, t, s. repeat split; reflexivity || assumption.
  - destruct (negb (validate_post h)); [discriminate|].
    rewrite publish_cases.
    destruct (env_uname_pwd env) as [cred|e]; [|discriminate]. cbv zeta.
    destruct (login env (fst cred) (snd cred)); [|discriminate].
    destruct (upload_post _ h env _) as [[y|e] w2]; [|discriminate].
    destruct (os_rename _ env w2) as [[z|e] w3]; discriminate.
Qed.

(** C10 (as amended).  In a cycle whose head record is due: when the
    record is invalid, and when it is valid and the client is constructed
    (the credentials are read and the login returns), the cycle returns no
    wait, whether the publish and the move succeed or raise, and the loop
    asks to sleep for exactly the check interval; when reading the
    credentials or the login raises, the cycle returns nothing at all and
    the exception leaves the loop.  A due cycle never returns a wait: a wait
    is returned by the not-due branch only. *)
Theorem due_cycle_returns_no_wait :
  forall (cfg : Config) (env : Env) (w : World) (h : InstaUpload)
         (t : list InstaUpload) (s : dt.datetime),
    load_all_from_parent_dir (unprocessed (fs w)) = Ok (h :: t) ->
    upload_at (meta h) = Some s ->
    dt.gt s (now_at env (ticks w)) = false ->
    (validate_post h = false ->
     try_upload cfg env w = (Ok None, logged [Print InvalidPost] (tick w))
     /\ cron_sleep_for cfg env w
        = (Ok (check_interval cfg), logged [Print InvalidPost] (tick w)))
    /\ (validate_post h = true ->
        forall cred,
          env_uname_pwd env = Ok cred ->
          login env (fst cred) (snd cred) = Ok tt ->
          exists w',
            try_upload cfg env w = (Ok None, w')
            /\ cron_sleep_for cfg env w = (Ok (check_interval cfg), w'))
    /\ (validate_post h = true ->
        forall e,
          (env_uname_pwd env = Raise e
           \/ exists cred, env_uname_pwd env = Ok cred
                           /\ login env (fst cred) (snd cred) = Raise e) ->
          exists w',
            try_upload cfg env w = (Raise e, w')
            /\ cron_turn cfg env w = (Raise e, w'))
    /\ (forall d w', try_upload cfg env w <> (Ok (Some d), w'))
    /\ (forall env0 w0 d w0',
           try_upload cfg env0 w0 = (Ok (Some d), w0') ->
           exists h0 t0 (s0 : dt.datetime),
             load_all_from_parent_dir (unprocessed (fs w0)) = Ok (h0 :: t0)
             /\ upload_at (meta h0) = Some s0
             /\ dt.gt s0 (now_at env0 (ticks w0)) = true).
Proof.
  intros cfg env w h t s Hload Hat Hgt.
  split; [|split; [|split; [|split]]].
  - intros Hval.
    assert (T : try_upload cfg env w
                = (Ok None, logged [Print InvalidPost] (tick w)))
      by (rewrite try_upload_cases, Hload, Hat, Hgt, Hval; reflexivity).
    split; [exact T|]. rewrite cron_sleep_for_cases, T. reflexivity.
  - intros Hval cred Hcred Hlogin.
    assert (T : try_upload cfg env w = publish cfg h env (tick w))
      by (rewrite try_upload_cases, Hload, Hat, Hgt, Hval; reflexivity).
    assert (P : exists w', publish cfg h env (tick w) = (Ok None, w')).
    { rewrite publish_cases, Hcred. cbv zeta. rewrite Hlogin.
      destruct (upload_post _ h env _) as [[y|e] w2]; [|eexists; reflexivity].
      destruct (os_rename _ env w2) as [[z|e] w3]; eexists; reflexivity. }
    destruct P as [w' P]. exists w'. rewrite cron_sleep_for_cases, T, P.
    split; reflexivity.
  - intros Hval e Hauth.
    assert (T : try_upload cfg env w = publish cfg h env (tick w))
      by (rewrite try_upload_cases, Hload, Hat, Hgt, Hval; reflexivity).
    assert (P : exists w', publish cfg h env (tick w) = (Raise e, w')).
    { rewrite publish_cases.
      destruct Hauth as [He|(cred & Hcred & Hlogin)].
      - rewrite He. eexists; reflexivity.
      - rewrite Hcred. cbv zeta. rewrite Hlogin. eexists; reflexivity. }
    destruct P as [w' P]. exists w'.
    rewrite cron_turn_cases, cron_sleep_for_cases, T, P. split; reflexivity.
  - intros d w' H. apply try_upload_wait_inv in H as (h0 & t0 & s0 & L & A & G & _).
    rewrite Hload in L. injection L as <- <-.
    rewrite Hat in A. injection A as <-. rewrite Hgt in G. discriminate.
  - intros env0 w0 d w0' H.
    apply try_upload_wait_inv in H as (h0 & t0 & s0 & L & A & G & _).
    exists h0, t0, s0. repeat split; assumption.
Qed.

End Publishing.

(** ** Creating an empty upload *)

Section Creating.

Context {codec : PyInt}.

Lemma last_cons {A : Type} (l : list A) :
  forall a d : A, last (a :: l) d = last l a.
Proof.
  induction l as [|b l IH]; intros a d; [reflexivity|].
  change (last (a :: b :: l) d) with (last (b :: l) d).
  rewrite !IH. reflexivity.
Qed.

Lemma last_in {A : Type} (l : list A) : forall a : A, In (last l a) (a :: l).
Proof.
  induction l as [|c l IH]; intros a.
  - left. reflexivity.
  - right. rewrite last_cons. apply IH.
Qed.

Lemma last_app_cons {A : Type} (l : list A) :
  forall (u : A) (t : list A) (d : A), last (l ++ u :: t) d = last t u.
Proof.
  induction l as [|a l IH]; intros u t d.
  - apply last_cons.
  - change ((a :: l) ++ u :: t) with (a :: (l ++ u :: t)).
    rewrite last_cons. apply IH.
Qed.

Lemma newest_app (ps us : list InstaUpload) :
  us <> [] -> newest (ps ++ us) = newest us.
Proof.
  intros Hne. destruct us as [|u t]; [contradiction Hne; reflexivity|].
  destruct ps as [|p ps']; [reflexivity|].
  simpl. f_equal. apply last_app_cons.
Qed.

Lemma max_id_none (l : list InstaUpload) : max_id l = None -> l = [].
Proof.
  destruct l as [|u t]; [reflexivity|]. simpl.
  destruct (max_id t); discriminate.
Qed.

Lemma max_id_le (l : list InstaUpload) (m : Z) :
  max_id l = Some m -> Forall (fun u => id u <= m) l.
Proof.
  revert m. induction l as [|u t IH]; intros m H; [constructor|].
  simpl in H. destruct (max_id t) as [m'|] eqn:E.
  - injection H as <-. constructor; [lia|].
    eapply Forall_impl; [|apply IH; reflexivity]. simpl. intros a Ha. lia.
  - injection H as <-. apply max_id_none in E. subst t.
    constructor; [lia | constructor].
Qed.

(** The last record of a list in ascending order has the largest id. *)
Lemma sorted_newest (l : list InstaUpload) :
  StronglySorted le_id l -> option_map id (newest l) = max_id l.
Proof.
  induction l as [|a l IH]; intros S; [reflexivity|].
  inversion S as [|? ? Sl Ha]; subst.
  specialize (IH Sl). destruct l as [|b l'].
  - reflexivity.
  - change (newest (a :: b :: l')) with (Some (last (b :: l') a)).
    change (newest (b :: l')) with (Some (last l' b)) in IH.
    rewrite last_cons. cbn [option_map] in *.
    change (max_id (a :: b :: l'))
      with (match max_id (b :: l') with
            | None => Some (id a)
            | Some m => Some (Z.max (id a) m)
            end).
    rewrite <- IH. f_equal.
    pose proof (last_in l' b) as H.
    rewrite Forall_forall in Ha. specialize (Ha _ H). unfold le_id in Ha. lia.
Qed.

Lemma max_id_app (ps us : list InstaUpload) :
  max_id (ps ++ us)
  = match max_id ps, max_id us with
    | Some a, Some b => Some (Z.max a b)
    | Some a, None => Some a
    | None, b => b
    end.
Proof.
  induction ps as [|p ps IH]; simpl.
  - destruct (max_id us); reflexivity.
  - rewrite IH. destruct (max_id ps) as [a|]; destruct (max_id us) as [b|];
      try reflexivity.
    f_equal. lia.
Qed.

Lemma load_all_sorted_result (d : Dir) (rs : list InstaUpload) :
  load_all_from_parent_dir d = Ok rs -> StronglySorted le_id rs.
Proof.
  intros H. apply load_all_inv in H as (us & _ & ->). apply sort_by_id_sorted.
Qed.

(** The id chosen for a new upload, from the two loaded queues. *)
Lemma new_id_of_queues (ps us : list InstaUpload) :
  StronglySorted le_id ps -> StronglySorted le_id us ->
  new_id (newest (ps ++ us))
  = match max_id us with
    | Some m => m + 1
    | None => next_free_id ps
    end.
Proof.
  intros Sp Su. destruct (max_id us) as [m|] eqn:Em.
  - assert (Hne : us <> []) by (intros ->; discriminate).
    rewrite (newest_app _ _ Hne).
    pose proof (sorted_newest _ Su) as E. rewrite Em in E.
    destruct (newest us) as [u|]; [|discriminate].
    injection E as <-. reflexivity.
  - apply max_id_none in Em. subst us. rewrite app_nil_r.
    pose proof (sorted_newest _ Sp) as E. unfold next_free_id.
    destruct (newest ps) as [p|]; destruct (max_id ps) as [m|];
      try discriminate; [|reflexivity].
    injection E as <-. reflexivity.
Qed.

Lemma lookup_none (name : string) (d : Dir) :
  lookup name d = None <-> ~ In name (names d).
Proof.
  induction d as [|[n u] d IH]; simpl.
  - tauto.
  - destruct (String.eqb_spec n name) as [E|N].
    + split; [discriminate | intros H; exfalso; apply H; left; exact E].
    + rewrite IH. tauto.
Qed.

Lemma lookup_some_in (name : string) (d : Dir) (u : UploadDir) :
  lookup name d = Some u -> In (name, u) d.
Proof.
  induction d as [|[n v] d IH]; simpl; [discriminate|].
  destruct (String.eqb_spec n name) as [E|N].
  - intros [= ->]. left. rewrite E. reflexivity.
  - intros H. right. apply IH, H.
Qed.

Lemma update_app_new (name : string) (f : UploadDir -> UploadDir) (d : Dir)
    (u : UploadDir) :
  lookup name d = None ->
  update name f (d ++ [(name, u)]) = d ++ [(name, f u)].
Proof.
  induction d as [|[n v] d IH]; simpl.
  - rewrite String.eqb_refl. reflexivity.
  - destruct (String.eqb n name); [discriminate|].
    intros H. rewrite IH by exact H. reflexivity.
Qed.

Lemma load_each_in (d : Dir) (fps : list string) (fp : string) :
  forall us,
    load_each d fps = Ok us -> In fp fps ->
    exists u, In u us /\ py_int fp = Some (id u).
Proof.
  induction fps as [|fp' fps IH]; intros us H Hin; [contradiction Hin|].
  apply load_each_cons in H as (i & u & us' & Ei & Eu & H & ->).
  destruct Hin as [<-|Hin].
  - exists u. split; [left; reflexivity|].
    rewrite (load_from_dir_id _ _ _ Eu). exact Ei.
  - destruct (IH _ H Hin) as (u' & Hu' & E).
    exists u'. split; [right; exact Hu' | exact E].
Qed.

(** A name that prints an id no loaded record has is not in the root. *)
Lemma unused_id_fresh (d : Dir) (rs : list InstaUpload) (n : Z) :
  int_str_roundtrip ->
  load_all_from_parent_dir d = Ok rs ->
  Forall (fun r => id r <> n) rs ->
  lookup (py_str n) d = None.
Proof.
  intros RT H Hn. apply lookup_none. intros Hin.
  apply load_all_inv in H as (us & Hus & ->).
  destruct (load_each_in _ _ _ _ Hus Hin) as (u & Hu & E).
  rewrite RT in E. injection E as E.
  rewrite Forall_forall in Hn.
  apply (Hn u); [|symmetry; exact E].
  apply (Permutation_in _ (sort_by_id_perm us)), Hu.
Qed.

Lemma run_new_cases (cfg : Config) (env : Env) (w : World) :
  run_new cfg env w
  = match load_all_from_parent_dir (processed (fs w)) with
    | Raise e => (Raise e, w)
    | Ok ps =>
        match load_all_from_parent_dir (unprocessed (fs w)) with
        | Raise e => (Raise e, w)
        | Ok us => write_empty_upload Unprocessed (newest (ps ++ us)) cfg env w
        end
    end.
Proof.
  unfold run_new, bind, read_root, lift; simpl.
  destruct (load_all_from_parent_dir (processed (fs w))); [|reflexivity].
  destruct (load_all_from_parent_dir (unprocessed (fs w))); reflexivity.
Qed.

(** [write_empty_upload] under a name that is not taken: the scheduler is
    asked first, and when it raises nothing is created. *)
Lemma write_empty_upload_fresh (nw : option InstaUpload) (cfg : Config)
    (env : Env) (w : World) :
  lookup (py_str (new_id nw)) (unprocessed (fs w)) = None ->
  write_empty_upload Unprocessed nw cfg env w
  = match next_upload_time (now_at env (ticks w))
            (match nw with
             | Some n => upload_at (meta n)
             | None => None
             end)
            (default_upload_time cfg) (default_upload_delta cfg) with
    | Ok at_ =>
        (Ok tt,
         {| fs :=
              {| unprocessed :=
                   unprocessed (fs w)
                   ++ [(py_str (new_id nw), empty_upload at_)];
                 processed := processed (fs w) |};
            ticks := S (ticks w);
            trace := trace w |})
    | Raise e => (Raise e, tick w)
    end.
Proof.
  intros Hfresh.
  unfold write_empty_upload, bind, datetime_now, read_root, lift, write_root,
    makedirs_ims; simpl.
  destruct (next_upload_time _ _ _ _) as [at_|e]; [|reflexivity]. simpl.
  rewrite Hfresh. simpl. unfold write_meta.
  rewrite update_app_new by exact Hfresh. reflexivity.
Qed.

Lemma first_ids_S (n : nat) : first_ids (S n) = first_ids n ++ [Z.of_nat n].
Proof. unfold first_ids. rewrite seq_S, map_app. reflexivity. Qed.

Lemma first_ids_lt (n : nat) (i : Z) : In i (first_ids n) -> 0 <= i < Z.of_nat n.
Proof.
  unfold first_ids. rewrite in_map_iff. intros (k & <- & Hk).
  apply in_seq in Hk. lia.
Qed.

Lemma first_ids_sorted (n : nat) : StronglySorted Z.le (first_ids n).
Proof.
  induction n as [|n IH]; [constructor|].
  rewrite first_ids_S.
  assert (B : Forall (fun i => i <= Z.of_nat n) (first_ids n)).
  { apply Forall_forall. intros i Hi. apply first_ids_lt in Hi. lia. }
  revert IH B. generalize (first_ids n) as l. clear.
  induction l as [|a l IHl]; intros S B; simpl.
  - repeat constructor.
  - inversion S; subst. inversion B; subst.
    constructor; [apply IHl; assumption|].
    apply Forall_app. split; [assumption | constructor; [assumption|constructor]].
Qed.

Lemma sorted_by_ids (us : list InstaUpload) :
  StronglySorted Z.le (map id us) -> StronglySorted le_id us.
Proof.
  induction us as [|u us IH]; simpl; intros S; [constructor|].
  inversion S as [|? ? S' F]; subst.
  constructor; [apply IH, S'|].
  rewrite Forall_map in F. exact F.
Qed.

(** Sorting leaves a list in ascending order as it is. *)
Lemma sort_by_id_sorted_id (l : list InstaUpload) :
  StronglySorted le_id l -> sort_by_id l = l.
Proof.
  induction l as [|x l IH]; intros S; [reflexivity|].
  inversion S as [|? ? Sl Hx]; subst. simpl. rewrite (IH Sl).
  destruct l as [|y l']; [reflexivity|]. simpl.
  inversion Hx as [|? ? Hxy _]; subst. unfold le_id in Hxy.
  destruct (Z.leb_spec (id x) (id y)); [reflexivity | lia].
Qed.

Lemma new_id_first_ids (us : list InstaUpload) (n : nat) :
  map id us = first_ids n -> new_id (newest us) = Z.of_nat n.
Proof.
  destruct n as [|k].
  - destruct us; [reflexivity | discriminate].
  - rewrite first_ids_S. intros E.
    apply map_eq_app in E as (l1 & l2 & -> & _ & E2).
    destruct l2 as [|u [|v l2]]; try discriminate.
    injection E2 as E2.
    rewrite newest_app by discriminate. simpl. unfold NEW_OFFSET. lia.
Qed.

(** *** Uploads created in a row *)

Lemma py_str_inj (a b : Z) : int_str_roundtrip -> py_str a = py_str b -> a = b.
Proof.
  intros RT E. pose proof (RT a) as Ha. rewrite E, RT in Ha.
  injection Ha as Ha. symmetry. exact Ha.
Qed.

Lemma queue_from_app (ats : list dt.datetime) (a : dt.datetime) :
  forall k,
    queue_from k (ats ++ [a])
    = queue_from k ats
      ++ [(py_str (Z.of_nat (k + List.length ats)), empty_upload a)].
Proof.
  induction ats as [|b ats IH]; intros k; simpl.
  - rewrite Nat.add_0_r. reflexivity.
  - rewrite IH. replace (S k + List.length ats)%nat
      with (k + S (List.length ats))%nat by lia. reflexivity.
Qed.

Lemma records_from_app (ats : list dt.datetime) (a : dt.datetime) :
  forall k,
    records_from k (ats ++ [a])
    = records_from k ats
      ++ [empty_record (Z.of_nat (k + List.length ats)) a].
Proof.
  induction ats as [|b ats IH]; intros k; simpl.
  - rewrite Nat.add_0_r. reflexivity.
  - rewrite IH. replace (S k + List.length ats)%nat
      with (k + S (List.length ats))%nat by lia. reflexivity.
Qed.

Lemma records_from_ids (ats : list dt.datetime) :
  forall k,
    map id (records_from k ats) = map Z.of_nat (seq k (List.length ats)).
Proof.
  induction ats as [|a ats IH]; intros k; simpl; [reflexivity|].
  rewrite IH. reflexivity.
Qed.

Lemma queue_from_names (ats : list dt.datetime) :
  forall k,
    names (queue_from k ats)
    = map py_str (map Z.of_nat (seq k (List.length ats))).
Proof.
  induction ats as [|a ats IH]; intros k; simpl; [reflexivity|].
  unfold names in IH. rewrite IH. reflexivity.
Qed.

Lemma lookup_queue_from (ats : list dt.datetime) :
  int_str_roundtrip ->
  forall (k j : nat) (a : dt.datetime),
    nth_error ats j = Some a ->
    lookup (py_str (Z.of_nat (k + j))) (queue_from k ats) = Some (empty_upload a).
Proof.
  intros RT. induction ats as [|b ats IH]; intros k j a Hj.
  - destruct j; discriminate.
  - destruct j as [|j]; simpl in *.
    + injection Hj as ->. rewrite Nat.add_0_r, String.eqb_refl. reflexivity.
    + destruct (String.eqb_spec (py_str (Z.of_nat k))
                  (py_str (Z.of_nat (k + S j)))) as [E|_].
      * apply (py_str_inj _ _ RT) in E. lia.
      * replace (k + S j)%nat with (S k + j)%nat by lia. apply IH, Hj.
Qed.

Lemma load_each_queue_from (d : Dir) (ats : list dt.datetime) :
  int_str_roundtrip ->
  forall k,
    (forall j a, nth_error ats j = Some a ->
                 lookup (py_str (Z.of_nat (k + j))) d = Some (empty_upload a)) ->
    load_each d (names (queue_from k ats)) = Ok (records_from k ats).
Proof.
  intros RT. induction ats as [|a ats IH]; intros k H; [reflexivity|].
  simpl. rewrite RT.
  pose proof (H 0%nat a eq_refl) as H0. rewrite Nat.add_0_r in H0.
  unfold load_from_dir, from_fp, listdir_ims. rewrite H0. simpl.
  fold (names (queue_from (S k) ats)). rewrite IH; [reflexivity|].
  intros j b Hj. replace (S k + j)%nat with (k + S j)%nat by lia.
  apply H. exact Hj.
Qed.

(** A queue of empty uploads loads as its records, in order. *)
Lemma load_all_queue_from (ats : list dt.datetime) :
  int_str_roundtrip ->
  load_all_from_parent_dir (queue_from 0 ats) = Ok (records_from 0 ats).
Proof.
  intros RT. unfold load_all_from_parent_dir.
  rewrite (load_each_queue_from _ ats RT 0%nat)
    by (intros j a Hj; apply (lookup_queue_from ats RT 0%nat j a Hj)).
  f_equal. apply sort_by_id_sorted_id, sorted_by_ids.
  rewrite records_from_ids. apply first_ids_sorted.
Qed.

Lemma nil_or_snoc {A : Type} (l : list A) :
  l = [] \/ exists l' a, l = l' ++ [a].
Proof.
  induction l as [|x l IH] using rev_ind; [left; reflexivity|].
  right. exists l, x. reflexivity.
Qed.

Lemma spaced_snoc (delay : dt.timedelta) (ats : list dt.datetime)
    (a b : dt.datetime) :
  spaced delay (ats ++ [a]) -> dt.to_us a + delay <= dt.to_us b ->
  spaced delay ((ats ++ [a]) ++ [b]).
Proof.
  induction ats as [|x ats IH]; simpl; intros S Hab.
  - repeat split; exact Hab || exact I.
  - destruct S as [Hx S]. split; [|apply IH; assumption].
    destruct ats; simpl in *; exact Hx.
Qed.

(** After a naive last upload time, or none, [next_upload_time] returns a
    time of the years 1..9999 that is never before last + delay, or raises
    [OverflowError]. *)
Lemma next_upload_time_after_last (now : dt.datetime)
    (last : option dt.datetime) (t : dt.time) (delay : dt.timedelta) :
  (exists a,
      next_upload_time now (option_map dt.Naive last) t delay = Ok a
      /\ dt.in_range a = true
      /\ match last with
         | Some l => dt.to_us l + delay <= dt.to_us a
         | None => True
         end)
  \/ next_upload_time now (option_map dt.Naive last) t delay
     = Raise OverflowError.
Proof.
  rewrite next_upload_time_cases. cbv zeta.
  destruct (representable _) eqn:R1; [|right; reflexivity].
  destruct last as [l|]; simpl option_map; cbv iota.
  - destruct (representable (dt.to_us l + delay)) eqn:R2;
      [|right; reflexivity].
    left. eexists. split; [reflexivity|].
    match goal with |- context [?a >? ?b] => destruct (Z.gtb_spec a b) end;
      unfold dt.shift; rewrite in_range_of_us, to_us_of_us;
      (split; [assumption | lia]).
  - left. eexists. split; [reflexivity|].
    unfold dt.shift. rewrite in_range_of_us. split; [exact R1 | exact I].
Qed.

Lemma latest_app (ats : list dt.datetime) (a : dt.datetime) :
  latest (ats ++ [a]) = Some a.
Proof.
  destruct ats as [|b ats]; [reflexivity|]. simpl.
  rewrite last_app_cons. reflexivity.
Qed.

Lemma newest_records_from (ats : list dt.datetime) :
  match newest (records_from 0 ats) with
  | Some n => upload_at (meta n)
  | None => None
  end
  = option_map dt.Naive (latest ats).
Proof.
  destruct (nil_or_snoc ats) as [->|(ats' & a & ->)]; [reflexivity|].
  rewrite records_from_app, newest_app, latest_app by discriminate.
  reflexivity.
Qed.

(** One [--new] on a queue of empty uploads adds one, scheduled at least
    the default delay after the newest, unless the scheduler raises
    [OverflowError], and then the queue is as it was. *)
Lemma run_new_schedule (cfg : Config) (env : Env) (w : World)
    (ats : list dt.datetime) :
  int_str_roundtrip ->
  processed (fs w) = [] -> unprocessed (fs w) = queue_from 0 ats ->
  spaced (default_upload_delta cfg) ats ->
  (exists a,
      next_upload_time (now_at env (ticks w)) (option_map dt.Naive (latest ats))
        (default_upload_time cfg) (default_upload_delta cfg) = Ok a
      /\ run_new cfg env w
         = (Ok tt,
            {| fs := {| unprocessed := queue_from 0 (ats ++ [a]);
                        processed := [] |};
               ticks := S (ticks w);
               trace := trace w |})
      /\ spaced (default_upload_delta cfg) (ats ++ [a]))
  \/ (next_upload_time (now_at env (ticks w)) (option_map dt.Naive (latest ats))
        (default_upload_time cfg) (default_upload_delta cfg)
      = Raise OverflowError
      /\ run_new cfg env w = (Raise OverflowError, tick w)).
Proof.
  intros RT Hp Hu Hs.
  pose proof (load_all_queue_from ats RT) as Hload.
  assert (Hid : new_id (newest (records_from 0 ats))
                = Z.of_nat (List.length ats))
    by (apply new_id_first_ids, records_from_ids).
  assert (Hfresh : lookup (py_str (new_id (newest (records_from 0 ats))))
                          (unprocessed (fs w)) = None).
  { rewrite Hu. apply (unused_id_fresh _ (records_from 0 ats));
      [exact RT | exact Hload|].
    rewrite Hid. apply Forall_forall. intros r Hr E.
    assert (Hi : In (id r) (first_ids (List.length ats)))
      by (unfold first_ids; rewrite <- records_from_ids; apply in_map, Hr).
    apply first_ids_lt in Hi. lia. }
  pose proof (write_empty_upload_fresh (newest (records_from 0 ats)) cfg env w
                Hfresh) as Hw.
  rewrite Hid, newest_records_from in Hw.
  assert (Hrun : run_new cfg env w
                 = write_empty_upload Unprocessed
                     (newest (records_from 0 ats)) cfg env w).
  { rewrite run_new_cases, Hp.
    change (load_all_from_parent_dir []) with (Ok (@nil InstaUpload)).
    rewrite Hu, Hload. reflexivity. }
  destruct (next_upload_time_after_last (now_at env (ticks w)) (latest ats)
              (default_upload_time cfg) (default_upload_delta cfg))
    as [(a & Ea & _ & Hafter)|Eo].
  - left. exists a. split; [exact Ea|]. rewrite Ea in Hw. split.
    + rewrite Hrun, Hw, Hu, Hp, queue_from_app. reflexivity.
    + destruct (nil_or_snoc ats) as [->|(ats' & b & ->)].
      * simpl. split; exact I.
      * apply spaced_snoc; [exact Hs|].
        rewrite latest_app in Hafter. exact Hafter.
  - right. split; [exact Eo|]. rewrite Eo in Hw. rewrite Hrun. exact Hw.
Qed.

(** Runs of [--new] in a row on a queue of empty uploads: either all of them
    add an upload, or the first that raises, with [OverflowError], ends the
    sequence; the queue holds what the runs before it added, in order and
    spaced. *)
Lemma run_new_n_schedule (cfg : Config) (envs : nat -> Env) (count : nat) :
  int_str_roundtrip ->
  forall (k : nat) (w : World) (ats : list dt.datetime),
    processed (fs w) = [] -> unprocessed (fs w) = queue_from 0 ats ->
    spaced (default_upload_delta cfg) ats ->
    exists r w' ats',
      run_new_n count envs k cfg w = (r, w')
      /\ processed (fs w') = []
      /\ unprocessed (fs w') = queue_from 0 ats'
      /\ spaced (default_upload_delta cfg) ats'
      /\ ((r = Ok tt
           /\ List.length ats' = (List.length ats + count)%nat)
          \/ (r = Raise OverflowError
              /\ (List.length ats <= List.length ats'
                  < List.length ats + count)%nat)).
Proof.
  intros RT. induction count as [|count IH]; intros k w ats Hp Hu Hs.
  - exists (Ok tt), w, ats. rewrite Nat.add_0_r.
    split; [reflexivity|]. split; [exact Hp|]. split; [exact Hu|].
    split; [exact Hs|]. left. split; reflexivity.
  - destruct (run_new_schedule cfg (envs k) w ats RT Hp Hu Hs)
      as [(a & _ & R1 & Hs1)|[_ R1]].
    + match type of R1 with _ = (_, ?w1) =>
        destruct (IH (S k) w1 (ats ++ [a]) eq_refl eq_refl Hs1)
          as (r & w2 & ats2 & R2 & Hp2 & Hu2 & Hs2 & L2)
      end.
      exists r, w2, ats2. simpl. rewrite R1.
      rewrite length_app in L2. simpl in L2.
      split; [exact R2|]. split; [exact Hp2|]. split; [exact Hu2|].
      split; [exact Hs2|].
      destruct L2 as [[-> L2]|[-> L2]]; [left | right];
        (split; [reflexivity | lia]).
    + exists (Raise OverflowError), (tick w), ats. simpl. rewrite R1.
      split; [reflexivity|]. split; [exact Hp|]. split; [exact Hu|].
      split; [exact Hs|]. right. split; [reflexivity | lia].
Qed.

(** C4 (as amended).  When [int] reads back what [str] prints and both
    queues load, the [--new] action asks the scheduler for a time, with the
    schedule of the last record of the published queue followed by the
    pending queue.  When the scheduler returns, the action creates the
    directory named after the id of that last record plus one; when the
    scheduler raises ([OverflowError], or [TypeError] on a schedule with a
    time zone), the action raises the same and creates nothing.  That id is
    the largest pending id plus one when there is a pending record,
    otherwise the largest published id plus one, otherwise 0.  This is the
    largest id of the union plus one whenever no published id exceeds the
    largest pending id, and it is 0 when both queues are empty.  Runs in a
    row from two empty roots create the ids 0, 1, 2, ... in this order: all
    [count] of them, or those before the first run that raises, which can
    only be with [OverflowError]. *)
Theorem new_assigns_next_id :
  forall (cfg : Config) (env : Env) (w : World) (ps us : list InstaUpload),
    int_str_roundtrip ->
    load_all_from_parent_dir (processed (fs w)) = Ok ps ->
    load_all_from_parent_dir (unprocessed (fs w)) = Ok us ->
    let n := new_id (newest (ps ++ us)) in
    run_new cfg env w
    = match next_upload_time (now_at env (ticks w))
              (match newest (ps ++ us) with
               | Some last => upload_at (meta last)
               | None => None
               end)
              (default_upload_time cfg) (default_upload_delta cfg) with
      | Ok at_ =>
          (Ok tt,
           {| fs := {| unprocessed :=
                         unprocessed (fs w) ++ [(py_str n, empty_upload at_)];
                       processed := processed (fs w) |};
              ticks := S (ticks w);
              trace := trace w |})
      | Raise e => (Raise e, tick w)
      end
    /\ n = match max_id us with
           | Some m => m + 1
           | None => next_free_id ps
           end
    /\ ((forall mp mu, max_id ps = Some mp -> max_id us = Some mu -> mp <= mu) ->
        n = next_free_id (ps ++ us))
    /\ (ps = [] -> us = [] -> n = 0)
    /\ (forall (count : nat) (envs : nat -> Env) (w0 : World),
           fs w0 = empty_fs ->
           exists r w' created,
             run_new_n count envs 0 cfg w0 = (r, w')
             /\ names (unprocessed (fs w')) = map py_str (first_ids created)
             /\ processed (fs w') = []
             /\ (exists rs,
                    load_all_from_parent_dir (unprocessed (fs w')) = Ok rs
                    /\ map id rs = first_ids created)
             /\ ((r = Ok tt /\ created = count)
                 \/ (r = Raise OverflowError /\ (created < count)%nat))).
Proof.
  intros cfg env w ps us RT Hps Hus n.
  assert (En : n = match max_id us with
                   | Some m => m + 1
                   | None => next_free_id ps
                   end).
  { apply new_id_of_queues; eapply load_all_sorted_result; eassumption. }
  split; [|split; [exact En|split; [|split]]].
  - rewrite run_new_cases, Hps, Hus.
    apply write_empty_upload_fresh.
    apply (unused_id_fresh _ us); [exact RT | exact Hus|].
    fold n. rewrite En. destruct (max_id us) as [m|] eqn:Em.
    + apply max_id_le in Em. eapply Forall_impl; [|exact Em].
      simpl. intros r Hr. lia.
    + apply max_id_none in Em. subst us. constructor.
  - intros Hle. rewrite En. unfold next_free_id. rewrite max_id_app.
    destruct (max_id ps) as [mp|]; destruct (max_id us) as [mu|];
      try reflexivity.
    specialize (Hle mp mu eq_refl eq_refl). f_equal. lia.
  - intros -> ->. reflexivity.
  - intros count envs w0 E0.
    destruct (run_new_n_schedule cfg envs count RT 0%nat w0 [])
      as (r & w' & ats & R & Hp & Hu & _ & L);
      try (rewrite E0; reflexivity); [exact I|].
    exists r, w', (List.length ats).
    split; [exact R|]. rewrite Hu. split; [apply queue_from_names|].
    split; [exact Hp|]. split.
    + exists (records_from 0 ats).
      split; [apply load_all_queue_from, RT | apply records_from_ids].
    + simpl in L. destruct L as [[-> L]|[-> L]]; [left | right];
        (split; [reflexivity | lia]).
Qed.

End Creating.

(** * Concrete runs, with decimal directory names *)

Lemma dec_roundtrip : @int_str_roundtrip dec_PyInt.
Proof.
  intros z. simpl. unfold dec_int, dec_str.
  rewrite NilZero.isi.
  - simpl. rewrite DecimalZ.of_to. reflexivity.
  - destruct z as [|p|p]; simpl; try discriminate.
    intros [= H]. exact (DecimalPos.Unsigned.to_uint_nonnil p H).
  - destruct z as [|p|p]; simpl; try discriminate.
    intros [= H]. exact (DecimalPos.Unsigned.to_uint_nonnil p H).
Qed.

(** C1 needs no premise; C2 and C3 neither. *)

(** C4 at work: with uploads 0 and 1 published and upload 2 pending and
    scheduled for 16:30:00, the new upload gets the id 3 and is scheduled
    one day after upload 2. *)
Lemma new_assigns_next_id_witness :
  @run_new dec_PyInt sample_cfg sample_env in_order_world
  = (Ok tt,
     {| fs :=
          {| unprocessed :=
               [("2", ready_upload (Some sample_later));
                ("3", empty_upload sample_next_day)];
             processed :=
               [("0", ready_upload (Some sample_earlier));
                ("1", ready_upload (Some sample_earlier))] |};
        ticks := 1;
        trace := [] |}).
Proof.
  exact (proj1 (@new_assigns_next_id dec_PyInt sample_cfg sample_env
                  in_order_world
                  [loaded 0 (Some sample_earlier); loaded 1 (Some sample_earlier)]
                  [loaded 2 (Some sample_later)]
                  dec_roundtrip eq_refl eq_refl)).
Defined.

(** C4, as stated, fails: with upload 5 published and upload 2 pending, the
    new upload gets the id 3, not the largest id of the union plus one.  And
    no record is created at all when the scheduler raises: with the newest
    upload scheduled on the last day of [datetime] the action ends with
    [OverflowError], with a schedule that carries a time zone it ends with
    [TypeError], and the pending root is as it was. *)
Lemma new_id_follows_pending_queue :
  load_all_from_parent_dir (codec := dec_PyInt)
    (processed (fs out_of_order_world))
  = Ok [loaded 5 (Some sample_earlier)]
  /\ load_all_from_parent_dir (codec := dec_PyInt)
       (unprocessed (fs out_of_order_world))
     = Ok [loaded 2 (Some sample_later)]
  /\ next_free_id [loaded 5 (Some sample_earlier); loaded 2 (Some sample_later)]
     = 6
  /\ fst (@run_new dec_PyInt sample_cfg sample_env out_of_order_world) = Ok tt
  /\ names (unprocessed
              (fs (snd (@run_new dec_PyInt sample_cfg sample_env
                          out_of_order_world))))
     = ["2"; "3"]
  /\ @run_new dec_PyInt sample_cfg sample_env last_day_world
     = (Raise OverflowError, tick last_day_world)
  /\ @run_new dec_PyInt sample_cfg sample_env aware_world
     = (Raise TypeError, tick aware_world).
Proof. repeat split; vm_compute; reflexivity. Qed.

(** C5 at work: upload 0 is scheduled for 16:30:00 and the clock stands at
    15:30:00.25; the wait is 1 h less a quarter second plus one second, and
    the loop sleeps for the check interval of 10 min, which is shorter. *)
Lemma not_due_waits_witness :
  @try_upload dec_PyInt sample_cfg sample_env not_due_world
  = (Ok (Some 3600750000),
     {| fs := fs not_due_world; ticks := 2; trace := [Print NotReady] |})
  /\ @cron_turn dec_PyInt sample_cfg sample_env not_due_world
     = (Ok tt,
        {| fs := fs not_due_world;
           ticks := 2;
           trace := [Print NotReady; Print (SleepingFor 600000000);
                     Sleep 600000000] |}).
Proof.
  pose proof (@not_due_waits dec_PyInt sample_cfg sample_env not_due_world
                (loaded 0 (Some sample_later)) [] sample_later
                eq_refl eq_refl eq_refl) as H.
  cbv zeta in H. destruct H as (_ & T & _ & _ & _ & C).
  split; [exact T | exact C].
Defined.

(** C5, as stated, fails.  The head record is not due in any of these runs.
    With a check interval of -1 s the smaller of the wait and the interval
    is negative: the loop ends with [ValueError] and does not sleep.  The
    wait is taken from a second reading of the clock: when the clock has
    moved on by a day in between, the wait is one second less a day, not
    scheduledAt minus the time of the due check plus one second, and the
    loop ends with [ValueError] as well.  And with a record scheduled in the
    year 9999 and a check interval of 200000 days, the smaller of the two
    is more than [time.sleep] accepts: the loop ends with [OverflowError]
    and does not sleep. *)
Lemma not_due_sleep_may_raise :
  dt.gt sample_later sample_now = true
  /\ @cron_turn dec_PyInt negative_interval_cfg sample_env not_due_world
     = (Raise ValueError,
        {| fs := fs not_due_world;
           ticks := 2;
           trace := [Print NotReady; Print (SleepingFor (-1000000))] |})
  /\ @try_upload dec_PyInt sample_cfg jumping_clock_env not_due_world
     = (Ok (Some (-86399000000)),
        {| fs := fs not_due_world; ticks := 2; trace := [Print NotReady] |})
  /\ dt.sub sample_later sample_now + dt.seconds 1 = 3600750000
  /\ @cron_turn dec_PyInt sample_cfg jumping_clock_env not_due_world
     = (Raise ValueError,
        {| fs := fs not_due_world;
           ticks := 2;
           trace := [Print NotReady; Print (SleepingFor (-86399000000))] |})
  /\ dt.gt last_day_noon sample_now = true
  /\ @cron_turn dec_PyInt long_interval_cfg sample_env last_day_world
     = (Raise OverflowError,
        {| fs := fs last_day_world;
           ticks := 2;
           trace := [Print NotReady;
                     Print (SleepingFor 17280000000000000)] |}).
Proof. repeat split; vm_compute; reflexivity. Qed.

(** C6 at work: upload 0 is due and valid, and the photo upload fails; the
    error is printed, no wait is returned and the files are as they were. *)
Lemma publish_failure_keeps_pending_witness :
  @try_upload dec_PyInt sample_cfg upload_fails_env due_world
  = (Ok None,
     {| fs := fs due_world;
        ticks := 1;
        trace := [Login (Some "user") "secret";
                  PhotoUpload ["unprocessed"; "0"; "ims"; "a.jpg"] "hello" None;
                  Print (ErrorUploading (ExternalError 500))] |}).
Proof.
  pose proof (@publish_failure_keeps_pending dec_PyInt sample_cfg
                upload_fails_env due_world
                (loaded 0 (Some sample_earlier)) [] sample_earlier
                eq_refl eq_refl eq_refl eq_refl) as H.
  cbv zeta in H. destruct H as (H & _).
  destruct (H (Some "user", "secret") eq_refl eq_refl) as (_ & _ & _ & P).
  exact (P "a.jpg" (ExternalError 500) eq_refl eq_refl eq_refl).
Defined.

(** C6, as stated, fails: when the login is refused, the exception is not
    caught and nothing is printed; the cycle ends with it. *)
Lemma login_error_not_caught :
  validate_post (loaded 0 (Some sample_earlier)) = true
  /\ dt.gt sample_earlier sample_now = false
  /\ @try_upload dec_PyInt sample_cfg login_refused_env due_world
     = (Raise (ExternalError 401),
        {| fs := fs due_world;
           ticks := 1;
           trace := [Login (Some "user") "secret"] |}).
Proof. repeat split; vm_compute; reflexivity. Qed.


(** C8 at work: a directory named "drafts" in the pending root ends the
    cycle with [ValueError]. *)
Lemma enumeration_error_aborts_witness :
  exists e,
    load_all_from_parent_dir (codec := dec_PyInt)
      (unprocessed (fs stray_dir_world)) = Raise e
    /\ (forall rs,
           load_all_from_parent_dir (codec := dec_PyInt)
             (unprocessed (fs stray_dir_world)) <> Ok rs)
    /\ @try_upload dec_PyInt sample_cfg sample_env stray_dir_world
       = (Raise e, stray_dir_world)
    /\ @run_upload dec_PyInt sample_cfg sample_env stray_dir_world
       = (Raise e, stray_dir_world)
    /\ @cron_turn dec_PyInt sample_cfg sample_env stray_dir_world
       = (Raise e, stray_dir_world)
    /\ (forall turns envs k,
           envs k = sample_env ->
           @run_cron dec_PyInt (S turns) envs k sample_cfg stray_dir_world
           = (Raise e, stray_dir_world)).
Proof.
  apply (@enumeration_error_aborts dec_PyInt sample_cfg sample_env
           stray_dir_world "drafts").
  - simpl. right. left. reflexivity.
  - left. reflexivity.
Defined.

(** C9 at work: upload 0 has a null schedule; the cycle ends with
    [TypeError] after one reading of the clock. *)
Lemma null_schedule_aborts_witness :
  @try_upload dec_PyInt sample_cfg sample_env null_schedule_world
  = (Raise TypeError,
     {| fs := fs null_schedule_world; ticks := 1; trace := [] |}).
Proof.
  exact (proj1 (@null_schedule_aborts dec_PyInt sample_cfg sample_env
                  null_schedule_world (loaded 0 None) [] eq_refl eq_refl)).
Defined.

(** C10 at work: upload 0 is due and valid and every call succeeds; the
    cycle returns no wait and the loop asks for the check interval. *)
Lemma due_cycle_returns_no_wait_witness :
  exists w',
    @try_upload dec_PyInt sample_cfg sample_env due_world = (Ok None, w')
    /\ @cron_sleep_for dec_PyInt sample_cfg sample_env due_world
       = (Ok (dt.seconds 600), w').
Proof.
  pose proof (@due_cycle_returns_no_wait dec_PyInt sample_cfg sample_env
                due_world (loaded 0 (Some sample_earlier)) [] sample_earlier
                eq_refl eq_refl eq_refl) as H.
  destruct H as (_ & H & _).
  exact (H eq_refl (Some "user", "secret") eq_refl eq_refl).
Defined.

(** C10, as stated, fails: the head record is due and valid and the login
    is refused; the cycle returns nothing, and the turn of the loop ends
    with the exception instead of sleeping. *)
Lemma due_cycle_may_raise :
  dt.gt sample_earlier sample_now = false
  /\ fst (@try_upload dec_PyInt sample_cfg login_refused_env due_world)
     = Raise (ExternalError 401)
  /\ @cron_turn dec_PyInt sample_cfg login_refused_env due_world
     = (Raise (ExternalError 401),
        {| fs := fs due_world;
           ticks := 1;
           trace := [Login (Some "user") "secret"] |}).
Proof. repeat split; vm_compute; reflexivity. Qed.

(** * Further properties of the code *)

(** ** The scheduler with a delay of whole days *)

Lemma whole_seconds_wf (t : dt.time) : dt.time_wf t -> dt.time_wf (whole_seconds t).
Proof.
  unfold dt.time_wf, whole_seconds, dt.us_per_second; simpl. lia.
Qed.

(** Adding whole days moves the date and keeps the time of day; it raises
    when the new date is not one of the years 1..9999. *)
Lemma add_days (d : dt.datetime) (k : Z) :
  dt.wf d ->
  dt.add d (days k)
  = if dt.in_range (dt.combine (dt.date d + k) (dt.timetz d))
    then Some (dt.combine (dt.date d + k) (dt.timetz d))
    else None.
Proof.
  intros Hwf. unfold dt.add, dt.shift. cbv zeta.
  replace (dt.to_us d + days k)
    with (dt.to_us (dt.combine (dt.date d + k) (dt.timetz d)))
    by (unfold dt.to_us, days; simpl; lia).
  rewrite of_us_to_us by exact Hwf. reflexivity.
Qed.

(** X1.  With a delay of [k] whole days, [next_upload_time] keeps times of
    day.  Its slot is the day [k] days after today at the target hour,
    minute and second; after a naive last upload its floor is the day [k]
    days after the last upload at the time of day of the last upload.  When
    the slot, or the floor if there is a last upload, is not a day of the
    years 1..9999, the function raises [OverflowError]; otherwise the result
    is the slot, unless the last upload is later than today at the target
    time, and then it is the floor. *)
Theorem next_upload_time_whole_days :
  forall (now : dt.datetime) (last : option dt.datetime) (t : dt.time) (k : Z),
    dt.time_wf t ->
    match last with Some l => dt.wf l | None => True end ->
    let slot := dt.combine (dt.date now + k) (whole_seconds t) in
    next_upload_time now (option_map dt.Naive last) t (days k)
    = if dt.in_range slot then
        match last with
        | None => Ok slot
        | Some l =>
            let floor := dt.combine (dt.date l + k) (dt.timetz l) in
            if dt.in_range floor then
              if dt.gt l (dt.combine (dt.date now) (whole_seconds t))
              then Ok floor
              else Ok slot
            else Raise OverflowError
        end
      else Raise OverflowError.
Proof.
  intros now last t k Ht Hl slot.
  unfold next_upload_time. rewrite replace_whole_seconds.
  rewrite (add_days (dt.combine (dt.date now) (whole_seconds t)) k)
    by (apply whole_seconds_wf, Ht).
  simpl dt.date. simpl dt.timetz. fold slot.
  destruct (dt.in_range slot); [|reflexivity].
  destruct last as [l|]; [|reflexivity].
  simpl option_map. unfold dt.timestamp_add. rewrite (add_days l k Hl).
  cbv zeta.
  destruct (dt.in_range (dt.combine (dt.date l + k) (dt.timetz l)));
    [|reflexivity].
  simpl option_map. cbv iota beta.
  replace (dt.gt (dt.combine (dt.date l + k) (dt.timetz l)) slot)
    with (dt.gt l (dt.combine (dt.date now) (whole_seconds t))); [reflexivity|].
  unfold dt.gt, dt.to_us, slot; simpl.
  destruct (Z.gtb_spec (dt.date l * dt.us_per_day + dt.time_to_us (dt.timetz l))
              (dt.date now * dt.us_per_day + dt.time_to_us (whole_seconds t)));
    destruct (Z.gtb_spec
                ((dt.date l + k) * dt.us_per_day + dt.time_to_us (dt.timetz l))
                ((dt.date now + k) * dt.us_per_day
                 + dt.time_to_us (whole_seconds t)));
    try reflexivity; lia.
Qed.

(** ** The schedule of uploads created in a row *)

Section Schedule.

Context {codec : PyInt}.

(** X2.  Runs of [--new] in a row from two empty roots: all [count] of them
    return, or the first that raises ends the sequence, and it can only
    raise [OverflowError].  The uploads created by then load as the records
    of ids 0, 1, ..., each without images and with both coordinates 0.0,
    and each scheduled at least the default delay after the one before. *)
Theorem new_uploads_are_spaced :
  forall (cfg : Config) (count : nat) (envs : nat -> Env) (w0 : World),
    int_str_roundtrip ->
    fs w0 = empty_fs ->
    exists r w' ats,
      run_new_n count envs 0 cfg w0 = (r, w')
      /\ ((r = Ok tt /\ List.length ats = count)
          \/ (r = Raise OverflowError /\ (List.length ats < count)%nat))
      /\ load_all_from_parent_dir (unprocessed (fs w'))
         = Ok (records_from 0 ats)
      /\ spaced (default_upload_delta cfg) ats.
Proof.
  intros cfg count envs w0 RT E0.
  destruct (run_new_n_schedule cfg envs count RT 0%nat w0 [])
    as (r & w' & ats & R & _ & Hu & Hs & L);
    try (rewrite E0; reflexivity); [exact I|].
  exists r, w', ats. split; [exact R|]. split; [|split; [|exact Hs]].
  - simpl in L. destruct L as [[-> L]|[-> L]]; [left | right];
      (split; [reflexivity | lia]).
  - rewrite Hu. apply load_all_queue_from, RT.
Qed.

(** X3.  An upload as [--new] creates it is never published: after any
    number of [--new] runs from two empty roots, whether they all return or
    one of them raises [OverflowError], a dispatch cycle, whatever the clock
    and the environment, returns without an exception, makes no call to the
    client, moves nothing and prints exactly one status line. *)
Theorem new_uploads_are_not_published :
  forall (cfg : Config) (count : nat) (envs : nat -> Env) (w0 : World)
         (env : Env),
    int_str_roundtrip ->
    fs w0 = empty_fs ->
    exists r1 w1 r w2 line,
      run_new_n count envs 0 cfg w0 = (r1, w1)
      /\ (r1 = Ok tt \/ r1 = Raise OverflowError)
      /\ try_upload cfg env w1 = (Ok r, w2)
      /\ fs w2 = fs w1
      /\ trace w2 = trace w1 ++ [Print line]
      /\ (line = NoUploads \/ line = NotReady \/ line = InvalidPost).
Proof.
  intros cfg count envs w0 env RT E0.
  destruct (run_new_n_schedule cfg envs count RT 0%nat w0 [])
    as (r1 & w1 & ats & R & _ & Hu & _ & L);
    try (rewrite E0; reflexivity); [exact I|].
  assert (Hr : r1 = Ok tt \/ r1 = Raise OverflowError)
    by (destruct L as [[-> _]|[-> _]]; [left | right]; reflexivity).
  exists r1, w1. rewrite try_upload_cases, Hu, (load_all_queue_from ats RT).
  destruct ats as [|a ats].
  - do 3 eexists. split; [exact R|]. split; [exact Hr|].
    split; [reflexivity|].
    split; [reflexivity|]. split; [reflexivity | left; reflexivity].
  - simpl records_from. cbn [upload_at meta empty_record].
    destruct (dt.gt a (now_at env (ticks w1))).
    + do 3 eexists. split; [exact R|]. split; [exact Hr|].
      split; [reflexivity|].
      split; [reflexivity|]. split; [reflexivity | right; left; reflexivity].
    + change (negb (validate_post (empty_record (Z.of_nat 0) a))) with true.
      cbv iota.
      do 3 eexists. split; [exact R|]. split; [exact Hr|].
      split; [reflexivity|].
      split; [reflexivity|]. split; [reflexivity | right; right; reflexivity].
Qed.

End Schedule.

(** ** What [upload_post] sends *)

Ltac world_eq' :=
  unfold logged, tick; simpl; rewrite <- ?app_assoc; reflexivity.

Section Uploading.

Context {codec : PyInt}.

(** [upload_post], case by case. *)
Lemma upload_post_cases (cli : InstaClient) (upload : InstaUpload) (env : Env)
    (w : World) :
  upload_post cli upload env w
  = match loc_lat (meta upload), loc_long (meta upload) with
    | Some lat, Some lng =>
        match location_search env lat lng with
        | Raise e => (Raise e, logged [LocationSearch lat lng] w)
        | Ok [] => (Raise IndexError, logged [LocationSearch lat lng] w)
        | Ok (first :: _) =>
            match location_complete env first with
            | Raise e =>
                (Raise e,
                 logged [LocationSearch lat lng; LocationComplete first] w)
            | Ok loc =>
                (upload_answer (client_cfg cli) upload (Some loc) env,
                 logged [LocationSearch lat lng; LocationComplete first;
                         upload_call (client_cfg cli) upload (Some loc)] w)
            end
        end
    | _, _ =>
        (upload_answer (client_cfg cli) upload None env,
         logged [upload_call (client_cfg cli) upload None] w)
    end.
Proof.
  unfold upload_post, upload_answer, upload_call, paths_of, bind, call, ret,
    lift.
  destruct (loc_lat (meta upload)) as [lat|];
    [destruct (loc_long (meta upload)) as [lng|]|].
  - destruct (location_search env lat lng) as [[|first rest]|e];
      try reflexivity.
    simpl index0. cbv iota beta.
    destruct (location_complete env first) as [loc|e]; [|world_eq'].
    destruct (map _ (images upload)) as [|p [|q ps]]; world_eq'.
  - destruct (map _ (images upload)) as [|p [|q ps]]; reflexivity.
  - destruct (map _ (images upload)) as [|p [|q ps]]; reflexivity.
Qed.

(** X4.  When [upload_post] returns, it has made exactly one publishing
    call, as its last call: [photo_upload] of the one image path when the
    record has exactly one image, [album_upload] of all image paths in
    listing order otherwise.  The call carries a location only when both
    coordinates are set, and then it is the completed first result of the
    location search; with a coordinate missing no location call is made. *)
Theorem upload_post_returns :
  forall (cli : InstaClient) (upload : InstaUpload) (env : Env) (w w' : World)
         (x : unit),
    upload_post cli upload env w = (Ok x, w') ->
    exists (loc : option Location) (before : list event),
      w' = logged (before ++ [upload_call (client_cfg cli) upload loc]) w
      /\ upload_answer (client_cfg cli) upload loc env = Ok x
      /\ uploads (before ++ [upload_call (client_cfg cli) upload loc])
         = [upload_call (client_cfg cli) upload loc]
      /\ match loc_lat (meta upload), loc_long (meta upload) with
         | Some lat, Some lng =>
             exists first rest l,
               location_search env lat lng = Ok (first :: rest)
               /\ location_complete env first = Ok l
               /\ loc = Some l
               /\ before = [LocationSearch lat lng; LocationComplete first]
         | _, _ => loc = None /\ before = []
         end
      /\ upload_call (client_cfg cli) upload loc
         = match images upload with
           | [im] =>
               PhotoUpload [unprocessed_dir_fp (client_cfg cli);
                            py_str (id upload); IM_DIR; im]
                           (caption (meta upload)) loc
           | _ =>
               AlbumUpload (paths_of (client_cfg cli) upload)
                           (caption (meta upload)) loc
           end.
Proof.
  intros cli upload env w w' x H.
  assert (Shape : forall loc,
             uploads [upload_call (client_cfg cli) upload loc]
             = [upload_call (client_cfg cli) upload loc]
             /\ upload_call (client_cfg cli) upload loc
                = match images upload with
                  | [im] =>
                      PhotoUpload [unprocessed_dir_fp (client_cfg cli);
                                   py_str (id upload); IM_DIR; im]
                                  (caption (meta upload)) loc
                  | _ =>
                      AlbumUpload (paths_of (client_cfg cli) upload)
                                  (caption (meta upload)) loc
                  end).
  { intros loc. unfold upload_call, paths_of, uploads.
    destruct (images upload) as [|im [|im' ims]]; split; reflexivity. }
  rewrite upload_post_cases in H.
  destruct (loc_lat (meta upload)) as [lat|];
    [destruct (loc_long (meta upload)) as [lng|]|].
  - destruct (location_search env lat lng) as [[|first rest]|e] eqn:Es;
      try discriminate.
    destruct (location_complete env first) as [l|e] eqn:Ec; [|discriminate].
    injection H as Ha <-.
    exists (Some l), [LocationSearch lat lng; LocationComplete first].
    destruct (Shape (Some l)) as [S1 S2].
    split; [reflexivity|]. split; [exact Ha|]. split; [exact S1|].
    split; [|exact S2]. exists first, rest, l.
    repeat split; try reflexivity; exact Ec.
  - injection H as Ha <-. exists None, []. destruct (Shape None) as [S1 S2].
    split; [reflexivity|]. split; [exact Ha|]. split; [exact S1|].
    split; [split; reflexivity | exact S2].
  - injection H as Ha <-. exists None, []. destruct (Shape None) as [S1 S2].
    split; [reflexivity|]. split; [exact Ha|]. split; [exact S1|].
    split; [split; reflexivity | exact S2].
Qed.

(** X5.  When both coordinates are set and the location cannot be resolved
    (the search raises, finds nothing, or completing its first result
    raises), [upload_post] raises before any publishing call: an empty
    search result gives [IndexError]. *)
Theorem upload_post_location_failure :
  forall (cli : InstaClient) (upload : InstaUpload) (env : Env) (w : World)
         (lat lng : float),
    loc_lat (meta upload) = Some lat ->
    loc_long (meta upload) = Some lng ->
    match location_search env lat lng with
    | Raise e =>
        upload_post cli upload env w
        = (Raise e, logged [LocationSearch lat lng] w)
    | Ok [] =>
        upload_post cli upload env w
        = (Raise IndexError, logged [LocationSearch lat lng] w)
    | Ok (first :: _) =>
        forall e,
          location_complete env first = Raise e ->
          upload_post cli upload env w
          = (Raise e,
             logged [LocationSearch lat lng; LocationComplete first] w)
    end.
Proof.
  intros cli upload env w lat lng Hlat Hlng.
  rewrite upload_post_cases, Hlat, Hlng.
  destruct (location_search env lat lng) as [[|first rest]|e]; try reflexivity.
  intros e He. rewrite He. reflexivity.
Qed.

(** X6.  A due record that passes validation with one coordinate missing
    is published without a location: after the login the next call is the
    publishing call with no location, and no location search is made. *)
Theorem half_set_location_published_without_location :
  forall (cfg : Config) (env : Env) (w : World) (h : InstaUpload)
         (t : list InstaUpload) (s : dt.datetime)
         (cred : option string * string),
    load_all_from_parent_dir (unprocessed (fs w)) = Ok (h :: t) ->
    upload_at (meta h) = Some s ->
    dt.gt s (now_at env (ticks w)) = false ->
    validate_post h = true ->
    loc_lat (meta h) = None \/ loc_long (meta h) = None ->
    env_uname_pwd env = Ok cred ->
    login env (fst cred) (snd cred) = Ok tt ->
    exists w' last,
      try_upload cfg env w = (Ok None, w')
      /\ trace w'
         = trace w ++ [Login (fst cred) (snd cred); upload_call cfg h None; last]
      /\ (last = Rename (py_str (id h))
          \/ exists e, last = Print (ErrorUploading e)).
Proof.
  intros cfg env w h t s cred Hload Hat Hgt Hval Hhalf Hcred Hlogin.
  rewrite try_upload_cases, Hload, Hat, Hgt, Hval. cbv iota. simpl negb.
  cbv iota. rewrite publish_cases, Hcred. cbv zeta. rewrite Hlogin.
  assert (U : upload_post {| client_cfg := cfg |} h env
                (logged [Login (fst cred) (snd cred)] (tick w))
              = (upload_answer cfg h None env,
                 logged [upload_call cfg h None]
                   (logged [Login (fst cred) (snd cred)] (tick w)))).
  { rewrite upload_post_cases. simpl client_cfg.
    destruct Hhalf as [E|E]; rewrite E; [reflexivity|].
    destruct (loc_lat (meta h)); reflexivity. }
  rewrite U. destruct (upload_answer cfg h None env) as [x|e].
  - destruct (os_rename (py_str (id h)) env _) as [[y|e] w3] eqn:Er.
    + apply os_rename_moves in Er as (u & _ & _ & _ & Tr).
      exists w3, (Rename (py_str (id h))).
      split; [reflexivity|]. split; [|left; reflexivity].
      rewrite Tr. simpl. rewrite <- !app_assoc. reflexivity.
    + apply os_rename_raises in Er. subst w3.
      eexists. exists (Print (ErrorUploading e)).
      split; [reflexivity|]. split; [|right; exists e; reflexivity].
      simpl. rewrite <- !app_assoc. reflexivity.
  - eexists. exists (Print (ErrorUploading e)).
    split; [reflexivity|]. split; [|right; exists e; reflexivity].
    simpl. rewrite <- !app_assoc. reflexivity.
Qed.

End Uploading.

(** ** The loop *)

Section Looping.

Context {codec : PyInt}.

Lemma emits_ret {A : Type} (P : event -> Prop) (a : A) : emits P (ret a).
Proof.
  intros env w r w' [= <- <-]. exists []. split; [|constructor].
  symmetry. apply app_nil_r.
Qed.

Lemma emits_lift {A : Type} (P : event -> Prop) (x : result A) :
  emits P (lift x).
Proof.
  intros env w r w' [= <- <-]. exists []. split; [|constructor].
  symmetry. apply app_nil_r.
Qed.

Lemma emits_call {A : Type} (P : event -> Prop) (ev : event)
    (answer : Env -> result A) :
  P ev -> emits P (call ev answer).
Proof.
  intros HP env w r w' [= <- <-]. exists [ev]. split; [reflexivity|].
  constructor; [exact HP | constructor].
Qed.

Lemma emits_print (P : event -> Prop) (l : Line) :
  P (Print l) -> emits P (print l).
Proof.
  intros HP env w r w' [= <- <-]. exists [Print l]. split; [reflexivity|].
  constructor; [exact HP | constructor].
Qed.

Lemma emits_bind {A B : Type} (P : event -> Prop) (m : IO A) (f : A -> IO B) :
  emits P m -> (forall a, emits P (f a)) -> emits P (bind m f).
Proof.
  intros Hm Hf env w r w' H. unfold bind in H.
  destruct (m env w) as [[a|e] w1] eqn:E1.
  - destruct (Hm _ _ _ _ E1) as (evs1 & Tr1 & F1).
    destruct (Hf a _ _ _ _ H) as (evs2 & Tr2 & F2).
    exists (evs1 ++ evs2). split; [|apply Forall_app; split; assumption].
    rewrite Tr2, Tr1, app_assoc. reflexivity.
  - injection H as <- <-. exact (Hm _ _ _ _ E1).
Qed.

Lemma emits_try_except {A : Type} (P : event -> Prop) (body : IO A)
    (handler : exn -> IO A) :
  emits P body -> (forall e, emits P (handler e)) ->
  emits P (try_except body handler).
Proof.
  intros Hb Hh env w r w' H. unfold try_except in H.
  destruct (body env w) as [[a|e] w1] eqn:E1.
  - injection H as <- <-. exact (Hb _ _ _ _ E1).
  - destruct (Hb _ _ _ _ E1) as (evs1 & Tr1 & F1).
    destruct (Hh e _ _ _ _ H) as (evs2 & Tr2 & F2).
    exists (evs1 ++ evs2). split; [|apply Forall_app; split; assumption].
    rewrite Tr2, Tr1, app_assoc. reflexivity.
Qed.

Lemma emits_now (P : event -> Prop) : emits P datetime_now.
Proof.
  intros env w r w' [= <- <-]. exists []. split; [|constructor].
  simpl. symmetry. apply app_nil_r.
Qed.

Lemma emits_read_root (P : event -> Prop) (r : Root) : emits P (read_root r).
Proof.
  intros env w x w' [= <- <-]. exists []. split; [|constructor].
  symmetry. apply app_nil_r.
Qed.

Lemma emits_os_rename (P : event -> Prop) (name : string) :
  P (Rename name) -> emits P (os_rename name).
Proof.
  intros HP env w r w' H. destruct r as [x|e].
  - apply os_rename_moves in H as (_ & _ & _ & _ & Tr).
    exists [Rename name]. split; [exact Tr|].
    constructor; [exact HP | constructor].
  - apply os_rename_raises in H. subst w'. exists [].
    split; [symmetry; apply app_nil_r | constructor].
Qed.

Lemma emits_upload_post (P : event -> Prop) (cli : InstaClient)
    (upload : InstaUpload) :
  (forall ev, is_client_call ev = true -> P ev) ->
  emits P (upload_post cli upload).
Proof.
  intros HP. unfold upload_post. apply emits_bind.
  - destruct (loc_lat (meta upload)) as [lat|];
      [destruct (loc_long (meta upload)) as [lng|]|]; try apply emits_ret.
    apply emits_bind; [apply emits_call, HP; reflexivity|]. intros found.
    apply emits_bind; [apply emits_lift|]. intros loc.
    apply emits_bind; [apply emits_call, HP; reflexivity|]. intros loc'.
    apply emits_ret.
  - intros loc.
    destruct (map _ (images upload)) as [|p [|q ps]];
      apply emits_call, HP; reflexivity.
Qed.

(** A dispatch cycle emits only status lines, client calls and renames. *)
Lemma emits_try_upload (P : event -> Prop) (cfg : Config) :
  (forall l, P (Print l)) -> (forall name, P (Rename name)) ->
  (forall ev, is_client_call ev = true -> P ev) ->
  emits P (try_upload cfg).
Proof.
  intros HPr HRe HCl. unfold try_upload.
  apply emits_bind; [apply emits_read_root|]. intros d.
  apply emits_bind; [apply emits_lift|]. intros [|upload rest].
  - apply emits_bind; [apply emits_print, HPr | intros; apply emits_ret].
  - apply emits_bind; [apply emits_now|]. intros now.
    apply emits_bind; [apply emits_lift|]. intros [|].
    + apply emits_bind; [apply emits_print, HPr|]. intros _.
      apply emits_bind; [apply emits_now|]. intros now'.
      apply emits_bind; [apply emits_lift | intros; apply emits_ret].
    + destruct (negb (validate_post upload)).
      * apply emits_bind; [apply emits_print, HPr | intros; apply emits_ret].
      * apply emits_bind.
        { intros env w r w' [= <- <-]. exists [].
          split; [symmetry; apply app_nil_r | constructor]. }
        intros cred. apply emits_bind.
        { unfold InstaClient_init.
          apply emits_bind; [apply emits_call, HCl; reflexivity|].
          intros; apply emits_ret. }
        intros cli. apply emits_try_except.
        { apply emits_bind; [apply emits_upload_post, HCl|]. intros _.
          apply emits_bind; [apply emits_os_rename, HRe|].
          intros; apply emits_ret. }
        intros e.
        apply emits_bind; [apply emits_print, HPr | intros; apply emits_ret].
Qed.

Lemma sleeps_app (a b : list event) : sleeps (a ++ b) = sleeps a ++ sleeps b.
Proof.
  induction a as [|ev a IH]; [reflexivity|].
  destruct ev; simpl; rewrite ?IH; reflexivity.
Qed.

Lemma sleeps_none (evs : list event) : Forall not_sleep evs -> sleeps evs = [].
Proof.
  induction 1 as [|ev evs Hev _ IH]; [reflexivity|].
  destruct ev; simpl in *; try exact IH. contradiction.
Qed.

Lemma try_upload_no_sleep (cfg : Config) (env : Env) (w w' : World)
    (r : result (option dt.timedelta)) :
  try_upload cfg env w = (r, w') ->
  exists evs, trace w' = trace w ++ evs /\ sleeps evs = [].
Proof.
  intros H.
  assert (E : emits not_sleep (try_upload cfg)).
  { apply emits_try_upload.
    - intros l. exact I.
    - intros name. exact I.
    - intros ev. destruct ev; simpl; intros; try exact I; discriminate. }
  destruct (E _ _ _ _ H) as (evs & Tr & F).
  exists evs. split; [exact Tr | apply sleeps_none, F].
Qed.

(** The sleep that ends a turn: at most one, between 0 and [d]. *)
Lemma sleep_step (bound d : dt.timedelta) (w w1 w' : World) (evs : list event)
    (r : result unit) :
  d <= bound ->
  trace w1 = trace w ++ evs -> sleeps evs = [] ->
  (if d <? 0 then (Raise ValueError, logged [Print (SleepingFor d)] w1)
   else if dt.sleep_max <? d then
     (Raise OverflowError, logged [Print (SleepingFor d)] w1)
   else (Ok tt, logged [Print (SleepingFor d); Sleep d] w1))
  = (r, w') ->
  exists evs0,
    trace w' = trace w ++ evs0
    /\ Forall (fun d0 => 0 <= d0 <= bound) (sleeps evs0)
    /\ (forall x, r = Ok x -> List.length (sleeps evs0) = 1%nat).
Proof.
  intros Hd Tr Sl.
  destruct (Z.ltb_spec d 0) as [Hneg|Hpos];
    [|destruct (Z.ltb_spec dt.sleep_max d) as [Hbig|Hsmall]];
    intros [= <- <-].
  - exists (evs ++ [Print (SleepingFor d)]).
    simpl. rewrite Tr, app_assoc, sleeps_app, Sl. simpl.
    split; [reflexivity|]. split; [constructor | discriminate].
  - exists (evs ++ [Print (SleepingFor d)]).
    simpl. rewrite Tr, app_assoc, sleeps_app, Sl. simpl.
    split; [reflexivity|]. split; [constructor | discriminate].
  - exists (evs ++ [Print (SleepingFor d); Sleep d]).
    simpl. rewrite Tr, app_assoc, sleeps_app, Sl. simpl.
    split; [reflexivity|]. split; [|reflexivity].
    constructor; [lia | constructor].
Qed.

(** One turn sleeps at most once, for a duration between 0 and the check
    interval. *)
Lemma cron_turn_sleeps (cfg : Config) (env : Env) (w w' : World)
    (r : result unit) :
  cron_turn cfg env w = (r, w') ->
  exists evs,
    trace w' = trace w ++ evs
    /\ Forall (fun d => 0 <= d <= check_interval cfg) (sleeps evs)
    /\ (forall x, r = Ok x -> List.length (sleeps evs) = 1%nat).
Proof.
  rewrite cron_turn_cases, cron_sleep_for_cases.
  destruct (try_upload cfg env w) as [[[d|]|e] w1] eqn:T;
    destruct (try_upload_no_sleep _ _ _ _ _ T) as (evs & Tr & Sl).
  - apply (sleep_step _ _ w w1 w' evs r); [lia | exact Tr | exact Sl].
  - apply (sleep_step _ _ w w1 w' evs r); [lia | exact Tr | exact Sl].
  - intros [= <- <-]. exists evs. rewrite Sl.
    split; [exact Tr|]. split; [constructor | discriminate].
Qed.

(** X7.  However long the loop runs and whatever the environment does, it
    never sleeps longer than the check interval and never for a negative
    time; while it has not raised it has slept exactly once per turn. *)
Theorem cron_sleeps_at_most_check_interval :
  forall (turns : nat) (envs : nat -> Env) (k : nat) (cfg : Config)
         (w w' : World) (r : result unit),
    run_cron turns envs k cfg w = (r, w') ->
    exists evs,
      trace w' = trace w ++ evs
      /\ Forall (fun d => 0 <= d <= check_interval cfg) (sleeps evs)
      /\ (r = Ok tt -> List.length (sleeps evs) = turns).
Proof.
  induction turns as [|turns IH]; intros envs k cfg w w' r H; simpl in H.
  - injection H as <- <-. exists []. rewrite app_nil_r.
    split; [reflexivity|]. split; [constructor | reflexivity].
  - destruct (cron_turn cfg (envs k) w) as [[x|e] w1] eqn:T;
      destruct (cron_turn_sleeps _ _ _ _ _ T) as (evs1 & Tr1 & F1 & L1).
    + destruct (IH _ _ _ _ _ _ H) as (evs2 & Tr2 & F2 & L2).
      exists (evs1 ++ evs2). rewrite Tr2, Tr1, app_assoc, sleeps_app.
      split; [reflexivity|]. split; [apply Forall_app; split; assumption|].
      intros E. rewrite length_app, (L1 x eq_refl), (L2 E). reflexivity.
    + injection H as <- <-. exists evs1.
      split; [exact Tr1|]. split; [exact F1 | discriminate].
Qed.

Lemma uploads_app (a b : list event) : uploads (a ++ b) = uploads a ++ uploads b.
Proof. unfold uploads. apply filter_app. Qed.

Lemma upload_call_is_upload (cfg : Config) (upload : InstaUpload)
    (loc : option Location) :
  uploads [upload_call cfg upload loc] = [upload_call cfg upload loc].
Proof.
  unfold upload_call, uploads.
  destruct (paths_of cfg upload) as [|p [|q ps]]; reflexivity.
Qed.

(** [upload_post] makes at most one publishing call, for its record. *)
Lemma upload_post_uploads (cli : InstaClient) (upload : InstaUpload)
    (env : Env) (w w' : World) (r : result unit) :
  upload_post cli upload env w = (r, w') ->
  exists evs,
    w' = logged evs w
    /\ (uploads evs = []
        \/ exists loc, uploads evs = [upload_call (client_cfg cli) upload loc]).
Proof.
  rewrite upload_post_cases.
  destruct (loc_lat (meta upload)) as [lat|];
    [destruct (loc_long (meta upload)) as [lng|]|].
  - destruct (location_search env lat lng) as [[|first rest]|e].
    + intros [= <- <-]. eexists. split; [reflexivity | left; reflexivity].
    + destruct (location_complete env first) as [loc|e]; intros [= <- <-].
      * eexists. split; [reflexivity|]. right. exists (Some loc).
        change [LocationSearch lat lng; LocationComplete first;
                upload_call (client_cfg cli) upload (Some loc)]
          with ([LocationSearch lat lng; LocationComplete first]
                ++ [upload_call (client_cfg cli) upload (Some loc)]).
        rewrite uploads_app. apply upload_call_is_upload.
      * eexists. split; [reflexivity | left; reflexivity].
    + intros [= <- <-]. eexists. split; [reflexivity | left; reflexivity].
  - intros [= <- <-]. eexists. split; [reflexivity|]. right. exists None.
    apply upload_call_is_upload.
  - intros [= <- <-]. eexists. split; [reflexivity|]. right. exists None.
    apply upload_call_is_upload.
Qed.

(** [publish] makes at most one publishing call, for its record. *)
Lemma publish_uploads (cfg : Config) (upload : InstaUpload) (env : Env)
    (w w' : World) (r : result (option dt.timedelta)) :
  publish cfg upload env w = (r, w') ->
  exists evs,
    trace w' = trace w ++ evs
    /\ (uploads evs = []
        \/ exists loc, uploads evs = [upload_call cfg upload loc]).
Proof.
  rewrite publish_cases.
  destruct (env_uname_pwd env) as [cred|e].
  2:{ intros [= <- <-]. exists []. rewrite app_nil_r.
      split; [reflexivity | left; reflexivity]. }
  cbv zeta. destruct (login env (fst cred) (snd cred)) as [x|e].
  2:{ intros [= <- <-]. eexists. split; [reflexivity | left; reflexivity]. }
  destruct (upload_post _ upload env _) as [[y|e] w2] eqn:U;
    apply upload_post_uploads in U as (evs & -> & Hup); simpl client_cfg in Hup.
  - destruct (os_rename _ env _) as [[z|e] w3] eqn:R.
    + apply os_rename_moves in R as (_ & _ & _ & _ & Tr).
      intros [= <- <-].
      exists ([Login (fst cred) (snd cred)] ++ evs ++ [Rename (py_str (id upload))]).
      split; [rewrite Tr; simpl; rewrite <- !app_assoc; reflexivity|].
      rewrite !uploads_app. simpl. rewrite app_nil_r. exact Hup.
    + apply os_rename_raises in R. subst w3. intros [= <- <-].
      exists ([Login (fst cred) (snd cred)] ++ evs
              ++ [Print (ErrorUploading e)]).
      split; [simpl; rewrite <- !app_assoc; reflexivity|].
      rewrite !uploads_app. simpl. rewrite app_nil_r. exact Hup.
  - intros [= <- <-].
    exists ([Login (fst cred) (snd cred)] ++ evs ++ [Print (ErrorUploading e)]).
    split; [simpl; rewrite <- !app_assoc; reflexivity|].
    rewrite !uploads_app. simpl. rewrite app_nil_r. exact Hup.
Qed.

(** X8.  A dispatch cycle touches the files or calls the client only for
    a head record that is due and valid, and it makes at most one
    publishing call, which is the one for that head record: later records
    are never published ahead of the head, and nothing is published from an
    empty queue, for a head that is not due, or for an invalid head. *)
Theorem only_due_valid_head_is_published :
  forall (cfg : Config) (env : Env) (w w' : World)
         (r : result (option dt.timedelta)) (evs : list event),
    try_upload cfg env w = (r, w') ->
    trace w' = trace w ++ evs ->
    (fs w' = fs w /\ existsb is_client_call evs = false)
    \/ exists h t (s : dt.datetime),
         load_all_from_parent_dir (unprocessed (fs w)) = Ok (h :: t)
         /\ upload_at (meta h) = Some s
         /\ dt.gt s (now_at env (ticks w)) = false
         /\ validate_post h = true
         /\ (uploads evs = []
             \/ exists loc, uploads evs = [upload_call cfg h loc]).
Proof.
  intros cfg env w w' r evs H Tr. rewrite try_upload_cases in H.
  assert (Quiet : forall line,
             trace w' = trace (logged [Print line] w) ->
             fs w' = fs w ->
             fs w' = fs w /\ existsb is_client_call evs = false).
  { intros line Tr' F. split; [exact F|].
    simpl in Tr'. rewrite Tr in Tr'. apply app_inv_head in Tr'. subst evs.
    reflexivity. }
  destruct (load_all_from_parent_dir (unprocessed (fs w)))
    as [[|h t]|e] eqn:L.
  - injection H as _ <-.
    left. apply (Quiet NoUploads); reflexivity.
  - destruct (upload_at (meta h)) as [[s|local off]|] eqn:A.
    + destruct (dt.gt s (now_at env (ticks w))) eqn:G.
      * injection H as _ <-.
        left. apply (Quiet NotReady); reflexivity.
      * destruct (validate_post h) eqn:V; simpl negb in H; cbv iota in H.
        -- right. exists h, t, s. repeat split; try assumption || reflexivity.
           apply publish_uploads in H as (evs' & Tr' & Hup).
           simpl in Tr'. rewrite Tr in Tr'. apply app_inv_head in Tr'.
           subst evs'. exact Hup.
        -- injection H as _ <-.
           left. apply (Quiet InvalidPost); reflexivity.
    + injection H as _ <-. left. split; [reflexivity|].
      simpl in Tr. rewrite <- (app_nil_r (trace w)) in Tr at 1.
      apply app_inv_head in Tr. subst evs. reflexivity.
    + injection H as _ <-. left. split; [reflexivity|].
      simpl in Tr. rewrite <- (app_nil_r (trace w)) in Tr at 1.
      apply app_inv_head in Tr. subst evs. reflexivity.
  - injection H as _ <-. left. split; [reflexivity|].
    rewrite <- (app_nil_r (trace w)) in Tr at 1.
    apply app_inv_head in Tr. subst evs. reflexivity.
Qed.

(** A cycle reads the clock unless the queue fails to load or is empty. *)
Lemma try_upload_ticks (cfg : Config) (env : Env) (w : World) :
  match load_all_from_parent_dir (unprocessed (fs w)) with
  | Ok (_ :: _) => False
  | _ => True
  end
  \/ (ticks w < ticks (snd (try_upload cfg env w)))%nat.
Proof.
  rewrite try_upload_cases.
  destruct (load_all_from_parent_dir (unprocessed (fs w))) as [[|h t]|e];
    try (left; exact I).
  right. destruct (upload_at (meta h)) as [[s|local off]|];
    [|simpl; lia|simpl; lia].
  destruct (dt.gt s (now_at env (ticks w))); [simpl; lia|].
  destruct (negb (validate_post h)); [simpl; lia|].
  destruct (publish cfg h env (tick w)) as [r w2] eqn:P.
  simpl.
  rewrite publish_cases in P.
  destruct (env_uname_pwd env) as [cred|e];
    [|injection P as _ <-; simpl; lia].
  cbv zeta in P.
  destruct (login env (fst cred) (snd cred));
    [|injection P as _ <-; simpl; lia].
  destruct (upload_post _ h env _) as [[y|e] w3] eqn:U;
    apply upload_post_quiet in U as (_ & Tu & _); simpl in Tu.
  - destruct (os_rename _ env w3) as [[z|e] w4] eqn:R.
    + injection P as _ <-. unfold os_rename in R.
      destruct (rename_fault env); [discriminate|].
      destruct (lookup _ (unprocessed (fs w3))); [|discriminate].
      destruct (lookup _ (processed (fs w3))) as [old|].
      * destruct (is_empty_dir old); [|discriminate].
        injection R as _ <-. simpl. lia.
      * injection R as _ <-. simpl. lia.
    + apply os_rename_raises in R. subst w4.
      injection P as _ <-. simpl. lia.
  - injection P as _ <-. simpl. lia.
Qed.

(** X9.  A queue root loads as the empty list exactly when it has no
    entry; on an empty pending root the cycle prints "No uploads to
    process", returns no wait, reads no clock and calls nothing, and the loop
    asks to sleep for the check interval. *)
Theorem empty_queue_idles :
  forall (cfg : Config) (env : Env) (w : World),
    (load_all_from_parent_dir (unprocessed (fs w)) = Ok []
     <-> unprocessed (fs w) = [])
    /\ match unprocessed (fs w) with
       | [] =>
           try_upload cfg env w = (Ok None, logged [Print NoUploads] w)
           /\ cron_sleep_for cfg env w
              = (Ok (check_interval cfg), logged [Print NoUploads] w)
       | _ :: _ =>
           try_upload cfg env w <> (Ok None, logged [Print NoUploads] w)
       end.
Proof.
  intros cfg env w.
  assert (E : load_all_from_parent_dir (unprocessed (fs w)) = Ok []
              <-> unprocessed (fs w) = []).
  { split.
    - intros L. apply load_all_inv in L as (us & Hus & E).
      apply load_each_length in Hus.
      pose proof (Permutation_length (sort_by_id_perm us)) as P.
      rewrite <- E in P. simpl in P. unfold names in Hus.
      rewrite length_map in Hus.
      destruct (unprocessed (fs w)); [reflexivity | simpl in *; lia].
    - intros ->. reflexivity. }
  split; [exact E|].
  destruct (unprocessed (fs w)) as [|entry rest] eqn:U.
  - assert (T : try_upload cfg env w = (Ok None, logged [Print NoUploads] w))
      by (rewrite try_upload_cases, U; reflexivity).
    split; [exact T|]. rewrite cron_sleep_for_cases, T. reflexivity.
  - intros H.
    assert (Tk : ticks (snd (try_upload cfg env w)) = ticks w)
      by (rewrite H; reflexivity).
    rewrite try_upload_cases, U in H.
    destruct (load_all_from_parent_dir (entry :: rest)) as [[|h t]|e] eqn:L.
    + pose proof (proj1 E eq_refl). discriminate.
    + destruct (try_upload_ticks cfg env w) as [Tk'|Tk']; [|lia].
      rewrite U, L in Tk'. exact Tk'.
    + discriminate.
Qed.

(** X10.  An invalid head record that is due blocks the queue: with a
    check interval that [time.sleep] accepts (not negative and not above its
    longest sleep), however many turns the loop runs, every turn prints
    "Invalid post", sleeps for the check interval and changes no file; the
    records behind the head are never looked at, and no call to the client
    is made. *)
Theorem invalid_head_blocks_queue :
  forall (turns : nat) (envs : nat -> Env) (k : nat) (cfg : Config)
         (w : World) (h : InstaUpload) (t : list InstaUpload)
         (s : dt.datetime),
    load_all_from_parent_dir (unprocessed (fs w)) = Ok (h :: t) ->
    upload_at (meta h) = Some s ->
    validate_post h = false ->
    (forall j n, dt.gt s (now_at (envs j) n) = false) ->
    0 <= check_interval cfg <= dt.sleep_max ->
    run_cron turns envs k cfg w
    = (Ok tt,
       {| fs := fs w;
          ticks := ticks w + turns;
          trace := trace w ++ rejected_turns turns (check_interval cfg) |}).
Proof.
  induction turns as [|turns IH]; intros envs k cfg w h t s L A V G C.
  - simpl. rewrite Nat.add_0_r, app_nil_r. destruct w; reflexivity.
  - simpl run_cron.
    rewrite cron_turn_cases, cron_sleep_for_cases, try_upload_cases, L, A, G, V.
    simpl negb. cbv iota.
    destruct (Z.ltb_spec (check_interval cfg) 0) as [Hneg|_]; [lia|].
    destruct (Z.ltb_spec dt.sleep_max (check_interval cfg)) as [Hbig|_];
      [lia|].
    rewrite (IH envs (S k) cfg _ h t s); try assumption.
    simpl. f_equal. f_equal; [lia|]. rewrite <- !app_assoc. reflexivity.
Qed.

End Looping.

(** ** The queue after a publish *)

Section Advancing.

Context {codec : PyInt}.

Lemma NoDup_map_inj {A B : Type} (f : A -> B) (l : list A) :
  NoDup (map f l) ->
  forall a b, In a l -> In b l -> f a = f b -> a = b.
Proof.
  induction l as [|x l IH]; simpl; intros ND a b Ha Hb E; [contradiction|].
  inversion ND as [|? ? Hx ND']; subst.
  destruct Ha as [->|Ha]; destruct Hb as [->|Hb].
  - reflexivity.
  - exfalso. apply Hx. rewrite E. apply in_map, Hb.
  - exfalso. apply Hx. rewrite <- E. apply in_map, Ha.
  - apply IH; assumption.
Qed.

Lemma NoDup_map_Some {A : Type} (l : list A) :
  NoDup l -> NoDup (map Some l).
Proof.
  induction 1 as [|a l Ha _ IH]; simpl; constructor; [|exact IH].
  rewrite in_map_iff. intros (b & [= ->] & Hb). contradiction.
Qed.

Lemma load_each_parse (d : Dir) (fps : list string) :
  forall us,
    load_each d fps = Ok us -> map py_int fps = map Some (map id us).
Proof.
  induction fps as [|fp fps IH]; intros us H.
  - simpl in H. injection H as <-. reflexivity.
  - apply load_each_cons in H as (i & u & us' & Ei & Eu & H & ->).
    simpl. rewrite (IH _ H), Ei, (load_from_dir_id _ _ _ Eu). reflexivity.
Qed.

Lemma load_from_dir_found (i : Z) (d : Dir) (u : InstaUpload) :
  load_from_dir i d = Ok u -> exists x, lookup (py_str i) d = Some x.
Proof.
  unfold load_from_dir, from_fp.
  destruct (lookup (py_str i) d) as [x|]; [|discriminate].
  intros _. exists x. reflexivity.
Qed.

Lemma lookup_in_names (name : string) (d : Dir) (u : UploadDir) :
  lookup name d = Some u -> In name (names d).
Proof.
  intros H. apply lookup_some_in in H. unfold names.
  change name with (fst (name, u)). apply in_map, H.
Qed.

(** In a queue that loads with pairwise distinct ids, no two entries parse
    to the same id. *)
Lemma distinct_ids_distinct_parses (d : Dir) (rs : list InstaUpload) :
  load_all_from_parent_dir d = Ok rs ->
  NoDup (map id rs) ->
  NoDup (map py_int (names d)).
Proof.
  intros H ND. apply load_all_inv in H as (us & Hus & ->).
  rewrite (load_each_parse _ _ _ Hus). apply NoDup_map_Some.
  eapply Permutation_NoDup; [|exact ND].
  apply Permutation_map, Permutation_sym, sort_by_id_perm.
Qed.

Lemma NoDup_of_map {A B : Type} (f : A -> B) (l : list A) :
  NoDup (map f l) -> NoDup l.
Proof.
  induction l as [|a l IH]; intros ND; [constructor|].
  inversion ND as [|? ? Ha ND']; subst.
  constructor; [|apply IH, ND'].
  intros Hin. apply Ha. apply in_map, Hin.
Qed.

Lemma distinct_ids_distinct_names (d : Dir) (rs : list InstaUpload) :
  load_all_from_parent_dir d = Ok rs ->
  NoDup (map id rs) ->
  NoDup (names d).
Proof.
  intros H ND. apply (NoDup_of_map py_int).
  eapply distinct_ids_distinct_parses; eassumption.
Qed.

(** X11.  A queue that loads with pairwise distinct ids has every entry
    named by the print of the id it parses to: a directory named "01"
    beside "1", or alone, either loads the directory "1" a second time or
    makes the enumeration raise. *)
Theorem distinct_ids_have_canonical_names :
  forall (d : Dir) (rs : list InstaUpload),
    int_str_roundtrip ->
    load_all_from_parent_dir d = Ok rs ->
    NoDup (map id rs) ->
    Forall (fun fp => exists i, py_int fp = Some i /\ py_str i = fp) (names d)
    /\ NoDup (names d).
Proof.
  intros d rs RT H ND.
  pose proof (distinct_ids_distinct_parses d rs H ND) as NDp.
  split; [|eapply distinct_ids_distinct_names; eassumption].
  apply load_all_inv in H as (us & Hus & ->).
  apply Forall_forall. intros fp Hfp.
  destruct (load_each_in _ _ _ _ Hus Hfp) as (u & Hu & E).
  exists (id u). split; [exact E|].
  pose proof (load_each_self _ _ _ Hus) as Hself.
  rewrite Forall_forall in Hself.
  destruct (load_from_dir_found _ _ _ (Hself _ Hu)) as [x Hx].
  apply lookup_in_names in Hx.
  apply (NoDup_map_inj py_int (names d) NDp); [exact Hx | exact Hfp|].
  rewrite RT, E. reflexivity.
Qed.

Lemma remove_perm (name : string) (d : Dir) (u : UploadDir) :
  lookup name d = Some u -> Permutation d ((name, u) :: remove name d).
Proof.
  induction d as [|[n v] d IH]; simpl; [discriminate|].
  destruct (String.eqb_spec n name) as [E|N].
  - intros [= ->]. subst n. apply Permutation_refl.
  - intros H. eapply perm_trans; [apply perm_skip, IH, H | apply perm_swap].
Qed.

Lemma lookup_remove_other (name other : string) (d : Dir) :
  other <> name -> lookup other (remove name d) = lookup other d.
Proof.
  intros N. induction d as [|[n v] d IH]; simpl; [reflexivity|].
  destruct (String.eqb_spec n name) as [E|N'].
  - subst n. destruct (String.eqb_spec name other) as [E'|_];
      [congruence | reflexivity].
  - simpl. rewrite IH. reflexivity.
Qed.

Lemma lookup_remove_same (name : string) (d : Dir) :
  NoDup (names d) -> lookup name (remove name d) = None.
Proof.
  induction d as [|[n v] d IH]; simpl; intros ND; [reflexivity|].
  inversion ND as [|? ? Hn ND']; subst.
  destruct (String.eqb_spec n name) as [E|N].
  - subst n. apply lookup_none. exact Hn.
  - simpl. destruct (String.eqb_spec n name); [contradiction|]. apply IH, ND'.
Qed.

Lemma load_each_ext_in (d d' : Dir) (fps : list string) :
  (forall fp i, In fp fps -> py_int fp = Some i ->
                load_from_dir i d' = load_from_dir i d) ->
  load_each d' fps = load_each d fps.
Proof.
  induction fps as [|fp fps IH]; intros E; simpl; [reflexivity|].
  destruct (py_int fp) as [i|] eqn:Ei; [|reflexivity].
  rewrite (E fp i (or_introl eq_refl) Ei), IH; [reflexivity|].
  intros fp' i' Hin. apply E. right. exact Hin.
Qed.

(** Without the directory of its head record, a queue of distinct ids loads
    as its tail. *)
Lemma load_all_without_head (d : Dir) (h : InstaUpload)
    (t : list InstaUpload) :
  int_str_roundtrip ->
  load_all_from_parent_dir d = Ok (h :: t) ->
  NoDup (map id (h :: t)) ->
  load_all_from_parent_dir (remove (py_str (id h)) d) = Ok t.
Proof.
  intros RT H ND.
  pose proof (distinct_ids_distinct_names d (h :: t) H ND) as NDn.
  pose proof (load_all_sorted_result _ _ H) as Sorted.
  apply load_all_inv in H as (us & Hus & Es).
  pose proof (sort_by_id_perm us) as Pus. rewrite <- Es in Pus.
  assert (Hh : In h us)
    by (apply (Permutation_in _ (Permutation_sym Pus)); left; reflexivity).
  pose proof (load_each_self _ _ _ Hus) as Hself.
  rewrite Forall_forall in Hself.
  destruct (load_from_dir_found _ _ _ (Hself _ Hh)) as [x Hx].
  set (name := py_str (id h)) in *.
  pose proof (remove_perm _ _ _ Hx) as P.
  assert (Pn : Permutation (names d) (name :: names (remove name d)))
    by (apply (Permutation_map fst) in P; exact P).
  destruct (load_each_perm d _ _ Pn _ Hus) as (us1 & Hus1 & P1).
  apply load_each_cons in Hus1 as (i & h' & us' & Ei & Eh' & Hus' & ->).
  unfold name in Ei. rewrite RT in Ei. injection Ei as <-.
  rewrite (Hself _ Hh) in Eh'. injection Eh' as <-.
  assert (ND1 : NoDup (map id (h :: us'))).
  { eapply Permutation_NoDup; [|exact ND].
    apply Permutation_map.
    eapply perm_trans; [apply Permutation_sym, Pus | exact P1]. }
  assert (E : load_each (remove name d) (names (remove name d)) = Ok us').
  { rewrite <- Hus'. apply load_each_ext_in. intros fp i Hfp Ei.
    destruct (load_each_in _ _ _ _ Hus' Hfp) as (u' & Hu' & Eu').
    rewrite Ei in Eu'. injection Eu' as ->.
    unfold load_from_dir, from_fp, listdir_ims.
    rewrite lookup_remove_other; [reflexivity|].
    intros Eq. apply (py_str_inj _ _ RT) in Eq.
    simpl in ND1. inversion ND1 as [|? ? Hnot _]; subst.
    apply Hnot. rewrite <- Eq. apply in_map, Hu'. }
  unfold load_all_from_parent_dir. rewrite E. f_equal.
  inversion Sorted as [|? ? St _]; subst.
  assert (Pt : Permutation us' t).
  { apply Permutation_cons_inv with (a := h).
    eapply perm_trans; [apply Permutation_sym, P1 | exact Pus]. }
  apply sorted_perm_unique; [apply sort_by_id_sorted | exact St | |].
  - eapply perm_trans; [apply Permutation_sym, sort_by_id_perm | exact Pt].
  - intros a b Ha Hb. 
    apply (Permutation_in _ (Permutation_sym (sort_by_id_perm us'))) in Ha, Hb.
    simpl in ND1. inversion ND1; subst.
    apply (NoDup_map_inj id us'); assumption.
Qed.

(** X12.  When the head record is due and valid, the client is
    constructed, [upload_post] returns, the operating system reports no
    error and the published root has no directory of that name, the cycle
    returns no wait and the whole directory of the head record is under the
    published root and no longer under the pending root; with pairwise
    distinct ids the pending queue then loads as the former tail, so the
    next cycle inspects the next record. *)
Theorem published_head_leaves_queue :
  forall (cfg : Config) (env : Env) (w w2 : World) (h : InstaUpload)
         (t : list InstaUpload) (s : dt.datetime)
         (cred : option string * string),
    int_str_roundtrip ->
    load_all_from_parent_dir (unprocessed (fs w)) = Ok (h :: t) ->
    NoDup (map id (h :: t)) ->
    upload_at (meta h) = Some s ->
    dt.gt s (now_at env (ticks w)) = false ->
    validate_post h = true ->
    env_uname_pwd env = Ok cred ->
    login env (fst cred) (snd cred) = Ok tt ->
    upload_post {| client_cfg := cfg |} h env
      (logged [Login (fst cred) (snd cred)] (tick w)) = (Ok tt, w2) ->
    rename_fault env = None ->
    lookup (py_str (id h)) (processed (fs w)) = None ->
    exists u,
      lookup (py_str (id h)) (unprocessed (fs w)) = Some u
      /\ try_upload cfg env w
         = (Ok None,
            {| fs := {| unprocessed :=
                          remove (py_str (id h)) (unprocessed (fs w));
                        processed :=
                          processed (fs w) ++ [(py_str (id h), u)] |};
               ticks := S (ticks w);
               trace := trace w2 ++ [Rename (py_str (id h))] |})
      /\ lookup (py_str (id h))
                (remove (py_str (id h)) (unprocessed (fs w))) = None
      /\ load_all_from_parent_dir
           (remove (py_str (id h)) (unprocessed (fs w))) = Ok t.
Proof.
  intros cfg env w w2 h t s cred RT L ND A G V Hcred Hlogin Hup Hfault Hfree.
  pose proof (distinct_ids_distinct_names _ _ L ND) as NDn.
  pose proof (load_all_without_head _ _ _ RT L ND) as Ltail.
  pose proof L as L'. apply load_all_inv in L' as (us & Hus & Es).
  assert (Hh : In h us).
  { apply (Permutation_in _ (Permutation_sym (sort_by_id_perm us))).
    rewrite <- Es. left. reflexivity. }
  pose proof (load_each_self _ _ _ Hus) as Hself.
  rewrite Forall_forall in Hself.
  destruct (load_from_dir_found _ _ _ (Hself _ Hh)) as [u Hu].
  exists u. split; [exact Hu|]. split; [|split].
  - rewrite try_upload_cases, L, A, G, V. simpl negb. cbv iota.
    rewrite publish_cases, Hcred. cbv zeta. rewrite Hlogin, Hup.
    pose proof (upload_post_quiet _ _ _ _ _ _ Hup) as (F2 & T2 & _).
    simpl in F2, T2.
    unfold os_rename. rewrite Hfault, F2, Hu, Hfree, T2. reflexivity.
  - apply lookup_remove_same, NDn.
  - exact Ltail.
Qed.

Lemma lookup_app (name : string) (d e : Dir) :
  lookup name (d ++ e)
  = match lookup name d with
    | Some u => Some u
    | None => lookup name e
    end.
Proof.
  induction d as [|[n v] d IH]; simpl; [reflexivity|].
  destruct (String.eqb n name); [reflexivity | exact IH].
Qed.

Lemma lookup_update_other (name other : string) (f : UploadDir -> UploadDir)
    (d : Dir) :
  other <> name -> lookup other (update name f d) = lookup other d.
Proof.
  intros N. induction d as [|[n v] d IH]; simpl; [reflexivity|].
  destruct (String.eqb_spec n name) as [E|N']; simpl.
  - subst n. destruct (String.eqb_spec name other); [congruence | reflexivity].
  - rewrite IH. reflexivity.
Qed.

(** What a cycle does to the files: nothing, or one whole move. *)
Lemma try_upload_fs (cfg : Config) (env : Env) (w w' : World)
    (r : result (option dt.timedelta)) :
  try_upload cfg env w = (r, w') ->
  fs w' = fs w
  \/ exists name x,
       lookup name (unprocessed (fs w)) = Some x
       /\ unprocessed (fs w') = remove name (unprocessed (fs w))
       /\ (lookup name (processed (fs w)) = None
           /\ processed (fs w') = processed (fs w) ++ [(name, x)]
           \/ exists old,
                lookup name (processed (fs w)) = Some old
                /\ is_empty_dir old = true
                /\ processed (fs w')
                   = update name (fun _ => x) (processed (fs w))).
Proof.
  rewrite try_upload_cases.
  destruct (load_all_from_parent_dir (unprocessed (fs w))) as [[|h t]|e];
    try (intros [= _ <-]; left; reflexivity).
  destruct (upload_at (meta h)) as [[s|local off]|];
    [|intros [= _ <-]; left; reflexivity
     |intros [= _ <-]; left; reflexivity].
  destruct (dt.gt s (now_at env (ticks w)));
    [intros [= _ <-]; left; reflexivity|].
  destruct (negb (validate_post h)); [intros [= _ <-]; left; reflexivity|].
  rewrite publish_cases.
  destruct (env_uname_pwd env) as [cred|e];
    [|intros [= _ <-]; left; reflexivity].
  cbv zeta.
  destruct (login env (fst cred) (snd cred));
    [|intros [= _ <-]; left; reflexivity].
  destruct (upload_post _ h env _) as [[y|e] w2] eqn:U;
    apply upload_post_quiet in U as (F2 & _ & _); simpl in F2;
    [|intros [= _ <-]; left; exact F2].
  destruct (os_rename _ env w2) as [[z|e] w3] eqn:R.
  - intros [= _ <-]. right. unfold os_rename in R.
    destruct (rename_fault env); [discriminate|].
    rewrite F2 in R.
    destruct (lookup _ (unprocessed (fs w))) as [x|] eqn:Lx; [|discriminate].
    exists (py_str (id h)), x. split; [exact Lx|].
    destruct (lookup _ (processed (fs w))) as [old|] eqn:Lo.
    + destruct (is_empty_dir old) eqn:Em; [|discriminate].
      injection R as _ <-. simpl. split; [reflexivity|].
      right. exists old. repeat split; assumption || reflexivity.
    + injection R as _ <-. simpl. split; [reflexivity|].
      left. split; reflexivity.
  - apply os_rename_raises in R. subst w3.
    intros [= _ <-]. left. exact F2.
Qed.

(** X13.  A dispatch cycle never loses an upload: a directory under the
    pending root is afterwards still there or, whole, under the published
    root; a directory under the published root that is not empty stays as
    it is. *)
Theorem no_upload_is_lost :
  forall (cfg : Config) (env : Env) (w w' : World)
         (r : result (option dt.timedelta)) (name : string) (u : UploadDir),
    try_upload cfg env w = (r, w') ->
    (lookup name (unprocessed (fs w)) = Some u ->
     lookup name (unprocessed (fs w')) = Some u
     \/ lookup name (processed (fs w')) = Some u)
    /\ (lookup name (processed (fs w)) = Some u ->
        is_empty_dir u = false ->
        lookup name (processed (fs w')) = Some u).
Proof.
  intros cfg env w w' r name u H.
  destruct (try_upload_fs _ _ _ _ _ H)
    as [F|(n & x & Lx & Un & [[Lo Pr]|(old & Lo & Em & Pr)])].
  - rewrite F. split; [intros Hu; left; exact Hu | intros Hu _; exact Hu].
  - rewrite Un, Pr. split.
    + intros Hu. destruct (String.eqb_spec name n) as [->|N].
      * right. rewrite lookup_app, Lo. simpl. rewrite String.eqb_refl.
        rewrite <- Hu, Lx. reflexivity.
      * left. rewrite lookup_remove_other by exact N. exact Hu.
    + intros Hu _. rewrite lookup_app, Hu. reflexivity.
  - rewrite Un, Pr. split.
    + intros Hu. destruct (String.eqb_spec name n) as [->|N].
      * right. rewrite (lookup_update_same n (fun _ => x) _ old Lo).
        rewrite <- Hu, Lx. reflexivity.
      * left. rewrite lookup_remove_other by exact N. exact Hu.
    + intros Hu Hne. destruct (String.eqb_spec name n) as [->|N].
      * rewrite Lo in Hu. injection Hu as ->. congruence.
      * rewrite lookup_update_other by exact N. exact Hu.
Qed.

(** X14.  The [--new] action creates nothing when an entry of either root
    has a name that is not an integer literal or a metadata blob that is
    missing or malformed: it ends with the exception of the enumeration and
    the world as it was. *)
Theorem new_aborts_on_bad_entry :
  forall (cfg : Config) (env : Env) (w : World) (r : Root) (fp : string),
    In fp (names (root r (fs w))) ->
    bad_entry (root r (fs w)) fp ->
    exists e, run_new cfg env w = (Raise e, w).
Proof.
  intros cfg env w r fp Hin Hbad.
  apply bad_entry_does_not_load in Hbad.
  destruct (load_each_fails _ _ _ Hin Hbad) as [e He].
  rewrite run_new_cases. unfold load_all_from_parent_dir at 1 2.
  destruct r; simpl in He.
  - destruct (load_each (processed (fs w)) (names (processed (fs w))))
      as [ps|e']; [|exists e'; reflexivity].
    rewrite He. exists e. reflexivity.
  - rewrite He. exists e. reflexivity.
Qed.

Lemma os_rename_fails (name : string) (env : Env) (w : World) :
  rename_fault env <> None
  \/ (exists old, lookup name (processed (fs w)) = Some old
                  /\ is_empty_dir old = false) ->
  exists e, os_rename name env w = (Raise e, w).
Proof.
  intros H. unfold os_rename.
  destruct (rename_fault env) as [e|]; [exists e; reflexivity|].
  destruct H as [H|(old & Lo & Em)]; [contradiction H; reflexivity|].
  destruct (lookup name (unprocessed (fs w)));
    [|exists FileNotFoundError; reflexivity].
  rewrite Lo, Em. exists OSError. reflexivity.
Qed.

(** When [upload_post] returns it has made exactly one publishing call. *)
Lemma upload_post_ok_uploads (cli : InstaClient) (upload : InstaUpload)
    (env : Env) (w w' : World) (x : unit) :
  upload_post cli upload env w = (Ok x, w') ->
  exists evs loc,
    w' = logged evs w
    /\ uploads evs = [upload_call (client_cfg cli) upload loc].
Proof.
  rewrite upload_post_cases.
  destruct (loc_lat (meta upload)) as [lat|];
    [destruct (loc_long (meta upload)) as [lng|]|].
  - destruct (location_search env lat lng) as [[|first rest]|e];
      try discriminate.
    destruct (location_complete env first) as [loc|e]; [|discriminate].
    intros [= _ <-]. eexists. exists (Some loc). split; [reflexivity|].
    change [LocationSearch lat lng; LocationComplete first;
            upload_call (client_cfg cli) upload (Some loc)]
      with ([LocationSearch lat lng; LocationComplete first]
            ++ [upload_call (client_cfg cli) upload (Some loc)]).
    rewrite uploads_app. apply upload_call_is_upload.
  - intros [= _ <-]. eexists. exists None.
    split; [reflexivity | apply upload_call_is_upload].
  - intros [= _ <-]. eexists. exists None.
    split; [reflexivity | apply upload_call_is_upload].
Qed.

(** One cycle that publishes and then fails to move. *)
Lemma publish_then_failed_move (cfg : Config) (env : Env) (w : World)
    (h : InstaUpload) (t : list InstaUpload) (s : dt.datetime)
    (cred : option string * string) :
  load_all_from_parent_dir (unprocessed (fs w)) = Ok (h :: t) ->
  upload_at (meta h) = Some s ->
  validate_post h = true ->
  dt.gt s (now_at env (ticks w)) = false ->
  env_uname_pwd env = Ok cred ->
  login env (fst cred) (snd cred) = Ok tt ->
  (forall w0, fst (upload_post {| client_cfg := cfg |} h env w0) = Ok tt) ->
  rename_fault env <> None
  \/ (exists old, lookup (py_str (id h)) (processed (fs w)) = Some old
                  /\ is_empty_dir old = false) ->
  exists w' evs loc,
    try_upload cfg env w = (Ok None, w')
    /\ fs w' = fs w
    /\ trace w' = trace w ++ evs
    /\ uploads evs = [upload_call cfg h loc].
Proof.
  intros L A V G Hcred Hlogin Hup Hren.
  rewrite try_upload_cases, L, A, G, V. simpl negb. cbv iota.
  rewrite publish_cases, Hcred. cbv zeta. rewrite Hlogin.
  pose proof (Hup (logged [Login (fst cred) (snd cred)] (tick w))) as Hup1.
  destruct (upload_post _ h env _) as [r w2] eqn:U. simpl in Hup1. subst r.
  pose proof (upload_post_quiet _ _ _ _ _ _ U) as (F2 & _ & _). simpl in F2.
  destruct (upload_post_ok_uploads _ _ _ _ _ _ U) as (evs & loc & -> & Hloc).
  simpl client_cfg in Hloc.
  destruct (os_rename_fails (py_str (id h)) env
              (logged evs (logged [Login (fst cred) (snd cred)] (tick w))))
    as [e He]; [simpl; exact Hren|].
  rewrite He.
  eexists. exists ([Login (fst cred) (snd cred)] ++ evs
                   ++ [Print (ErrorUploading e)]), loc.
  split; [reflexivity|]. split; [reflexivity|].
  split; [simpl; rewrite <- !app_assoc; reflexivity|].
  rewrite !uploads_app. simpl. rewrite app_nil_r. exact Hloc.
Qed.

(** X15.  When the publish succeeds but the move fails (the operating
    system reports an error, or the published root already has a directory
    of that name that is not empty), the record stays pending and, with a
    check interval that [time.sleep] accepts (not negative and not above its
    longest sleep), it is published again on every turn of the loop: after
    [turns] turns the same record has been published [turns] times. *)
Theorem failed_move_republishes :
  forall (turns : nat) (env : Env) (k : nat) (cfg : Config) (w : World)
         (h : InstaUpload) (t : list InstaUpload) (s : dt.datetime)
         (cred : option string * string),
    load_all_from_parent_dir (unprocessed (fs w)) = Ok (h :: t) ->
    upload_at (meta h) = Some s ->
    validate_post h = true ->
    (forall n, dt.gt s (now_at env n) = false) ->
    env_uname_pwd env = Ok cred ->
    login env (fst cred) (snd cred) = Ok tt ->
    (forall w0, fst (upload_post {| client_cfg := cfg |} h env w0) = Ok tt) ->
    rename_fault env <> None
    \/ (exists old, lookup (py_str (id h)) (processed (fs w)) = Some old
                    /\ is_empty_dir old = false) ->
    0 <= check_interval cfg <= dt.sleep_max ->
    exists w' evs,
      run_cron turns (fun _ => env) k cfg w = (Ok tt, w')
      /\ fs w' = fs w
      /\ trace w' = trace w ++ evs
      /\ List.length (uploads evs) = turns
      /\ Forall (fun ev => exists loc, ev = upload_call cfg h loc) (uploads evs).
Proof.
  induction turns as [|turns IH];
    intros env k cfg w h t s cred L A V G Hcred Hlogin Hup Hren C.
  - exists w, []. simpl. rewrite app_nil_r.
    repeat split; constructor.
  - destruct (publish_then_failed_move cfg env w h t s cred L A V (G _)
                Hcred Hlogin Hup Hren) as (w1 & evs1 & loc & T & F1 & Tr1 & U1).
    set (w1' := logged [Print (SleepingFor (check_interval cfg));
                        Sleep (check_interval cfg)] w1).
    assert (Turn : cron_turn cfg env w = (Ok tt, w1')).
    { rewrite cron_turn_cases, cron_sleep_for_cases, T.
      destruct (Z.ltb_spec (check_interval cfg) 0); [lia|].
      destruct (Z.ltb_spec dt.sleep_max (check_interval cfg));
        [lia | reflexivity]. }
    destruct (IH env (S k) cfg w1' h t s cred) as (w2 & evs2 & R & F2 & Tr2 & Len & All);
      try assumption; try (simpl; rewrite F1; assumption).
    exists w2, (evs1 ++ [Print (SleepingFor (check_interval cfg));
                         Sleep (check_interval cfg)] ++ evs2).
    simpl run_cron. rewrite Turn.
    split; [exact R|]. split; [rewrite F2; simpl; exact F1|].
    split; [rewrite Tr2; simpl; rewrite Tr1, <- !app_assoc; reflexivity|].
    rewrite !uploads_app, U1. simpl. split; [rewrite Len; reflexivity|].
    constructor; [exists loc; reflexivity | exact All].
Qed.

(** X16.  A dispatch cycle never sends an album of fewer than two images:
    every [album_upload] call it makes carries at least two paths, and a
    record with exactly one image goes out as a single photo. *)
Theorem album_has_at_least_two_images :
  forall (cfg : Config) (env : Env) (w w' : World)
         (r : result (option dt.timedelta)) (evs : list event),
    try_upload cfg env w = (r, w') ->
    trace w' = trace w ++ evs ->
    Forall (fun ev =>
              match ev with
              | AlbumUpload paths _ _ => (2 <= List.length paths)%nat
              | _ => True
              end) evs.
Proof.
  intros cfg env w w' r evs H Tr.
  assert (Up : Forall (fun ev =>
                         match ev with
                         | AlbumUpload paths _ _ => (2 <= List.length paths)%nat
                         | _ => True
                         end) (uploads evs)).
  { rewrite try_upload_cases in H.
    assert (Nil : forall w0, trace w' = trace w0 ->
                             (exists e0, trace w0 = trace w ++ e0
                                         /\ uploads e0 = []) ->
                             uploads evs = []).
    { intros w0 E (e0 & E0 & U0). rewrite E, E0 in Tr.
      apply app_inv_head in Tr. subst e0. exact U0. }
    destruct (load_all_from_parent_dir (unprocessed (fs w))) as [[|h t]|e].
    - injection H as _ <-.
      rewrite (Nil _ eq_refl); [constructor|].
      eexists. split; reflexivity.
    - destruct (upload_at (meta h)) as [[s|local off]|].
      2,3: injection H as _ <-;
        rewrite (Nil _ eq_refl); [constructor|];
        exists []; (split; [simpl; rewrite app_nil_r; reflexivity
                           | reflexivity]).
      + destruct (dt.gt s (now_at env (ticks w))).
        * injection H as _ <-.
          rewrite (Nil _ eq_refl); [constructor|].
          eexists. split; reflexivity.
        * destruct (validate_post h) eqn:V; simpl negb in H; cbv iota in H.
          -- apply publish_uploads in H as (evs' & Tr' & Hup).
             simpl in Tr'. rewrite Tr in Tr'. apply app_inv_head in Tr'.
             subst evs'.
             destruct Hup as [->|[loc ->]]; [constructor|].
             constructor; [|constructor].
             unfold validate_post in V.
             apply andb_true_iff in V as [V _].
             apply andb_true_iff in V as [V _].
             apply len_pos in V.
             unfold upload_call, paths_of.
             destruct (images h) as [|im [|im' ims]];
               [contradiction V; reflexivity | exact I | simpl; lia].
          -- injection H as _ <-.
             rewrite (Nil _ eq_refl); [constructor|].
             eexists. split; reflexivity.
    - injection H as _ <-.
      rewrite (Nil _ eq_refl); [constructor|].
      exists []. split; [rewrite app_nil_r; reflexivity | reflexivity]. }
  apply Forall_forall. intros ev Hin. destruct ev; try exact I.
  rewrite Forall_forall in Up. apply (Up (AlbumUpload paths caption0 location)).
  unfold uploads. apply filter_In. split; [exact Hin | reflexivity].
Qed.

End Advancing.

(** ** The command line and the first error *)

Section Running.

Context {codec : PyInt}.

(** X17.  The script runs an action exactly when one flag is given: with
    no flag it fails with "No action specified", with two or three with
    "Only one action can be specified", in both cases before touching
    anything; with one flag it runs that action and no other. *)
Theorem main_runs_exactly_one_action :
  forall (turns : nat) (envs : nat -> Env) (args : Args) (cfg : Config)
         (w : World),
    ((exists msg, main turns envs args cfg w = (AssertionError msg, w))
     <-> bool_sum [arg_new args; arg_upload args; arg_cron args] <> 1)
    /\ (bool_sum [arg_new args; arg_upload args; arg_cron args] = 0
        <-> main turns envs args cfg w
            = (AssertionError "No action specified", w))
    /\ match arg_new args, arg_upload args, arg_cron args with
       | true, false, false =>
           main turns envs args cfg w
           = (Finished (fst (run_new cfg (envs 0%nat) w)),
              snd (run_new cfg (envs 0%nat) w))
       | false, true, false =>
           main turns envs args cfg w
           = (Finished (fst (run_upload cfg (envs 0%nat) w)),
              snd (run_upload cfg (envs 0%nat) w))
       | false, false, true =>
           main turns envs args cfg w
           = (Finished (fst (run_cron turns envs 0 cfg w)),
              snd (run_cron turns envs 0 cfg w))
       | _, _, _ => True
       end.
Proof.
  intros turns envs [n u c] cfg w. unfold main; simpl.
  destruct n, u, c; simpl;
    repeat match goal with
           | |- context [let (_, _) := ?p in _] => destruct p
           end;
    (split; [|split]);
    try exact I; try reflexivity;
    try (split; [intros _; discriminate | intros _; eexists; reflexivity]);
    try (split; [intros [msg H]; discriminate H | intros H; contradiction H; reflexivity]);
    try (split; [discriminate | discriminate]);
    try (split; [reflexivity | reflexivity]).
Qed.

(** X18.  The enumeration ends with the exception of the first entry, in
    listing order, that does not load: [ValueError] for a name that is not
    an integer literal, otherwise the exception of [load_from_dir]
    ([FileNotFoundError] for a missing directory, metadata blob or image
    folder, [ValidationError] for a malformed blob).  Entries after it are
    not looked at. *)
Theorem first_bad_entry_decides :
  forall (d : Dir) (before after : list string) (fp : string),
    names d = before ++ fp :: after ->
    forallb (entry_loads d) before = true ->
    entry_loads d fp = false ->
    load_all_from_parent_dir d = Raise (entry_error d fp)
    /\ (py_int fp = None -> entry_error d fp = ValueError)
    /\ (forall i, py_int fp = Some i ->
                  entry_error d fp
                  = match lookup (py_str i) d with
                    | None => FileNotFoundError
                    | Some u =>
                        match meta_json u, ims u with
                        | NoMeta, _ => FileNotFoundError
                        | BadMeta, _ => ValidationError
                        | MetaJson _, _ => FileNotFoundError
                        end
                    end).
Proof.
  intros d before after fp Hn Hgood Hbad.
  split; [|split].
  - unfold load_all_from_parent_dir. rewrite Hn. clear Hn.
    induction before as [|b before IH]; simpl in *.
    + unfold entry_loads, entry_error in *.
      destruct (py_int fp) as [i|]; [|reflexivity].
      destruct (load_from_dir i d); [discriminate | reflexivity].
    + apply andb_true_iff in Hgood as [Hb Hgood].
      unfold entry_loads in Hb.
      destruct (py_int b) as [i|]; [|discriminate].
      destruct (load_from_dir i d); [|discriminate].
      specialize (IH Hgood).
      destruct (load_each d (before ++ fp :: after)); [discriminate|].
      injection IH as ->. reflexivity.
  - intros E. unfold entry_error. rewrite E. reflexivity.
  - intros i E. unfold entry_loads, entry_error in *. rewrite E in *.
    unfold load_from_dir, from_fp, listdir_ims in *.
    destruct (lookup (py_str i) d) as [u|]; [|reflexivity].
    destruct (meta_json u); try reflexivity.
    destruct (ims u); [discriminate | reflexivity].
Qed.

End Running.

(** ** Concrete runs of the further properties *)

(** X1 at work: the last upload was at 09:00 today and the target is 10:00
    with a delay of one day; the next upload is tomorrow at 10:00. *)
Lemma next_upload_time_whole_days_witness :
  next_upload_time sample_now (Some (dt.Naive sample_earlier)) ten_o_clock
    (days 1)
  = Ok (dt.combine 739001 ten_o_clock).
Proof.
  refine (@next_upload_time_whole_days sample_now (Some sample_earlier)
            ten_o_clock 1 _ _).
  - unfold dt.time_wf, dt.us_per_second; simpl; lia.
  - unfold dt.wf, dt.time_wf, dt.us_per_second; simpl; lia.
Defined.

(** X2 at work: three uploads created in a row; all three runs return. *)
Lemma new_uploads_are_spaced_witness :
  exists w' ats,
    @run_new_n dec_PyInt 3 (fun _ => sample_env) 0 sample_cfg (world_of [] [])
    = (Ok tt, w')
    /\ List.length ats = 3%nat
    /\ load_all_from_parent_dir (codec := dec_PyInt) (unprocessed (fs w'))
       = Ok (records_from 0 ats)
    /\ spaced one_day ats.
Proof.
  destruct (@new_uploads_are_spaced dec_PyInt sample_cfg 3
              (fun _ => sample_env) (world_of [] []) dec_roundtrip eq_refl)
    as (r & w' & ats & R & D & L & S).
  exists w', ats.
  destruct D as [[-> Hl]|[-> Hl]].
  - split; [exact R|]. split; [exact Hl|]. split; [exact L | exact S].
  - exfalso. vm_compute in R. discriminate R.
Defined.

(** X3 at work: after three [--new] runs a cycle publishes nothing. *)
Lemma new_uploads_are_not_published_witness :
  exists w1 r w2 line,
    @run_new_n dec_PyInt 3 (fun _ => sample_env) 0 sample_cfg (world_of [] [])
    = (Ok tt, w1)
    /\ @try_upload dec_PyInt sample_cfg sample_env w1 = (Ok r, w2)
    /\ fs w2 = fs w1
    /\ trace w2 = trace w1 ++ [Print line]
    /\ (line = NoUploads \/ line = NotReady \/ line = InvalidPost).
Proof.
  destruct (@new_uploads_are_not_published dec_PyInt sample_cfg 3
              (fun _ => sample_env) (world_of [] []) sample_env
              dec_roundtrip eq_refl)
    as (r1 & w1 & r & w2 & line & R & D & T & F & Tr & Ln).
  exists w1, r, w2, line.
  destruct D as [->| ->].
  - split; [exact R|]. split; [exact T|]. split; [exact F|].
    split; [exact Tr | exact Ln].
  - exfalso. vm_compute in R. discriminate R.
Defined.

(** X4 at work: one image and both coordinates set; the photo goes out with
    the completed first result of the search. *)
Lemma upload_post_returns_witness :
  exists (loc : option Location) (before : list event),
    loc = Some 7
    /\ before = [LocationSearch float_one float_one; LocationComplete 7]
    /\ @upload_call dec_PyInt sample_cfg (located 0 (Some float_one) (Some float_one)) loc
       = PhotoUpload ["unprocessed"; "0"; "ims"; "a.jpg"] "hello" (Some 7).
Proof.
  destruct (@upload_post_returns dec_PyInt {| client_cfg := sample_cfg |}
              (located 0 (Some float_one) (Some float_one)) sample_env
              due_world _ tt eq_refl)
    as (loc & before & _ & _ & _ & (first & rest & l & Hs & Hc & Hl & Hb) & Hcall).
  exists loc, before.
  injection Hs as <- <-. injection Hc as <-.
  split; [exact Hl|]. split; [exact Hb|]. subst loc. exact Hcall.
Defined.

(** X5 at work: the search finds nothing; [IndexError], no publishing
    call. *)
Lemma upload_post_location_failure_witness :
  @upload_post dec_PyInt {| client_cfg := sample_cfg |}
    (located 0 (Some float_one) (Some float_one)) no_location_env due_world
  = (Raise IndexError,
     logged [LocationSearch float_one float_one] due_world).
Proof.
  exact (@upload_post_location_failure dec_PyInt {| client_cfg := sample_cfg |}
           (located 0 (Some float_one) (Some float_one)) no_location_env
           due_world float_one float_one eq_refl eq_refl).
Defined.

(** X6 at work: a longitude without a latitude; the photo goes out without
    a location and the directory is moved. *)
Lemma half_set_location_published_without_location_witness :
  exists w' last,
    @try_upload dec_PyInt sample_cfg sample_env half_set_world = (Ok None, w')
    /\ trace w'
       = trace half_set_world
         ++ [Login (Some "user") "secret";
             @upload_call dec_PyInt sample_cfg (located 0 None (Some float_one)) None;
             last]
    /\ (last = Rename "0" \/ exists e, last = Print (ErrorUploading e)).
Proof.
  exact (@half_set_location_published_without_location dec_PyInt sample_cfg
           sample_env half_set_world (located 0 None (Some float_one)) []
           sample_earlier (Some "user", "secret")
           eq_refl eq_refl eq_refl eq_refl (or_introl eq_refl)
           eq_refl eq_refl).
Defined.

(** X7 at work: two turns on a queue that is not due. *)
Lemma cron_sleeps_at_most_check_interval_witness :
  exists evs,
    trace (snd (@run_cron dec_PyInt 2 (fun _ => sample_env) 0 sample_cfg
                  not_due_world))
    = trace not_due_world ++ evs
    /\ Forall (fun d => 0 <= d <= check_interval sample_cfg) (sleeps evs)
    /\ (fst (@run_cron dec_PyInt 2 (fun _ => sample_env) 0 sample_cfg
               not_due_world) = Ok tt ->
        List.length (sleeps evs) = 2%nat).
Proof.
  exact (@cron_sleeps_at_most_check_interval dec_PyInt 2 (fun _ => sample_env)
           0 sample_cfg not_due_world _ _ (surjective_pairing _)).
Defined.

(** X8 at work: a due, valid head is published with one photo call. *)
Lemma only_due_valid_head_is_published_witness :
  (fs (snd (@try_upload dec_PyInt sample_cfg sample_env due_world))
   = fs due_world
   /\ existsb is_client_call
        (trace (snd (@try_upload dec_PyInt sample_cfg sample_env due_world)))
      = false)
  \/ exists h t (s : dt.datetime),
       load_all_from_parent_dir (codec := dec_PyInt)
         (unprocessed (fs due_world)) = Ok (h :: t)
       /\ upload_at (meta h) = Some s
       /\ dt.gt s (now_at sample_env (ticks due_world)) = false
       /\ validate_post h = true
       /\ (uploads (trace (snd (@try_upload dec_PyInt sample_cfg sample_env
                                  due_world))) = []
           \/ exists loc,
                uploads (trace (snd (@try_upload dec_PyInt sample_cfg
                                       sample_env due_world)))
                = [@upload_call dec_PyInt sample_cfg h loc]).
Proof.
  exact (@only_due_valid_head_is_published dec_PyInt sample_cfg sample_env
           due_world _ _ _ (surjective_pairing _) eq_refl).
Defined.

(** X10 at work: three turns on an invalid head with a valid record
    behind it. *)
Lemma invalid_head_blocks_queue_witness :
  @run_cron dec_PyInt 3 (fun _ => sample_env) 0 sample_cfg invalid_head_world
  = (Ok tt,
     {| fs := fs invalid_head_world;
        ticks := 3;
        trace := rejected_turns 3 (dt.seconds 600) |}).
Proof.
  refine (@invalid_head_blocks_queue dec_PyInt 3 (fun _ => sample_env) 0
            sample_cfg invalid_head_world (empty_record 0 sample_earlier)
            [loaded 1 (Some sample_earlier)] sample_earlier
            eq_refl eq_refl eq_refl (fun _ _ => eq_refl) _).
  vm_compute. split; discriminate.
Defined.

(** X11 at work: the entries "1" and "0" are named by their ids. *)
Lemma distinct_ids_have_canonical_names_witness :
  Forall (fun fp => exists i, dec_int fp = Some i /\ dec_str i = fp)
         (names two_pending)
  /\ NoDup (names two_pending).
Proof.
  refine (@distinct_ids_have_canonical_names dec_PyInt two_pending
            [loaded 0 (Some sample_earlier); loaded 1 (Some sample_later)]
            dec_roundtrip eq_refl _).
  repeat constructor; simpl; intuition discriminate.
Defined.

(** X12 at work: upload 0 is published and moved; the pending queue is
    empty afterwards. *)
Lemma published_head_leaves_queue_witness :
  exists u,
    lookup "0" (unprocessed (fs due_world)) = Some u
    /\ @try_upload dec_PyInt sample_cfg sample_env due_world
       = (Ok None,
          {| fs := {| unprocessed := []; processed := [("0", u)] |};
             ticks := 1;
             trace := [Login (Some "user") "secret";
                       PhotoUpload ["unprocessed"; "0"; "ims"; "a.jpg"]
                                   "hello" None;
                       Rename "0"] |})
    /\ lookup "0" (@nil (string * UploadDir)) = None
    /\ load_all_from_parent_dir (codec := dec_PyInt) [] = Ok [].
Proof.
  refine (@published_head_leaves_queue dec_PyInt sample_cfg sample_env
            due_world _ (loaded 0 (Some sample_earlier)) [] sample_earlier
            (Some "user", "secret") dec_roundtrip eq_refl _
            eq_refl eq_refl eq_refl eq_refl eq_refl eq_refl eq_refl eq_refl).
  repeat constructor. intros [].
Defined.

(** X13 at work: after the cycle, upload 0 is under the published root. *)
Lemma no_upload_is_lost_witness :
  lookup "0" (unprocessed
                (fs (snd (@try_upload dec_PyInt sample_cfg sample_env
                            due_world))))
  = Some (ready_upload (Some sample_earlier))
  \/ lookup "0" (processed
                   (fs (snd (@try_upload dec_PyInt sample_cfg sample_env
                               due_world))))
     = Some (ready_upload (Some sample_earlier)).
Proof.
  exact (proj1 (@no_upload_is_lost dec_PyInt sample_cfg sample_env due_world
                  _ _ "0" (ready_upload (Some sample_earlier))
                  (surjective_pairing _))
               eq_refl).
Defined.

(** X14 at work: a directory named "drafts" under the pending root. *)
Lemma new_aborts_on_bad_entry_witness :
  exists e,
    @run_new dec_PyInt sample_cfg sample_env stray_dir_world
    = (Raise e, stray_dir_world).
Proof.
  apply (@new_aborts_on_bad_entry dec_PyInt sample_cfg sample_env
           stray_dir_world Unprocessed "drafts").
  - simpl. right. left. reflexivity.
  - left. reflexivity.
Defined.

(** X15 at work: the published root already has an upload 0; in two turns
    the pending upload 0 is published twice and stays pending. *)
Lemma failed_move_republishes_witness :
  exists w' evs,
    @run_cron dec_PyInt 2 (fun _ => sample_env) 0 sample_cfg collision_world
    = (Ok tt, w')
    /\ fs w' = fs collision_world
    /\ trace w' = trace collision_world ++ evs
    /\ List.length (uploads evs) = 2%nat
    /\ Forall (fun ev =>
                 exists loc,
                   ev = @upload_call dec_PyInt sample_cfg
                          (loaded 0 (Some sample_earlier)) loc)
              (uploads evs).
Proof.
  refine (@failed_move_republishes dec_PyInt 2 sample_env 0 sample_cfg
            collision_world (loaded 0 (Some sample_earlier)) [] sample_earlier
            (Some "user", "secret")
            eq_refl eq_refl eq_refl (fun _ => eq_refl) eq_refl eq_refl
            (fun _ => eq_refl) _ _).
  - right. exists (ready_upload (Some sample_earlier)). split; reflexivity.
  - vm_compute. split; discriminate.
Defined.

(** X16 at work: the one image of upload 0 goes out as a photo, not as an
    album. *)
Lemma album_has_at_least_two_images_witness :
  Forall (fun ev =>
            match ev with
            | AlbumUpload paths _ _ => (2 <= List.length paths)%nat
            | _ => True
            end)
         (trace (snd (@try_upload dec_PyInt sample_cfg sample_env due_world))).
Proof.
  exact (@album_has_at_least_two_images dec_PyInt sample_cfg sample_env
           due_world _ _ _ (surjective_pairing _) eq_refl).
Defined.

(** X18 at work: "0" loads and "drafts" does not; [ValueError]. *)
Lemma first_bad_entry_decides_witness :
  load_all_from_parent_dir (codec := dec_PyInt)
    (unprocessed (fs stray_dir_world))
  = Raise ValueError.
Proof.
  exact (proj1 (@first_bad_entry_decides dec_PyInt
                  (unprocessed (fs stray_dir_world)) ["0"] [] "drafts"
                  eq_refl eq_refl eq_refl)).
Defined.
